(** * RulePolicy: a shallow embedding of [rasa/core/policies/rule_policy.py]

    The policy memorises rule keys built from turn histories and recalls an
    action by matching those keys against the current conversation.  Python
    strings are [string]s over code points below 256, dictionaries are
    association lists in insertion order with unique keys, and code that can
    raise runs in a small state-and-exception monad. *)

From Stdlib Require Import String Ascii List ZArith Bool Arith Lia.
Import ListNotations.
Open Scope string_scope.

(** ** Python built-ins used by the policy *)

Module Py.

(** [str.isspace] on one character, for code points below 256. *)
Definition isspace (c : ascii) : bool :=
  let n := nat_of_ascii c in
  (((9 <=? n) && (n <=? 13)) || ((28 <=? n) && (n <=? 32))
   || (n =? 133) || (n =? 160))%nat.

Fixpoint lstrip (s : string) : string :=
  match s with
  | EmptyString => EmptyString
  | String c s' => if isspace c then lstrip s' else s
  end.

Fixpoint rstrip (s : string) : string :=
  match s with
  | EmptyString => EmptyString
  | String c s' =>
      match rstrip s' with
      | EmptyString => if isspace c then EmptyString else String c EmptyString
      | r => String c r
      end
  end.

(** [s.strip()] *)
Definition strip (s : string) : string := rstrip (lstrip s).

(** [s.split(sep)] for a one-character separator: never an empty list. *)
Fixpoint split_on (sep : ascii) (s : string) : list string :=
  match s with
  | EmptyString => [EmptyString]
  | String c s' =>
      if Ascii.eqb c sep then EmptyString :: split_on sep s'
      else match split_on sep s' with
           | seg :: rest => String c seg :: rest
           | [] => [String c EmptyString]
           end
  end.

(** [s.split()]: the maximal runs of non-whitespace characters. *)
Fixpoint split (s : string) : list string :=
  match s with
  | EmptyString => []
  | String c s' =>
      if isspace c then split s'
      else match s' with
           | EmptyString => [String c EmptyString]
           | String c' _ =>
               if isspace c' then String c EmptyString :: split s'
               else match split s' with
                    | w :: ws => String c w :: ws
                    | [] => [String c EmptyString]
                    end
           end
  end.

(** [sub in s] for strings. *)
Fixpoint contains (sub s : string) : bool :=
  prefix sub s
  || match s with
     | EmptyString => false
     | String _ s' => contains sub s'
     end.

Definition startswith (s p : string) : bool := prefix p s.

Fixpoint endswith (s suf : string) : bool :=
  (s =? suf)
  || match s with
     | EmptyString => false
     | String _ s' => endswith s' suf
     end.

(** [s.rfind(c)] for a one-character needle, counting from index [i];
    [-1] when the character does not occur. *)
Fixpoint rfind_from (c : ascii) (s : string) (i : Z) : Z :=
  match s with
  | EmptyString => (-1)%Z
  | String a s' =>
      let r := rfind_from c s' (i + 1)%Z in
      if (0 <=? r)%Z then r else if Ascii.eqb a c then i else (-1)%Z
  end.

Definition rfind (s : string) (c : ascii) : Z := rfind_from c s 0%Z.

Fixpoint take (n : nat) (s : string) : string :=
  match n, s with
  | S n', String c s' => String c (take n' s')
  | _, _ => EmptyString
  end.

Fixpoint drop (n : nat) (s : string) : string :=
  match n, s with
  | S n', String _ s' => drop n' s'
  | _, _ => s
  end.

(** [s[:n]]: a negative bound counts from the end. *)
Definition slice_to (s : string) (n : Z) : string :=
  if (n <? 0)%Z then take (Z.to_nat (Z.of_nat (String.length s) + n)) s
  else take (Z.to_nat n) s.

(** Truth value of a string: non-empty. *)
Definition truthy (s : string) : bool :=
  match s with EmptyString => false | _ => true end.

(** [xs[i]] with Python's negative indices; [None] is an [IndexError]. *)
Definition index {A} (xs : list A) (i : Z) : option A :=
  let n := Z.of_nat (List.length xs) in
  if (i <? 0)%Z then
    if (i + n <? 0)%Z then None else nth_error xs (Z.to_nat (i + n))
  else nth_error xs (Z.to_nat i).

(** [xs[i] = v]; [None] is an [IndexError]. *)
Fixpoint set_nth {A} (xs : list A) (n : nat) (v : A) : option (list A) :=
  match xs, n with
  | [], _ => None
  | _ :: t, O => Some (v :: t)
  | h :: t, S n' => option_map (cons h) (set_nth t n' v)
  end.

Definition store {A} (xs : list A) (i : Z) (v : A) : option (list A) :=
  let n := Z.of_nat (List.length xs) in
  if (i <? 0)%Z then
    if (i + n <? 0)%Z then None else set_nth xs (Z.to_nat (i + n)) v
  else set_nth xs (Z.to_nat i) v.

End Py.

(** ** Dictionaries with insertion order *)

Section Dicts.
Context {V : Type}.

Definition Dict := list (string * V).

Definition keys (d : Dict) : list string := map fst d.

Fixpoint dict_get (k : string) (d : Dict) : option V :=
  match d with
  | [] => None
  | (k', v) :: d' => if (k' =? k) then Some v else dict_get k d'
  end.

Definition dict_mem (k : string) (d : Dict) : bool :=
  match dict_get k d with Some _ => true | None => false end.

(** [d[k] = v]: an existing key keeps its place, a new key goes last. *)
Fixpoint dict_set (k : string) (v : V) (d : Dict) : Dict :=
  match d with
  | [] => [(k, v)]
  | (k', v') :: d' =>
      if (k' =? k) then (k', v) :: d' else (k', v') :: dict_set k v d'
  end.

(** [del d[k]]; [None] is a [KeyError]. *)
Fixpoint dict_del (k : string) (d : Dict) : option Dict :=
  match d with
  | [] => None
  | (k', v') :: d' =>
      if (k' =? k) then Some d'
      else option_map (cons (k', v')) (dict_del k d')
  end.

End Dicts.

Arguments Dict V : clear implicits.

(** ** Turns and rule keys *)

(** A turn is a feature map; weights are presence markers and the code only
    ever asks whether a weight is positive.  The encoder may also hand out
    [None] for a turn that is absent. *)
Definition Turn := Dict Z.
Definition State := option Turn.

(** Truth value of [state]: [None] and the empty dictionary are false. *)
Definition state_truthy (state : State) : bool :=
  match state with
  | Some (_ :: _) => true
  | _ => false
  end.

Definition state_keys (state : State) : list string :=
  match state with
  | Some d => keys d
  | None => []
  end.

(** Modelled from the spec: the constants imported from [rasa.core.domain],
    [rasa.core.constants] and [rasa.core.actions.action], which are not part
    of the examined source; the code's own literals ["prev_..."] and
    ["active_form_{name}"] agree with them. *)
Definition PREV_PREFIX : string := "prev_".
Definition ACTIVE_FORM_PREFIX : string := "active_form_".
Definition RULE_SNIPPET_ACTION_NAME : string := "...".
Definition USER_INTENT_RESTART : string := "restart".
Definition USER_INTENT_BACK : string := "back".
Definition USER_INTENT_SESSION_START : string := "session_start".
Definition ACTION_LISTEN_NAME : string := "action_listen".
Definition ACTION_RESTART_NAME : string := "action_restart".
Definition ACTION_BACK_NAME : string := "action_back".
Definition ACTION_SESSION_START_NAME : string := "action_session_start".
Definition FORM_POLICY_PRIORITY : Z := 5.

Definition NO_VALIDATION : string := "no_validation".
Definition NO_ACTIVE_FORM : string := "no_active_form".

Definition DEFAULT_ACTION_MAPPINGS : Dict string :=
  dict_set USER_INTENT_SESSION_START ACTION_SESSION_START_NAME
    (dict_set USER_INTENT_BACK ACTION_BACK_NAME
       (dict_set USER_INTENT_RESTART ACTION_RESTART_NAME [])).

(** One pass of the outer loop of [_create_feature_key]. *)
Definition feature_key_step (feature_str : string) (state : State) : string :=
  if state_truthy state then
    Py.strip
      (fold_left (fun acc feature => acc ++ feature ++ " ")
                 (state_keys state) (feature_str ++ "|"))
  else feature_str.

Definition _create_feature_key (states : list State) : string :=
  fold_left feature_key_step states "".

(** *** Slot groups: [defaultdict(set)] keyed by slot name *)

Definition SlotMap := Dict (list string).

Definition set_add (x : string) (xs : list string) : list string :=
  if existsb (String.eqb x) xs then xs else xs ++ [x].

Definition set_eqb (xs ys : list string) : bool :=
  forallb (fun x => existsb (String.eqb x) ys) xs
  && forallb (fun y => existsb (String.eqb y) xs) ys.

(** [m[k].add(x)] *)
Definition slot_add (k x : string) (m : SlotMap) : SlotMap :=
  match dict_get k m with
  | Some xs => dict_set k (set_add x xs) m
  | None => dict_set k [x] m
  end.

(** [m[k]] on a [defaultdict(set)] *)
Definition slot_get (k : string) (m : SlotMap) : list string :=
  match dict_get k m with
  | Some xs => xs
  | None => []
  end.

(** [s[: s.rfind("_")]] *)
Definition base_name (s : string) : string :=
  Py.slice_to s (Py.rfind s "_"%char).

Definition state_slots_of (names : list string) : SlotMap :=
  fold_left
    (fun m s => if Py.startswith s "slot" then slot_add (base_name s) s m else m)
    names [].

(** The loop over [features]; [None] is the early [return False]. *)
Fixpoint features_loop (features : list string) (state : Turn)
    (f_slots : SlotMap) : option SlotMap :=
  match features with
  | [] => Some f_slots
  | f :: fs =>
      if Py.endswith f "_None" then
        if existsb (fun key => Py.contains (base_name f) key) (keys state)
        then None
        else features_loop fs state f_slots
      else if negb (dict_mem f state) then None
      else if Py.startswith f "slot" then
        features_loop fs state (slot_add (base_name f) f f_slots)
      else features_loop fs state f_slots
  end.

Definition _features_in_state (features : list string) (state : Turn) : bool :=
  let state_slots := state_slots_of (keys state) in
  match features_loop features state [] with
  | None => false
  | Some f_slots =>
      forallb (fun kv => set_eqb (slot_get (fst kv) state_slots) (snd kv))
              f_slots
  end.

Definition _rule_is_good (rule_key : string) (turn_index : nat)
    (state : State) : bool :=
  let rule_turns := rev (Py.split_on "|"%char rule_key) in
  (List.length rule_turns <=? turn_index)%nat
  || match nth_error rule_turns turn_index with
     | None => false
     | Some rule_turn =>
         (negb (Py.truthy rule_turn) && negb (state_truthy state))
         || (Py.truthy rule_turn && state_truthy state
             && match state with
                | Some d => _features_in_state (Py.split rule_turn) d
                | None => false
                end)
     end.

(** ** Exceptions and state *)

Inductive PyError :=
| AttributeError | IndexError | KeyError | NameError | TypeError
| JSONDecodeError.

Inductive Res (A : Type) :=
| Ok (a : A)
| Raise (e : PyError).

Arguments Ok {A} a.
Arguments Raise {A} e.

(** A computation over a mutable store [S]; the store survives a raise. *)
Definition M (S A : Type) := S -> Res A * S.

Definition ret {S A} (a : A) : M S A := fun s => (Ok a, s).

Definition bind {S A B} (c : M S A) (k : A -> M S B) : M S B :=
  fun s =>
    match c s with
    | (Ok a, s') => k a s'
    | (Raise e, s') => (Raise e, s')
    end.

Definition raise {S A} (e : PyError) : M S A := fun s => (Raise e, s).

Definition gets {S A} (f : S -> A) : M S A := fun s => (Ok (f s), s).

Definition modify {S} (f : S -> S) : M S unit := fun s => (Ok tt, f s).

Definition or_raise {S A} (e : PyError) (o : option A) : M S A :=
  match o with
  | Some a => ret a
  | None => raise e
  end.

Notation "x <- c ;; k" := (bind c (fun x => k))
  (at level 61, c at next level, right associativity).
Notation "c ;;; k" := (bind c (fun _ => k))
  (at level 61, right associativity).

(** ** Collaborators: domain, tracker, featurizer *)

Record Domain := { action_names : list string }.

Fixpoint list_index (name : string) (names : list string) : option nat :=
  match names with
  | [] => None
  | n :: ns =>
      if (n =? name) then Some O else option_map S (list_index name ns)
  end.

(** Modelled from the spec: [Domain.index_for_action], the action-name to
    index mapping of the vocabulary; an unknown name raises there. *)
Definition index_for_action {S} (domain : Domain) (name : string) : M S Z :=
  match list_index name (action_names domain) with
  | Some i => ret (Z.of_nat i)
  | None => raise NameError
  end.

(** Modelled from the spec: [Policy._default_predictions], the all-zero
    vector over all known actions. *)
Definition _default_predictions (domain : Domain) : list Z :=
  repeat 0%Z (List.length (action_names domain)).

Inductive Event := FormValidation (validate : bool).

Record Message := { intent_name : option string }.

Record Tracker := {
  latest_action_name : option string;
  latest_message : option Message;
  active_loop_name : option string;
  active_loop_rejected : bool;
  is_augmented : option bool;
  is_rule_tracker : bool;
  events : list Event
}.

(** Modelled from the spec: [DialogueStateTracker.update], which records the
    event on the tracker. *)
Definition tracker_update (e : Event) (t : Tracker) : Tracker :=
  {| latest_action_name := latest_action_name t;
     latest_message := latest_message t;
     active_loop_name := active_loop_name t;
     active_loop_rejected := active_loop_rejected t;
     is_augmented := is_augmented t;
     is_rule_tracker := is_rule_tracker t;
     events := events t ++ [e] |}.

(** The state encoder, an external collaborator. *)
Record Featurizer := {
  prediction_states : list Tracker -> Domain -> list (list State);
  training_states_and_actions :
    list Tracker -> Domain -> list (list State) * list (list string)
}.

Record RulePolicy := {
  featurizer : Featurizer;
  priority : Z;
  lookup : Dict Z;
  negative_lookup : Dict string;
  is_enabled : bool
}.

(** What a prediction call can touch: the policy and the tracker it is given. *)
Record World := {
  self : RulePolicy;
  tracker : Tracker
}.

Definition update_tracker (e : Event) : M World unit :=
  modify (fun w => {| self := self w; tracker := tracker_update e (tracker w) |}).

(** ** Prediction *)

(** A name that is present and non-empty, as [if name:] tests it. *)
Definition truthy_name (o : option string) : option string :=
  match o with
  | Some s => if Py.truthy s then Some s else None
  | None => None
  end.

Definition opt_eqb (o : option string) (s : string) : bool :=
  match o with
  | Some x => (x =? s)
  | None => false
  end.

Definition _should_run_rasa_default_action (t : Tracker) : option string :=
  if negb (opt_eqb (latest_action_name t) ACTION_LISTEN_NAME) then None
  else match latest_message t with
       | None => None
       | Some m =>
           match intent_name m with
           | Some i => dict_get i DEFAULT_ACTION_MAPPINGS
           | None => None
           end
       end.

(** The filtering loop over [enumerate(reversed(states))]. *)
Definition surviving (candidates : list string) (states : list State)
  : list string :=
  fold_left
    (fun ks (ist : nat * State) =>
       filter (fun _key => _rule_is_good _key (fst ist) (snd ist)) ks)
    (combine (seq 0 (List.length states)) (rev states))
    candidates.

(** [max(ks, key=len)]: the first key of greatest length in iteration
    order; the order of a Python set is unspecified, the table's order
    stands in for it here. *)
Fixpoint max_by_len (best : string) (ks : list string) : string :=
  match ks with
  | [] => best
  | k :: ks' =>
      if (String.length best <? String.length k)%nat then max_by_len k ks'
      else max_by_len best ks'
  end.

(** Lines 348-355: the chosen key and the action it recalls. *)
Definition recall (lookup : Dict Z) (possible_keys : list string)
  : option string * option Z :=
  match possible_keys with
  | [] => (None, None)
  | k :: ks =>
      let key := max_by_len k ks in (Some key, dict_get key lookup)
  end.

Definition negative_recalled_of (negative_lookup : Dict string)
    (negative_keys : list string) : list (option string) :=
  map (fun key => dict_get key negative_lookup) negative_keys.

Definition marker_in (marker : string) (recalled : list (option string))
  : bool :=
  existsb (fun v => opt_eqb v marker) recalled.

(** Lines 365-370. *)
Definition predicted_listen_from_general_rule (domain : Domain)
    (recalled : option Z) (key : option string) (active_form_name : string)
  : M World bool :=
  match recalled, key with
  | Some r, Some k =>
      name <- or_raise IndexError (Py.index (action_names domain) r) ;;
      ret ((name =? ACTION_LISTEN_NAME)
           && negb (Py.contains (ACTIVE_FORM_PREFIX ++ active_form_name) k))
  | _, _ => ret false
  end.

Definition set_one (result : list Z) (i : Z) : M World (list Z) :=
  or_raise IndexError (Py.store result i 1%Z).

(** Lines 392-400. *)
Definition finish (result : list Z) (recalled : option Z)
  : M World (list Z) :=
  match recalled with
  | Some r => set_one result r
  | None => ret result
  end.

(** Lines 332-400: rule matching. *)
Definition predict_from_rules (domain : Domain) (result : list Z)
    (active_form_name : option string) : M World (list Z) :=
  policy <- gets self ;;
  t <- gets tracker ;;
  tracker_as_states <- ret (prediction_states (featurizer policy) [t] domain) ;;
  states <- or_raise IndexError (nth_error tracker_as_states 0) ;;
  let possible_keys := surviving (keys (lookup policy)) states in
  let negative_keys := surviving (keys (negative_lookup policy)) states in
  let '(key, recalled) := recall (lookup policy) possible_keys in
  let negative_recalled :=
    negative_recalled_of (negative_lookup policy) negative_keys in
  match truthy_name active_form_name with
  | Some form =>
      general <- predicted_listen_from_general_rule domain recalled key form ;;
      if general && negb (marker_in NO_ACTIVE_FORM negative_recalled) then
        i <- index_for_action domain form ;;
        set_one result i
      else
        let recalled := if general then None else recalled in
        (if marker_in NO_VALIDATION negative_recalled
         then update_tracker (FormValidation false)
         else ret tt) ;;;
        finish result recalled
  | None => finish result recalled
  end.

Definition predict_action_probabilities (domain : Domain)
  : M World (list Z) :=
  let result := _default_predictions domain in
  policy <- gets self ;;
  t <- gets tracker ;;
  if negb (is_enabled policy) then ret result
  else
    match truthy_name (_should_run_rasa_default_action t) with
    | Some rasa_default_action_name =>
        i <- index_for_action domain rasa_default_action_name ;;
        set_one result i
    | None =>
        let active_form_name := active_loop_name t in
        let active_form_rejected := active_loop_rejected t in
        let driving :=
          match truthy_name active_form_name with
          | Some _ => negb active_form_rejected
          | None => false
          end in
        let just_ran :=
          match active_form_name with
          | Some form => opt_eqb (latest_action_name t) form
          | None => false
          end in
        let should_predict_form := driving && negb just_ran in
        let should_predict_listen := driving && just_ran in
        if should_predict_form then
          i <- index_for_action domain
                 (match active_form_name with Some f => f | None => "" end) ;;
          set_one result i
        else if should_predict_listen then
          i <- index_for_action domain ACTION_LISTEN_NAME ;;
          set_one result i
        else predict_from_rules domain result active_form_name
    end.

(** ** Training *)

Definition positive (prob : Z) : bool := (0 <? prob)%Z.

Definition _get_active_form_name {S} (state : State) : M S (option string) :=
  match state with
  | None => raise AttributeError
  | Some d =>
      let found_forms :=
        map (fun kv => Py.drop (String.length ACTIVE_FORM_PREFIX) (fst kv))
            (filter
               (fun kv =>
                  Py.contains ACTIVE_FORM_PREFIX (fst kv)
                  && negb (fst kv =? ACTIVE_FORM_PREFIX ++ "None")
                  && positive (snd kv))
               d) in
      ret (hd_error found_forms)
  end.

Definition _prev_action_listen_in_state {S} (state : State) : M S bool :=
  match state with
  | None => raise AttributeError
  | Some d =>
      ret (existsb
             (fun kv =>
                Py.contains (PREV_PREFIX ++ ACTION_LISTEN_NAME) (fst kv)
                && positive (snd kv))
             d)
  end.

(** [states[-1]] *)
Definition last_state {S} (states : list State) : M S State :=
  or_raise IndexError (Py.index states (-1)%Z).

(** [states[-2:]] *)
Definition last_two {A} (xs : list A) : list A :=
  skipn (List.length xs - 2) xs.

Definition _modified_states {S} (states : list State) : M S (list State) :=
  first <- or_raise IndexError (nth_error states 0) ;;
  let action_before_listen : State :=
    match first with
    | None => None
    | Some d =>
        Some (filter
                (fun kv =>
                   Py.contains PREV_PREFIX (fst kv) && positive (snd kv))
                d)
    end in
  match action_before_listen with
  | None => raise AttributeError
  | Some before =>
      last <- last_state states ;;
      if negb (dict_mem "prev_..." before)
      then ret [Some [("prev_...", 1%Z)]; action_before_listen; last]
      else ret [action_before_listen; last]
  end.

(** *** The wildcard rewrite [re.sub(r".*prev_\.\.\.[^|]*", "", key)] *)

Fixpoint span_not_bar (s : string) : nat :=
  match s with
  | EmptyString => O
  | String c s' => if Ascii.eqb c "|" then O else S (span_not_bar s')
  end.

(** Length of the match that starts at the head of [s], if there is one:
    the greedy [.*] stops at a newline and gives back characters until the
    last ["prev_..."] of the line. *)
Fixpoint match_len (s : string) : option nat :=
  let here :=
    if prefix "prev_..." s
    then Some (8 + span_not_bar (Py.drop 8 s))%nat
    else None in
  match s with
  | EmptyString => None
  | String c s' =>
      if Ascii.eqb c "010" then here
      else match match_len s' with
           | Some n => Some (S n)
           | None => here
           end
  end.

(** Replace every match, left to right; [skip] counts the characters of the
    current match that are still to be dropped. *)
Fixpoint sub_snippet_from (skip : nat) (s : string) : string :=
  match s with
  | EmptyString => EmptyString
  | String c s' =>
      match skip with
      | S n => sub_snippet_from n s'
      | O =>
          match match_len s with
          | Some n => sub_snippet_from (n - 1) s'
          | None => String c (sub_snippet_from 0 s')
          end
      end
  end.

Definition sub_snippet (key : string) : string := sub_snippet_from 0 key.

Definition trim_bars (new_key : string) : string :=
  let k1 := if Py.startswith new_key "|" then Py.drop 1 new_key else new_key in
  if Py.endswith k1 "|" then Py.slice_to k1 (-1)%Z else k1.

Section Clean.
Context {S V : Type}.
(** [lookup[key] == index]: the tables hold action indices or markers. *)
Variable is_index : V -> Z -> bool.

Definition clean_step (lookup : Dict V) (domain : Domain)
    (updated_lookup : Dict V) (key : string) : M S (Dict V) :=
  value <- or_raise KeyError (dict_get key lookup) ;;
  no_prior <- ret (negb (Py.contains PREV_PREFIX key)) ;;
  drop_it <-
    (if no_prior then ret true
     else i <- index_for_action domain RULE_SNIPPET_ACTION_NAME ;;
          ret (is_index value i)) ;;
  if (drop_it : bool) then or_raise KeyError (dict_del key updated_lookup)
  else if Py.contains RULE_SNIPPET_ACTION_NAME key then
    let new_key := sub_snippet key in
    let updated_lookup :=
      if Py.truthy new_key
      then dict_set (trim_bars new_key) value updated_lookup
      else updated_lookup in
    or_raise KeyError (dict_del key updated_lookup)
  else ret updated_lookup.

Fixpoint clean_loop (lookup : Dict V) (domain : Domain) (ks : list string)
    (updated_lookup : Dict V) : M S (Dict V) :=
  match ks with
  | [] => ret updated_lookup
  | key :: ks' =>
      updated_lookup <- clean_step lookup domain updated_lookup key ;;
      clean_loop lookup domain ks' updated_lookup
  end.

Definition _clean_feature_keys (lookup : Dict V) (domain : Domain)
  : M S (Dict V) :=
  clean_loop lookup domain (keys lookup) lookup.
End Clean.

Definition set_lookup (l : Dict Z) : M RulePolicy unit :=
  modify (fun p =>
    {| featurizer := featurizer p; priority := priority p; lookup := l;
       negative_lookup := negative_lookup p; is_enabled := is_enabled p |}).

Definition set_negative_lookup (n : Dict string) : M RulePolicy unit :=
  modify (fun p =>
    {| featurizer := featurizer p; priority := priority p; lookup := lookup p;
       negative_lookup := n; is_enabled := is_enabled p |}).

(** Modelled from the spec: [MemoizationPolicy._add_states_to_lookup], which
    is inherited and not part of the examined source: for each rule trace
    point the full-history key is inserted with the action taken there, and
    a later write to the same key wins. *)
Fixpoint _add_states_to_lookup (trackers_as_states : list (list State))
    (trackers_as_actions : list (list string)) (domain : Domain)
  : M RulePolicy unit :=
  match trackers_as_states, trackers_as_actions with
  | states :: ss, actions :: aa =>
      action <- or_raise IndexError (nth_error actions 0) ;;
      feature_item <- index_for_action domain action ;;
      l <- gets lookup ;;
      set_lookup (dict_set (_create_feature_key states) feature_item l) ;;;
      _add_states_to_lookup ss aa domain
  | _, _ => ret tt
  end.

(** One pass of the negative-rule loop of [train], lines 195-220. *)
Definition mine_step (states : list State) (actions : list string)
  : M RulePolicy unit :=
  last <- last_state states ;;
  active_form <- _get_active_form_name last ;;
  match truthy_name active_form with
  | None => ret tt
  | Some form =>
      states <- _modified_states (last_two states) ;;
      let feature_key := _create_feature_key states in
      last <- last_state states ;;
      listen <- _prev_action_listen_in_state last ;;
      action <- or_raise IndexError (nth_error actions 0) ;;
      n <- gets negative_lookup ;;
      if listen && (action =? form) then
        set_negative_lookup (dict_set feature_key NO_VALIDATION n)
      else if negb listen
              && negb ((action =? ACTION_LISTEN_NAME) || (action =? form)) then
        set_negative_lookup (dict_set feature_key NO_ACTIVE_FORM n)
      else ret tt
  end.

Fixpoint mine_loop (trackers_as_states : list (list State))
    (trackers_as_actions : list (list string)) : M RulePolicy unit :=
  match trackers_as_states, trackers_as_actions with
  | states :: ss, actions :: aa =>
      mine_step states actions ;;; mine_loop ss aa
  | _, _ => ret tt
  end.

Definition train (training_trackers : list Tracker) (domain : Domain)
  : M RulePolicy unit :=
  set_lookup [] ;;;
  let training_trackers :=
    filter
      (fun t => match is_augmented t with
                | None => true
                | Some b => negb b
                end)
      training_trackers in
  let rule_trackers := filter is_rule_tracker training_trackers in
  fz <- gets featurizer ;;
  let '(rule_trackers_as_states, rule_trackers_as_actions) :=
    training_states_and_actions fz rule_trackers domain in
  _add_states_to_lookup rule_trackers_as_states rule_trackers_as_actions
    domain ;;;
  l <- gets lookup ;;
  l <- _clean_feature_keys Z.eqb l domain ;;
  set_lookup l ;;;
  let story_trackers :=
    filter (fun t => negb (is_rule_tracker t)) training_trackers in
  let '(story_trackers_as_states, story_trackers_as_actions) :=
    training_states_and_actions fz story_trackers domain in
  let trackers_as_states :=
    (rule_trackers_as_states ++ story_trackers_as_states)%list in
  let trackers_as_actions :=
    (rule_trackers_as_actions ++ story_trackers_as_actions)%list in
  set_negative_lookup [] ;;;
  mine_loop trackers_as_states trackers_as_actions ;;;
  n <- gets negative_lookup ;;
  n <- _clean_feature_keys (fun _ _ => false) n domain ;;
  set_negative_lookup n.

(** ** Persistence *)

(** What [json.loads] makes of the file [memorized_turns.json]: the text is
    no JSON at all, or it is a JSON value that is not an object, or an object
    whose entries of interest may be missing or [null]. *)
Record JsonObject := {
  j_priority : option Z;
  j_lookup : option (option (Dict Z));
  j_negative_lookup : option (option (Dict string))
}.

Inductive FileContent :=
| NotJson
| JsonOther
| JsonObj (o : JsonObject).

(** The directory [path]: the featurizer [TrackerFeaturizer.load] finds there
    and the memorized-turns file, each of which may be absent. *)
Record Directory := {
  stored_featurizer : option Featurizer;
  memorized_file : option FileContent
}.

Section Load.
(** [_standard_featurizer()] with [max_history = None]. *)
Variable standard_featurizer : Featurizer.

(** [RulePolicy.__init__] on top of [MemoizationPolicy.__init__]. *)
Definition init (fz : option Featurizer) (prio : Z)
    (l : option (Dict Z)) (n : option (Dict string)) : RulePolicy :=
  {| featurizer :=
       match fz with Some f => f | None => standard_featurizer end;
     priority := prio;
     lookup := match l with Some d => d | None => [] end;
     negative_lookup := match n with Some d => d | None => [] end;
     is_enabled := true |}.

Definition load (path : Directory) : Res RulePolicy :=
  let fz := stored_featurizer path in
  match memorized_file path with
  | Some content =>
      match content with
      | NotJson => Raise JSONDecodeError
      | JsonOther => Raise TypeError
      | JsonObj data =>
          match j_priority data with
          | None => Raise KeyError
          | Some prio =>
              match j_lookup data with
              | None => Raise KeyError
              | Some l =>
                  match j_negative_lookup data with
                  | None => Raise KeyError
                  | Some n => Ok (init fz prio l n)
                  end
              end
          end
      end
  | None => Ok (init None FORM_POLICY_PRIORITY None None)
  end.
End Load.

(** * Vocabulary of the properties and sample conversations *)

(** The segments [_rule_is_good] reads off a key. *)
Definition segments (key : string) : list string := Py.split_on "|" key.

(** The reading of the spec: every turn has its segment, and the segment of
    a featureless turn is empty. *)
Definition empty_turns_keep_their_place (states : list State) : Prop :=
  List.length (segments (_create_feature_key states)) = List.length states
  /\ forall i st,
       nth_error states i = Some st -> state_truthy st = false ->
       nth_error (segments (_create_feature_key states)) i = Some "".

Definition greet_turns : list State :=
  [Some [("prev_action_listen", 1%Z); ("intent_greet", 1%Z)];
   Some [];
   Some [("prev_utter_greet", 1%Z)]].

(** The reading of the spec: a key matches the history it was built from. *)
Definition self_match (states : list State) : Prop :=
  forall i state,
    nth_error (rev states) i = Some state ->
    _rule_is_good (_create_feature_key states) i state = true.

Fixpoint all_chars (p : ascii -> bool) (s : string) : bool :=
  match s with
  | EmptyString => true
  | String c s' => p c && all_chars p s'
  end.

Definition token_char (c : ascii) : bool :=
  negb (Py.isspace c) && negb (Ascii.eqb c "|").

(** A feature name that survives the trip through a key: not empty, no
    whitespace and no separator inside. *)
Definition is_token (f : string) : bool :=
  Py.truthy f && all_chars token_char f.

(** A token that is not a must-be-absent marker. *)
Definition plain (f : string) : bool :=
  is_token f && negb (Py.endswith f "_None").

Fixpoint join_sp (fs : list string) : string :=
  match fs with
  | [] => ""
  | f :: fs' =>
      match fs' with
      | [] => f
      | _ :: _ => f ++ " " ++ join_sp fs'
      end
  end.

(** The key whose segments are [bs]. *)
Fixpoint glue (bs : list string) : string :=
  match bs with
  | [] => ""
  | b :: bs' => "|" ++ b ++ glue bs'
  end.

Definition body (state : State) : string := join_sp (state_keys state).

(** A partial key is empty or starts with the separator. *)
Definition key_acc (acc : string) : Prop :=
  acc = "" \/ exists r, acc = String "|" r.

Definition tokens_only (state : State) : Prop :=
  Forall (fun f => is_token f = true) (state_keys state).

Definition bar_free (s : string) : bool :=
  all_chars (fun c => negb (Ascii.eqb c "|")) s.

Definition slots_fold (m : SlotMap) (names : list string) : SlotMap :=
  fold_left
    (fun m s => if Py.startswith s "slot" then slot_add (base_name s) s m else m)
    names m.

(** A turn all of whose feature names are plain tokens. *)
Definition well_formed (state : State) : Prop :=
  Forall (fun f => plain f = true) (state_keys state).

(** The vector with a single one at index [i]. *)
Definition one_hot (n i : nat) : list Z :=
  repeat 0%Z i ++ 1%Z :: repeat 0%Z (n - S i).

(** The three reserved intents and their fixed actions. *)
Definition reserved : list (string * string) :=
  [(USER_INTENT_RESTART, ACTION_RESTART_NAME);
   (USER_INTENT_BACK, ACTION_BACK_NAME);
   (USER_INTENT_SESSION_START, ACTION_SESSION_START_NAME)].

Definition demo_domain : Domain :=
  {| action_names :=
       ["action_listen"; "action_restart"; "action_back";
        "action_session_start"; "..."; "restaurant_form"; "utter_chitchat"] |}.

Definition no_featurizer : Featurizer :=
  {| prediction_states := fun _ _ => [];
     training_states_and_actions := fun _ _ => ([], []) |}.

Definition restart_world : World :=
  {| self := {| featurizer := no_featurizer; priority := 5%Z;
                lookup := [("|prev_action_listen", 6%Z)];
                negative_lookup := []; is_enabled := true |};
     tracker := {| latest_action_name := Some "action_listen";
                   latest_message := Some {| intent_name := Some "restart" |};
                   active_loop_name := Some "restaurant_form";
                   active_loop_rejected := false;
                   is_augmented := None; is_rule_tracker := false;
                   events := [] |} |}.

Definition form_world (latest : string) : World :=
  {| self := {| featurizer := no_featurizer; priority := 5%Z;
                lookup := [("|prev_action_listen", 6%Z)];
                negative_lookup := []; is_enabled := true |};
     tracker := {| latest_action_name := Some latest;
                   latest_message := Some {| intent_name := Some "chitchat" |};
                   active_loop_name := Some "restaurant_form";
                   active_loop_rejected := false;
                   is_augmented := None; is_rule_tracker := false;
                   events := [] |} |}.

Definition chitchat_turn : State :=
  Some [("intent_chitchat", 1%Z); ("prev_action_listen", 1%Z)].

Definition chitchat_featurizer : Featurizer :=
  {| prediction_states := fun _ _ => [[Some []; chitchat_turn]];
     training_states_and_actions := fun _ _ => ([], []) |}.

Definition chitchat_world : World :=
  {| self := {| featurizer := chitchat_featurizer; priority := 5%Z;
                lookup := [("|prev_action_listen", 1%Z);
                           ("|intent_chitchat prev_action_listen", 6%Z)];
                negative_lookup := []; is_enabled := true |};
     tracker := {| latest_action_name := Some "action_listen";
                   latest_message := Some {| intent_name := Some "chitchat" |};
                   active_loop_name := None;
                   active_loop_rejected := false;
                   is_augmented := None; is_rule_tracker := false;
                   events := [] |} |}.

(** A computation that leaves the world as it found it. *)
Definition pure_comp {A} (c : M World A) : Prop := forall w, snd (c w) = w.

(** A computation that keeps the policy and at most records the
    skip-validation event on the tracker. *)
Definition frames {A} (c : M World A) : Prop :=
  forall w,
    self (snd (c w)) = self w
    /\ (tracker (snd (c w)) = tracker w
        \/ tracker (snd (c w))
           = tracker_update (FormValidation false) (tracker w)).

Definition in_form_turn : State :=
  Some [("prev_utter_chitchat", 1%Z); ("active_form_restaurant_form", 1%Z)].

Definition in_form_featurizer : Featurizer :=
  {| prediction_states := fun _ _ => [[Some []; in_form_turn]];
     training_states_and_actions := fun _ _ => ([], []) |}.

(** A rejected form, a general rule "after the chitchat answer, listen" and
    the negative rules [negative]. *)
Definition in_form_world (negative : Dict string) : World :=
  {| self := {| featurizer := in_form_featurizer; priority := 5%Z;
                lookup := [("|prev_utter_chitchat", 0%Z)];
                negative_lookup := negative; is_enabled := true |};
     tracker := {| latest_action_name := Some "utter_chitchat";
                   latest_message := Some {| intent_name := Some "chitchat" |};
                   active_loop_name := Some "restaurant_form";
                   active_loop_rejected := true;
                   is_augmented := None; is_rule_tracker := false;
                   events := [] |} |}.

Definition in_form_key : string :=
  "|prev_utter_chitchat active_form_restaurant_form".

(** The reading of the spec: whenever a form is active and a surviving
    negative key is marked [NO_VALIDATION], the tracker receives the
    skip-validation event. *)
Definition signal_always_emitted (domain : Domain) (w : World) : Prop :=
  forall form states nkey,
    is_enabled (self w) = true ->
    active_loop_name (tracker w) = Some form ->
    Py.truthy form = true ->
    nth_error (prediction_states (featurizer (self w)) [tracker w] domain) 0
    = Some states ->
    In nkey (surviving (keys (negative_lookup (self w))) states) ->
    dict_get nkey (negative_lookup (self w)) = Some NO_VALIDATION ->
    events (tracker (snd (predict_action_probabilities domain w)))
    = (events (tracker w) ++ [FormValidation false])%list.

Definition suppressing_rules : Dict string :=
  [(in_form_key, NO_VALIDATION);
   ("|active_form_restaurant_form", NO_ACTIVE_FORM)].

Definition malformed (c : FileContent) : Prop :=
  match c with
  | NotJson | JsonOther => True
  | JsonObj o =>
      j_priority o = None \/ j_lookup o = None \/ j_negative_lookup o = None
  end.

(** The reading of the spec: an absent or malformed blob loads as the empty
    policy. *)
Definition load_degrades (standard : Featurizer) (path : Directory) : Prop :=
  (memorized_file path = None
   \/ exists c, memorized_file path = Some c /\ malformed c) ->
  exists p,
    load standard path = Ok p /\ lookup p = [] /\ negative_lookup p = [].

(** What a malformed file makes [load] raise: [json.loads] fails on text
    that is no JSON, subscripting a JSON value that is no object with
    ["priority"] fails, and an object lacking one of the three entries
    fails at the subscript that asks for it. *)
Definition load_error (c : FileContent) : PyError :=
  match c with
  | NotJson => JSONDecodeError
  | JsonOther => TypeError
  | JsonObj _ => KeyError
  end.

Definition unhappy_turn : State :=
  Some [("active_form_restaurant_form", 1%Z); ("prev_action_listen", 1%Z)].

(** An encoder that pads short histories with [None], as one with a bounded
    history does: the single story yields one training point. *)
Definition padding_featurizer (first : State) : Featurizer :=
  {| prediction_states := fun _ _ => [];
     training_states_and_actions :=
       fun trackers _ =>
         match trackers with
         | [] => ([], [])
         | _ :: _ => ([[first; unhappy_turn]], [["restaurant_form"]])
         end |}.

Definition story_tracker : Tracker :=
  {| latest_action_name := Some "restaurant_form";
     latest_message := Some {| intent_name := Some "inform" |};
     active_loop_name := Some "restaurant_form";
     active_loop_rejected := false;
     is_augmented := None; is_rule_tracker := false;
     events := [] |}.

Definition untrained (first : State) : RulePolicy :=
  {| featurizer := padding_featurizer first; priority := 5%Z;
     lookup := []; negative_lookup := []; is_enabled := true |}.

(** * Further vocabulary *)

(** A key that begins with the separator. *)
Definition starts_bar (key : string) : Prop := exists r, key = String "|" r.

Definition slot_feature (f : string) : bool :=
  Py.startswith f "slot" && negb (Py.endswith f "_None").

Definition two_slot_turn : Turn :=
  [("slot_cuisine_0", 1%Z); ("slot_cuisine_1", 1%Z);
   ("prev_action_listen", 1%Z)].

(** The domain has an action of this name. *)
Definition known (domain : Domain) (name : string) : Prop :=
  exists i, list_index name (action_names domain) = Some i.

(** An integer Python accepts as an index into the action list. *)
Definition valid_index (domain : Domain) (v : Z) : Prop :=
  (- Z.of_nat (List.length (action_names domain)) <= v
   < Z.of_nat (List.length (action_names domain)))%Z.

(** All zero, or a single one. *)
Definition well_shaped (domain : Domain) (r : list Z) : Prop :=
  r = repeat 0%Z (List.length (action_names domain))
  \/ exists j,
       (j < List.length (action_names domain))%nat
       /\ r = one_hot (List.length (action_names domain)) j.

Definition shaped (domain : Domain) (c : M World (list Z)) : Prop :=
  forall w r, fst (c w) = Ok r -> well_shaped domain r.

(** A world whose parts agree with the domain: the encoder has states for
    the tracker, every memorised action index is an index into the action
    list, and the domain has the default actions and the active form. *)
Definition consistent (domain : Domain) (w : World) : Prop :=
  (exists states,
     nth_error (prediction_states (featurizer (self w)) [tracker w] domain) 0
     = Some states)
  /\ (forall k v, In (k, v) (lookup (self w)) -> valid_index domain v)
  /\ (forall a,
        In a [ACTION_LISTEN_NAME; ACTION_RESTART_NAME; ACTION_BACK_NAME;
              ACTION_SESSION_START_NAME] ->
        known domain a)
  /\ (forall form,
        truthy_name (active_loop_name (tracker w)) = Some form ->
        known domain form).

(** A conversation the sample rules say nothing about. *)
Definition farewell_world : World :=
  {| self := {| featurizer :=
                  {| prediction_states :=
                       fun _ _ =>
                         [[Some [];
                           Some [("intent_bye", 1%Z);
                                 ("prev_utter_greet", 1%Z)]]];
                     training_states_and_actions := fun _ _ => ([], []) |};
                priority := 5%Z;
                lookup := [("|prev_action_listen", 1%Z);
                           ("|intent_chitchat prev_action_listen", 6%Z)];
                negative_lookup := []; is_enabled := true |};
     tracker := {| latest_action_name := Some "utter_greet";
                   latest_message := Some {| intent_name := Some "bye" |};
                   active_loop_name := None;
                   active_loop_rejected := false;
                   is_augmented := None; is_rule_tracker := false;
                   events := [] |} |}.

Definition is_marker (v : string) : Prop :=
  v = NO_VALIDATION \/ v = NO_ACTIVE_FORM.

(** The marker a rule snippet leaves in a key. *)
Definition SNIPPET_MARKER : string := "prev_...".

(** A computation that leaves its store as it found it. *)
Definition stateless {S A} (c : M S A) : Prop := forall s, snd (c s) = s.

(** Training touches nothing but the two tables. *)
Definition same_frame (p p' : RulePolicy) : Prop :=
  featurizer p' = featurizer p
  /\ priority p' = priority p
  /\ is_enabled p' = is_enabled p.

Definition rule_tracker : Tracker :=
  {| latest_action_name := Some "restaurant_form";
     latest_message := Some {| intent_name := Some "inform" |};
     active_loop_name := Some "restaurant_form";
     active_loop_rejected := false;
     is_augmented := None; is_rule_tracker := true;
     events := [] |}.

(** The policy with other tables. *)
Definition with_tables (l : Dict Z) (n : Dict string) (p : RulePolicy)
  : RulePolicy :=
  {| featurizer := featurizer p; priority := priority p; lookup := l;
     negative_lookup := n; is_enabled := is_enabled p |}.

Definition with_negative (n : Dict string) (p : RulePolicy) : RulePolicy :=
  with_tables (lookup p) n p.

(** A computation whose outcome does not depend on the store and that
    leaves the store alone. *)
Definition constant {S A} (c : M S A) : Prop :=
  exists r, forall s, c s = (r, s).

(** A computation that neither reads nor writes the negative table. *)
Definition ignores_negative {A} (c : M RulePolicy A) : Prop :=
  forall s n,
    c (with_negative n s) = (fst (c s), with_negative n (snd (c s))).

(** A computation whose outcome and positive table do not depend on the
    negative table it starts from, nor its final store when it returns. *)
Definition forgets_negative (c : M RulePolicy unit) : Prop :=
  forall s n,
    fst (c (with_negative n s)) = fst (c s)
    /\ lookup (snd (c (with_negative n s))) = lookup (snd (c s))
    /\ (fst (c s) = Ok tt -> snd (c (with_negative n s)) = snd (c s)).

(** What a segment asks of a turn: its features are there, the base names
    of its must-be-absent markers occur in no feature name, and for a slot
    it names it names every slot feature the turn has for that slot. *)
Definition segment_fits (features : list string) (state : Turn) : Prop :=
  (forall f, In f features ->
     (Py.endswith f "_None" = true ->
      forall key, In key (keys state) ->
        Py.contains (base_name f) key = false)
     /\ (Py.endswith f "_None" = false -> In f (keys state)))
  /\ (forall f s,
        In f features -> slot_feature f = true ->
        In s (keys state) -> Py.startswith s "slot" = true ->
        base_name s = base_name f ->
        In s features).

(** * Properties *)

(** ** The key builder *)

Lemma feature_key_step_falsy (acc : string) (state : State) :
  state_truthy state = false -> feature_key_step acc state = acc.
Proof.
  intros H. unfold feature_key_step. now rewrite H.
Qed.

Lemma fold_key_filter (states : list State) : forall acc,
  fold_left feature_key_step states acc
  = fold_left feature_key_step (filter state_truthy states) acc.
Proof.
  induction states as [|st states IH]; intros acc; simpl; [reflexivity|].
  destruct (state_truthy st) eqn:E; simpl.
  - apply IH.
  - rewrite feature_key_step_falsy by exact E. apply IH.
Qed.

Lemma create_feature_key_app (xs ys : list State) :
  _create_feature_key (xs ++ ys)
  = fold_left feature_key_step ys (_create_feature_key xs).
Proof.
  unfold _create_feature_key. apply fold_left_app.
Qed.

(** C2, counterexample: in a three-turn history whose middle turn has no
    features, the segment at the middle position is the first turn's, and
    the key is the one of the two-turn history without the empty turn. *)
Lemma empty_turn_is_dropped :
  ~ empty_turns_keep_their_place greet_turns
  /\ _create_feature_key greet_turns
     = _create_feature_key
         [Some [("prev_action_listen", 1%Z); ("intent_greet", 1%Z)];
          Some [("prev_utter_greet", 1%Z)]].
Proof.
  split; [|reflexivity].
  intros [_ H].
  specialize (H 1%nat (Some []) eq_refl eq_refl).
  vm_compute in H. discriminate H.
Qed.

(** C2, amended: a turn with no features adds nothing to the key.  The key
    of a history is the key of its non-empty turns, so taking an empty turn
    out of any position leaves the key as it was. *)
Theorem empty_turn_adds_nothing (states : list State) :
  _create_feature_key states
  = _create_feature_key (filter state_truthy states)
  /\ forall before after,
       _create_feature_key (before ++ Some [] :: after)
       = _create_feature_key (before ++ after).
Proof.
  split.
  - apply fold_key_filter.
  - intros before after.
    rewrite !create_feature_key_app. reflexivity.
Qed.

(** C1, counterexample: with a featureless turn in the middle of the history
    the key does not match back at the index of that turn. *)
Lemma self_match_fails_on_inner_empty_turn : ~ self_match greet_turns.
Proof.
  intros H.
  specialize (H 1%nat (Some []) eq_refl).
  vm_compute in H. discriminate H.
Qed.

(** *** Keys of well-formed histories *)

Lemma append_assoc (a b c : string) : (a ++ b) ++ c = a ++ b ++ c.
Proof.
  induction a as [|x a IH]; simpl; [reflexivity|]. now rewrite IH.
Qed.

Lemma append_nil_r (a : string) : a ++ "" = a.
Proof.
  induction a as [|x a IH]; simpl; [reflexivity|]. now rewrite IH.
Qed.

Lemma all_chars_app p (a b : string) :
  all_chars p (a ++ b) = all_chars p a && all_chars p b.
Proof.
  induction a as [|x a IH]; simpl; [reflexivity|].
  now rewrite IH, andb_assoc.
Qed.

Lemma all_chars_weaken (p q : ascii -> bool) (s : string) :
  (forall c, p c = true -> q c = true) ->
  all_chars p s = true -> all_chars q s = true.
Proof.
  intros Hpq. induction s as [|c s IH]; simpl; [reflexivity|].
  intros H. apply andb_prop in H as [H1 H2].
  now rewrite (Hpq _ H1), IH.
Qed.

Lemma is_token_inv (f : string) :
  is_token f = true ->
  exists c f', f = String c f' /\ token_char c = true
               /\ all_chars token_char f' = true.
Proof.
  unfold is_token. destruct f as [|c f']; simpl; [discriminate|].
  intros H. apply andb_prop in H as [H1 H2].
  exists c, f'. now repeat split.
Qed.

Lemma token_char_not_space c : token_char c = true -> Py.isspace c = false.
Proof.
  unfold token_char. intros H. apply andb_prop in H as [H _].
  now apply negb_true_iff in H.
Qed.

Lemma token_char_not_bar c : token_char c = true -> Ascii.eqb c "|" = false.
Proof.
  unfold token_char. intros H. apply andb_prop in H as [_ H].
  now apply negb_true_iff in H.
Qed.

Lemma fold_features (fs : list string) : forall init,
  fold_left (fun acc feature => acc ++ feature ++ " ") fs init
  = init ++ fold_right (fun f r => f ++ " " ++ r) "" fs.
Proof.
  induction fs as [|f fs IH]; intros init; simpl.
  - now rewrite append_nil_r.
  - rewrite IH, !append_assoc. reflexivity.
Qed.

Lemma fold_right_join (f : string) (fs : list string) :
  fold_right (fun f r => f ++ " " ++ r) "" (f :: fs)
  = join_sp (f :: fs) ++ " ".
Proof.
  revert f. induction fs as [|g fs IH]; intros f.
  - simpl. reflexivity.
  - change (fold_right (fun f r => f ++ " " ++ r) "" (f :: g :: fs))
      with (f ++ " " ++ fold_right (fun f r => f ++ " " ++ r) "" (g :: fs)).
    rewrite IH.
    change (join_sp (f :: g :: fs)) with (f ++ " " ++ join_sp (g :: fs)).
    now rewrite !append_assoc.
Qed.

Lemma rstrip_token_space (t : string) :
  is_token t = true -> Py.rstrip (t ++ " ") = t.
Proof.
  intros H. apply is_token_inv in H as (c & t' & -> & Hc & Ht').
  revert c Hc. induction t' as [|d t' IH]; intros c Hc.
  - simpl. now rewrite (token_char_not_space _ Hc).
  - simpl in Ht'. apply andb_prop in Ht' as [Hd Ht'].
    specialize (IH Ht' d Hd).
    change (Py.rstrip (String c (String d t' ++ " ")) = String c (String d t')).
    simpl Py.rstrip at 1. simpl in IH. rewrite IH. reflexivity.
Qed.

Lemma rstrip_prefix_token_space (p t : string) :
  is_token t = true -> Py.rstrip (p ++ t ++ " ") = p ++ t.
Proof.
  intros H. induction p as [|a p IH].
  - simpl. now apply rstrip_token_space.
  - simpl. rewrite IH.
    destruct (p ++ t) eqn:E; [|reflexivity].
    apply is_token_inv in H as (c & t' & -> & _).
    destruct p; discriminate E.
Qed.

Lemma rstrip_join_space (fs : list string) : forall p f,
  Forall (fun f => is_token f = true) (f :: fs) ->
  Py.rstrip (p ++ join_sp (f :: fs) ++ " ") = p ++ join_sp (f :: fs).
Proof.
  induction fs as [|g fs IH]; intros p f H.
  - simpl. apply rstrip_prefix_token_space. now inversion H.
  - change (join_sp (f :: g :: fs)) with (f ++ " " ++ join_sp (g :: fs)).
    inversion H as [|? ? Hf Hrest]; subst.
    specialize (IH (p ++ f ++ " ") g Hrest).
    rewrite !append_assoc in *. exact IH.
Qed.

Lemma lstrip_bar (r : string) : Py.lstrip (String "|" r) = String "|" r.
Proof. reflexivity. Qed.

Lemma feature_key_step_truthy (acc : string) (state : State) :
  key_acc acc -> state_truthy state = true -> tokens_only state ->
  feature_key_step acc state = acc ++ "|" ++ body state.
Proof.
  intros Hacc Ht Htok. unfold feature_key_step. rewrite Ht.
  unfold body, tokens_only in *.
  destruct state as [[|[f w] d]|]; try discriminate Ht.
  simpl state_keys in *. unfold keys in *. simpl map in *.
  rewrite fold_features, fold_right_join.
  unfold Py.strip.
  assert (Hl : Py.lstrip ((acc ++ "|") ++ join_sp (f :: map fst d) ++ " ")
               = (acc ++ "|") ++ join_sp (f :: map fst d) ++ " ").
  { destruct Hacc as [->|[r ->]]; apply lstrip_bar. }
  rewrite Hl, rstrip_join_space by exact Htok.
  now rewrite append_assoc.
Qed.

Lemma key_acc_step (acc b : string) : key_acc acc -> key_acc (acc ++ "|" ++ b).
Proof.
  intros [->|[r ->]]; right; eexists; simpl; reflexivity.
Qed.

Lemma fold_key_truthy (post : list State) : forall acc,
  key_acc acc ->
  Forall (fun s => state_truthy s = true) post ->
  Forall tokens_only post ->
  fold_left feature_key_step post acc = acc ++ glue (map body post).
Proof.
  induction post as [|st post IH]; intros acc Hacc Ht Htok; simpl.
  - now rewrite append_nil_r.
  - inversion Ht; inversion Htok; subst.
    rewrite feature_key_step_truthy by assumption.
    rewrite IH by (try apply key_acc_step; assumption).
    now rewrite !append_assoc.
Qed.

Lemma fold_key_falsy (pre : list State) : forall acc,
  Forall (fun s => state_truthy s = false) pre ->
  fold_left feature_key_step pre acc = acc.
Proof.
  induction pre as [|st pre IH]; intros acc H; simpl; [reflexivity|].
  inversion H; subst.
  rewrite feature_key_step_falsy by assumption. now apply IH.
Qed.

(** The key of a history whose featureless turns come first. *)
Lemma create_feature_key_shape (pre post : list State) :
  Forall (fun s => state_truthy s = false) pre ->
  Forall (fun s => state_truthy s = true) post ->
  Forall tokens_only post ->
  _create_feature_key (pre ++ post) = glue (map body post).
Proof.
  intros Hpre Hpost Htok.
  rewrite create_feature_key_app.
  unfold _create_feature_key. rewrite (fold_key_falsy pre) by exact Hpre.
  rewrite fold_key_truthy; [reflexivity|now left|assumption|assumption].
Qed.

(** *** Splitting a key into segments *)

Lemma split_on_nonempty sep (s : string) : Py.split_on sep s <> [].
Proof.
  destruct s as [|c s]; simpl; [discriminate|].
  destruct (Ascii.eqb c sep); [discriminate|].
  destruct (Py.split_on sep s); discriminate.
Qed.

Lemma split_on_bar_free_app (b rest : string) :
  bar_free b = true ->
  Py.split_on "|" (b ++ rest)
  = (b ++ hd "" (Py.split_on "|" rest)) :: tl (Py.split_on "|" rest).
Proof.
  induction b as [|c b IH]; intros H.
  - simpl. destruct (Py.split_on "|" rest) eqn:E; [|reflexivity].
    now apply split_on_nonempty in E.
  - unfold bar_free in H. simpl in H. apply andb_prop in H as [Hc Hb].
    apply negb_true_iff in Hc.
    simpl. rewrite Hc, (IH Hb). reflexivity.
Qed.

Lemma split_on_glue (bs : list string) :
  Forall (fun b => bar_free b = true) bs ->
  Py.split_on "|" (glue bs) = "" :: bs.
Proof.
  induction bs as [|b bs IH]; intros H; [reflexivity|].
  inversion H; subst.
  change (glue (b :: bs)) with (String "|" (b ++ glue bs)).
  change (Py.split_on "|" (String "|" (b ++ glue bs)))
    with ("" :: Py.split_on "|" (b ++ glue bs)).
  rewrite split_on_bar_free_app, IH by assumption.
  simpl. now rewrite append_nil_r.
Qed.

Lemma is_token_bar_free (f : string) : is_token f = true -> bar_free f = true.
Proof.
  unfold is_token, bar_free. intros H. apply andb_prop in H as [_ H].
  revert H. apply all_chars_weaken.
  intros c Hc. now rewrite (token_char_not_bar _ Hc).
Qed.

Lemma join_sp_bar_free (fs : list string) :
  Forall (fun f => is_token f = true) fs -> bar_free (join_sp fs) = true.
Proof.
  induction fs as [|f fs IH]; intros H; [reflexivity|].
  inversion H as [|? ? Hf Hfs]; subst.
  destruct fs as [|g fs]; [now apply is_token_bar_free|].
  change (join_sp (f :: g :: fs)) with (f ++ " " ++ join_sp (g :: fs)).
  pose proof (is_token_bar_free _ Hf) as Hb. specialize (IH Hfs).
  unfold bar_free in *. rewrite !all_chars_app, Hb, IH. reflexivity.
Qed.

Lemma split_token_then (c : ascii) (t' rest : string) :
  token_char c = true -> all_chars token_char t' = true ->
  Py.split (String c t' ++ " " ++ rest) = String c t' :: Py.split rest.
Proof.
  revert c. induction t' as [|d t' IH]; intros c Hc Ht'.
  - simpl. now rewrite (token_char_not_space _ Hc).
  - simpl in Ht'. apply andb_prop in Ht' as [Hd Ht'].
    specialize (IH d Hd Ht').
    change (String c (String d t') ++ " " ++ rest)
      with (String c (String d t' ++ " " ++ rest)).
    remember (String d t' ++ " " ++ rest) as s' eqn:Es'.
    simpl. rewrite (token_char_not_space _ Hc).
    rewrite Es' at 1. simpl. rewrite (token_char_not_space _ Hd).
    rewrite IH. reflexivity.
Qed.

Lemma split_token_alone (c : ascii) (t' : string) :
  token_char c = true -> all_chars token_char t' = true ->
  Py.split (String c t') = [String c t'].
Proof.
  revert c. induction t' as [|d t' IH]; intros c Hc Ht'.
  - simpl. now rewrite (token_char_not_space _ Hc).
  - simpl in Ht'. apply andb_prop in Ht' as [Hd Ht'].
    specialize (IH d Hd Ht').
    remember (String d t') as s' eqn:Es'.
    simpl. rewrite (token_char_not_space _ Hc).
    rewrite Es' at 1. rewrite (token_char_not_space _ Hd).
    rewrite IH. reflexivity.
Qed.

(** Splitting a segment on whitespace gives back the feature names. *)
Lemma split_join_sp (fs : list string) :
  Forall (fun f => is_token f = true) fs -> Py.split (join_sp fs) = fs.
Proof.
  induction fs as [|f fs IH]; intros H; [reflexivity|].
  inversion H as [|? ? Hf Hfs]; subst.
  apply is_token_inv in Hf as (c & t' & -> & Hc & Ht').
  destruct fs as [|g fs].
  - now apply split_token_alone.
  - change (join_sp (String c t' :: g :: fs))
      with (String c t' ++ " " ++ join_sp (g :: fs)).
    rewrite split_token_then by assumption. now rewrite IH.
Qed.

Lemma join_sp_truthy (f : string) (fs : list string) :
  is_token f = true -> Py.truthy (join_sp (f :: fs)) = true.
Proof.
  intros H. apply is_token_inv in H as (c & t' & -> & _).
  destruct fs; reflexivity.
Qed.

(** *** Matching a turn against its own features *)

Lemma dict_mem_keys {V} (f : string) (d : Dict V) :
  In f (keys d) -> dict_mem f d = true.
Proof.
  unfold dict_mem. induction d as [|[k v] d IH]; simpl; [tauto|].
  intros [->|H].
  - now rewrite String.eqb_refl.
  - destruct (k =? f); [reflexivity|]. now apply IH.
Qed.

Lemma features_loop_plain (fs : list string) (d : Turn) : forall m,
  Forall (fun f => plain f = true) fs ->
  (forall f, In f fs -> dict_mem f d = true) ->
  features_loop fs d m = Some (slots_fold m fs).
Proof.
  induction fs as [|f fs IH]; intros m Hp Hin; [reflexivity|].
  inversion Hp as [|? ? Hf Hfs]; subst.
  unfold plain in Hf. apply andb_prop in Hf as [_ Hn].
  apply negb_true_iff in Hn.
  simpl. rewrite Hn, (Hin f (or_introl eq_refl)). simpl.
  destruct (Py.startswith f "slot"); apply IH; auto with datatypes.
Qed.

Lemma in_keys_dict_set {V} (k k' : string) (v : V) (m : Dict V) :
  In k' (keys (dict_set k v m)) <-> k' = k \/ In k' (keys m).
Proof.
  induction m as [|[a w] m IH]; simpl.
  - intuition congruence.
  - destruct (String.eqb_spec a k) as [->|Hne]; simpl.
    + intuition congruence.
    + rewrite IH. intuition congruence.
Qed.

Lemma dict_set_nodup {V} (k : string) (v : V) (m : Dict V) :
  NoDup (keys m) -> NoDup (keys (dict_set k v m)).
Proof.
  induction m as [|[a w] m IH]; simpl; intros H.
  - constructor; [intros []|constructor].
  - inversion H as [|? ? Hnotin Hnd]; subst.
    destruct (String.eqb_spec a k) as [->|Hne]; simpl.
    + now constructor.
    + constructor; [|now apply IH].
      rewrite in_keys_dict_set. intros [->|Hin]; [now apply Hne|].
      now apply Hnotin.
Qed.

Lemma slots_fold_nodup (names : list string) : forall m,
  NoDup (keys m) -> NoDup (keys (slots_fold m names)).
Proof.
  induction names as [|s names IH]; intros m H; [exact H|].
  simpl. apply IH.
  destruct (Py.startswith s "slot"); [|exact H].
  unfold slot_add. destruct (dict_get (base_name s) m); now apply dict_set_nodup.
Qed.

Lemma dict_get_in_nodup {V} (k : string) (v : V) (m : Dict V) :
  NoDup (keys m) -> In (k, v) m -> dict_get k m = Some v.
Proof.
  induction m as [|[a w] m IH]; simpl; intros Hnd Hin; [tauto|].
  inversion Hnd as [|? ? Hnotin Hnd']; subst.
  destruct Hin as [E|Hin].
  - injection E as -> ->. now rewrite String.eqb_refl.
  - destruct (String.eqb_spec a k) as [->|Hne]; [|now apply IH].
    exfalso. apply Hnotin. unfold keys. apply in_map_iff.
    now exists (k, v).
Qed.

Lemma set_eqb_refl (xs : list string) : set_eqb xs xs = true.
Proof.
  assert (H : forallb (fun x => existsb (String.eqb x) xs) xs = true).
  { apply forallb_forall. intros x Hx. apply existsb_exists.
    exists x. split; [exact Hx|apply String.eqb_refl]. }
  unfold set_eqb. now rewrite H.
Qed.

(** A turn whose feature names are plain tokens has all its own features. *)
Lemma features_in_own_state (d : Turn) :
  Forall (fun f => plain f = true) (keys d) ->
  _features_in_state (keys d) d = true.
Proof.
  intros Hp. unfold _features_in_state.
  rewrite features_loop_plain;
    [|exact Hp|intros f Hf; now apply dict_mem_keys].
  unfold state_slots_of. fold (slots_fold [] (keys d)).
  apply forallb_forall. intros [k v] Hin. simpl.
  unfold slot_get.
  rewrite (dict_get_in_nodup k v); [apply set_eqb_refl| |exact Hin].
  apply slots_fold_nodup. constructor.
Qed.

Lemma well_formed_tokens (state : State) :
  well_formed state -> tokens_only state.
Proof.
  unfold well_formed, tokens_only. apply Forall_impl.
  intros f H. unfold plain in H. now apply andb_prop in H as [H _].
Qed.

Lemma bodies_bar_free (post : list State) :
  Forall tokens_only post ->
  Forall (fun b => bar_free b = true) (map body post).
Proof.
  induction 1 as [|st post Hst _ IH]; simpl; constructor; [|exact IH].
  now apply join_sp_bar_free.
Qed.

Lemma match_own_turn (state : State) :
  state_truthy state = true -> well_formed state ->
  Py.truthy (body state) && state_truthy state
  && match state with
     | Some d => _features_in_state (Py.split (body state)) d
     | None => false
     end = true.
Proof.
  intros Ht Hwf. rewrite Ht.
  pose proof (well_formed_tokens _ Hwf) as Htok.
  destruct state as [d|]; [|discriminate Ht].
  unfold body, well_formed, tokens_only in *. simpl state_keys in *.
  rewrite split_join_sp by exact Htok.
  rewrite features_in_own_state by exact Hwf.
  destruct d as [|[f w] d]; [discriminate Ht|].
  unfold keys in *. simpl map in *.
  rewrite join_sp_truthy; [reflexivity|now inversion Htok].
Qed.

(** C1, amended: when the featureless turns of a history all come before
    its non-empty turns, and the feature names are non-empty, free of
    whitespace and of the separator and do not end in [_None], the key
    built from the history matches it back at every index. *)
Theorem self_match_sound (pre post : list State) (i : nat) (state : State) :
  Forall (fun s => state_truthy s = false) pre ->
  Forall (fun s => state_truthy s = true) post ->
  Forall well_formed post ->
  nth_error (rev (pre ++ post)) i = Some state ->
  _rule_is_good (_create_feature_key (pre ++ post)) i state = true.
Proof.
  intros Hpre Hpost Hwf Hnth.
  assert (Htok : Forall tokens_only post).
  { revert Hwf. apply Forall_impl. exact well_formed_tokens. }
  rewrite create_feature_key_shape by assumption.
  unfold _rule_is_good.
  rewrite split_on_glue by (now apply bodies_bar_free).
  simpl rev. rewrite <- map_rev.
  rewrite rev_app_distr in Hnth.
  destruct (Nat.lt_ge_cases i (List.length post)) as [Hlt|Hge].
  - rewrite nth_error_app1 in Hnth by (now rewrite length_rev).
    rewrite nth_error_app1 by (now rewrite length_map, length_rev).
    rewrite (map_nth_error body _ _ Hnth).
    apply nth_error_In, in_rev in Hnth.
    rewrite Forall_forall in Hpost, Hwf.
    rewrite (match_own_turn state (Hpost _ Hnth) (Hwf _ Hnth)).
    now rewrite !orb_true_r.
  - rewrite nth_error_app2 in Hnth by (now rewrite length_rev).
    rewrite length_rev in Hnth.
    apply nth_error_In, in_rev in Hnth.
    rewrite Forall_forall in Hpre. rewrite (Hpre _ Hnth).
    rewrite length_app, length_map, length_rev. simpl List.length.
    destruct (Nat.eq_dec i (List.length post)) as [->|Hne].
    + rewrite nth_error_app2 by (now rewrite length_map, length_rev).
      rewrite length_map, length_rev, Nat.sub_diag. simpl.
      now rewrite orb_true_r.
    + replace (List.length post + 1 <=? i)%nat with true; [reflexivity|].
      symmetry. apply Nat.leb_le. lia.
Qed.

Lemma self_match_sound_witness :
  _rule_is_good
    (_create_feature_key
       ([Some []]
        ++ [Some [("prev_action_listen", 1%Z); ("intent_greet", 1%Z)];
            Some [("prev_utter_greet", 1%Z); ("slot_name_0", 1%Z)]]))
    1 (Some [("prev_action_listen", 1%Z); ("intent_greet", 1%Z)]) = true.
Proof.
  apply (self_match_sound
           [Some []]
           [Some [("prev_action_listen", 1%Z); ("intent_greet", 1%Z)];
            Some [("prev_utter_greet", 1%Z); ("slot_name_0", 1%Z)]]);
    repeat constructor.
Defined.

(** ** The priority overlays *)

Lemma list_index_lt (name : string) (names : list string) : forall i,
  list_index name names = Some i -> (i < List.length names)%nat.
Proof.
  induction names as [|n names IH]; simpl; intros i H; [discriminate|].
  destruct (n =? name).
  - injection H as <-. lia.
  - destruct (list_index name names) as [j|]; [|discriminate].
    injection H as <-. specialize (IH j eq_refl). lia.
Qed.

Lemma set_nth_zeros (n : nat) : forall i,
  (i < n)%nat -> Py.set_nth (repeat 0%Z n) i 1%Z = Some (one_hot n i).
Proof.
  unfold one_hot.
  induction n as [|n IH]; intros i H; [lia|].
  destruct i as [|i]; simpl.
  - now rewrite Nat.sub_0_r.
  - rewrite IH by lia. reflexivity.
Qed.

Lemma store_zeros (n i : nat) :
  (i < n)%nat -> Py.store (repeat 0%Z n) (Z.of_nat i) 1%Z = Some (one_hot n i).
Proof.
  intros H. unfold Py.store.
  destruct (Z.ltb_spec (Z.of_nat i) 0); [lia|].
  rewrite Nat2Z.id. now apply set_nth_zeros.
Qed.

(** Predicting an action the domain knows by name. *)
Lemma predict_known_action (domain : Domain) (name : string) (i : nat)
    (w : World) :
  list_index name (action_names domain) = Some i ->
  (j <- index_for_action domain name ;;
   set_one (_default_predictions domain) j) w
  = (Ok (one_hot (List.length (action_names domain)) i), w).
Proof.
  intros H. unfold bind, index_for_action, set_one, _default_predictions.
  rewrite H. simpl.
  rewrite store_zeros by (eapply list_index_lt; eassumption).
  reflexivity.
Qed.

Lemma reserved_runs (t : Tracker) (m : Message) (intent action : string) :
  latest_action_name t = Some ACTION_LISTEN_NAME ->
  latest_message t = Some m -> intent_name m = Some intent ->
  In (intent, action) reserved ->
  truthy_name (_should_run_rasa_default_action t) = Some action.
Proof.
  intros Hl Hm Hi Hin. unfold _should_run_rasa_default_action.
  rewrite Hl, Hm, Hi. simpl.
  destruct Hin as [E|[E|[E|[]]]]; injection E as <- <-; reflexivity.
Qed.

(** C6: with the policy enabled, listen-for-input as the latest action and a
    reserved intent in the latest message, the prediction is the one-hot
    vector of the mapped action of a domain that knows it, whatever the rule
    tables and the active form are; nothing else is touched. *)
Theorem default_action_absolute (domain : Domain) (w : World) (m : Message)
    (intent action : string) (i : nat) :
  is_enabled (self w) = true ->
  latest_action_name (tracker w) = Some ACTION_LISTEN_NAME ->
  latest_message (tracker w) = Some m ->
  intent_name m = Some intent ->
  In (intent, action) reserved ->
  list_index action (action_names domain) = Some i ->
  predict_action_probabilities domain w
  = (Ok (one_hot (List.length (action_names domain)) i), w).
Proof.
  intros He Hl Hm Hi Hin Hidx.
  unfold predict_action_probabilities, bind at 1 2, gets. rewrite He. simpl negb.
  cbv iota.
  rewrite (reserved_runs _ _ _ _ Hl Hm Hi Hin).
  now apply predict_known_action.
Qed.

Lemma default_action_absolute_witness :
  predict_action_probabilities demo_domain restart_world
  = (Ok [0; 1; 0; 0; 0; 0; 0]%Z, restart_world).
Proof.
  apply (default_action_absolute demo_domain restart_world
           {| intent_name := Some "restart" |} "restart" "action_restart" 1);
    try reflexivity.
  left. reflexivity.
Defined.

Lemma opt_eqb_false (o : option string) (s : string) :
  o <> Some s -> opt_eqb o s = false.
Proof.
  destruct o as [x|]; simpl; [|reflexivity].
  intros H. apply String.eqb_neq. congruence.
Qed.

Lemma truthy_name_some (s : string) :
  Py.truthy s = true -> truthy_name (Some s) = Some s.
Proof. intros H. simpl. now rewrite H. Qed.

(** C7: with the policy enabled and no default action due, an active form
    that is not rejected is predicted when it did not just run, and
    listen-for-input is predicted when it did; the rule tables are not
    consulted and nothing else is touched. *)
Theorem active_form_precedence (domain : Domain) (w : World) (form : string) :
  is_enabled (self w) = true ->
  truthy_name (_should_run_rasa_default_action (tracker w)) = None ->
  active_loop_name (tracker w) = Some form ->
  Py.truthy form = true ->
  active_loop_rejected (tracker w) = false ->
  (latest_action_name (tracker w) <> Some form ->
   forall i, list_index form (action_names domain) = Some i ->
     predict_action_probabilities domain w
     = (Ok (one_hot (List.length (action_names domain)) i), w))
  /\ (latest_action_name (tracker w) = Some form ->
      forall j, list_index ACTION_LISTEN_NAME (action_names domain) = Some j ->
        predict_action_probabilities domain w
        = (Ok (one_hot (List.length (action_names domain)) j), w)).
Proof.
  intros He Hd Hf Ht Hr.
  split; intros Hl i Hi;
    unfold predict_action_probabilities, bind at 1 2, gets;
    rewrite He; simpl negb; cbv iota;
    rewrite Hd, Hf, (truthy_name_some _ Ht), Hr; simpl negb.
  - rewrite (opt_eqb_false _ _ Hl). simpl.
    now apply predict_known_action.
  - rewrite Hl. simpl. rewrite String.eqb_refl. simpl.
    now apply predict_known_action.
Qed.

Lemma active_form_precedence_witness :
  predict_action_probabilities demo_domain (form_world "action_listen")
  = (Ok [0; 0; 0; 0; 0; 1; 0]%Z, form_world "action_listen")
  /\ predict_action_probabilities demo_domain (form_world "restaurant_form")
     = (Ok [1; 0; 0; 0; 0; 0; 0]%Z, form_world "restaurant_form").
Proof.
  split.
  - exact (proj1 (active_form_precedence demo_domain
                    (form_world "action_listen") "restaurant_form"
                    eq_refl eq_refl eq_refl eq_refl eq_refl)
             ltac:(discriminate) 5%nat eq_refl).
  - exact (proj2 (active_form_precedence demo_domain
                    (form_world "restaurant_form") "restaurant_form"
                    eq_refl eq_refl eq_refl eq_refl eq_refl)
             eq_refl 0%nat eq_refl).
Defined.

(** ** Rule matching *)

Lemma surviving_incl (states : list State) (candidates : list string)
    (k : string) :
  In k (surviving candidates states) -> In k candidates.
Proof.
  unfold surviving.
  generalize (combine (seq 0 (List.length states)) (rev states)) as turns.
  intros turns. revert candidates.
  induction turns as [|ist turns IH]; intros candidates H; [exact H|].
  simpl in H. apply IH in H. now apply filter_In in H as [H _].
Qed.

Lemma max_by_len_spec (ks : list string) : forall best,
  In (max_by_len best ks) (best :: ks)
  /\ forall k, In k (best :: ks) ->
       (String.length k <= String.length (max_by_len best ks))%nat.
Proof.
  induction ks as [|k ks IH]; intros best; simpl.
  - split; [now left|]. intros k [<-|[]]. lia.
  - destruct (Nat.ltb_spec (String.length best) (String.length k)) as [Hlt|Hge];
      [destruct (IH k) as [Hin Hmax]|destruct (IH best) as [Hin Hmax]];
      (split; [simpl in Hin; tauto|]);
      intros k' [<-|[<-|Hk']];
      try (apply Hmax; simpl; tauto);
      specialize (Hmax _ (or_introl eq_refl)); lia.
Qed.

(** X26: the length of the chosen key does not depend on the order in which
    the candidate set is enumerated: two enumerations of the same set give
    chosen keys of the same, greatest, length. *)
Lemma max_by_len_order_free (b b' : string) (ks ks' : list string) :
  (forall k, In k (b :: ks) <-> In k (b' :: ks')) ->
  String.length (max_by_len b ks) = String.length (max_by_len b' ks').
Proof.
  intros Hsame.
  destruct (max_by_len_spec ks b) as [Hin Hmax].
  destruct (max_by_len_spec ks' b') as [Hin' Hmax'].
  apply Nat.le_antisymm.
  - apply Hmax'. now apply Hsame.
  - apply Hmax. now apply Hsame.
Qed.

Lemma dict_get_of_key {V} (k : string) (d : Dict V) :
  In k (keys d) -> exists v, dict_get k d = Some v.
Proof.
  induction d as [|[a v] d IH]; simpl; [tauto|].
  intros H. destruct (String.eqb_spec a k) as [->|Hne]; [now exists v|].
  apply IH. destruct H as [H|H]; [contradiction|exact H].
Qed.

(** What [recall] returns on a non-empty set of surviving keys of a table. *)
Lemma recall_spec (table : Dict Z) (survivors : list string) :
  survivors <> [] ->
  (forall k, In k survivors -> In k (keys table)) ->
  exists key action,
    recall table survivors = (Some key, Some action)
    /\ In key survivors
    /\ dict_get key table = Some action
    /\ forall k, In k survivors ->
         (String.length k <= String.length key)%nat.
Proof.
  intros Hne Hsub. destruct survivors as [|k ks]; [contradiction|].
  destruct (max_by_len_spec ks k) as [Hin Hmax].
  destruct (dict_get_of_key _ table (Hsub _ Hin)) as [action Hget].
  exists (max_by_len k ks), action. simpl. rewrite Hget. auto.
Qed.

(** Rule matching when no form is active: lines 392-400 decide. *)
Lemma predict_from_rules_no_form (domain : Domain) (result : list Z)
    (w : World) (states : list State) :
  nth_error (prediction_states (featurizer (self w)) [tracker w] domain) 0
  = Some states ->
  truthy_name (active_loop_name (tracker w)) = None ->
  predict_from_rules domain result (active_loop_name (tracker w)) w
  = finish result
      (snd (recall (lookup (self w))
              (surviving (keys (lookup (self w))) states))) w.
Proof.
  intros Hst Hnone.
  unfold predict_from_rules, bind, gets, ret. rewrite Hst. simpl.
  destruct (recall _ _) as [key recalled]. now rewrite Hnone.
Qed.

(** C8: when rule matching is reached and two keys of the positive table
    survive the filtering, one strictly longer than the other, the chosen key
    is a survivor of greatest length, it is not the shorter of the two, and
    the recalled action is the one the table maps it to; with no form active
    that action is the prediction. *)
Theorem longest_match_precedence (domain : Domain) (w : World)
    (states : list State) (k1 k2 : string) (result : list Z) :
  nth_error (prediction_states (featurizer (self w)) [tracker w] domain) 0
  = Some states ->
  In k1 (surviving (keys (lookup (self w))) states) ->
  In k2 (surviving (keys (lookup (self w))) states) ->
  (String.length k1 < String.length k2)%nat ->
  exists key action,
    recall (lookup (self w)) (surviving (keys (lookup (self w))) states)
    = (Some key, Some action)
    /\ In key (surviving (keys (lookup (self w))) states)
    /\ dict_get key (lookup (self w)) = Some action
    /\ (forall k, In k (surviving (keys (lookup (self w))) states) ->
          (String.length k <= String.length key)%nat)
    /\ key <> k1
    /\ (truthy_name (active_loop_name (tracker w)) = None ->
        predict_from_rules domain result (active_loop_name (tracker w)) w
        = finish result (Some action) w).
Proof.
  intros Hst H1 H2 Hlt.
  destruct (recall_spec (lookup (self w))
              (surviving (keys (lookup (self w))) states))
    as (key & action & Hrec & Hin & Hget & Hmax).
  - intros E. rewrite E in H1. exact H1.
  - intros k. apply surviving_incl.
  - exists key, action. repeat split; try assumption.
    + intros ->. specialize (Hmax _ H2). lia.
    + intros Hnone.
      rewrite (predict_from_rules_no_form domain result w states Hst Hnone).
      now rewrite Hrec.
Qed.

Lemma longest_match_precedence_witness :
  exists key action,
    recall (lookup (self chitchat_world))
      (surviving (keys (lookup (self chitchat_world))) [Some []; chitchat_turn])
    = (Some key, Some action)
    /\ In key (surviving (keys (lookup (self chitchat_world)))
                 [Some []; chitchat_turn])
    /\ dict_get key (lookup (self chitchat_world)) = Some action
    /\ (forall k,
          In k (surviving (keys (lookup (self chitchat_world)))
                  [Some []; chitchat_turn]) ->
          (String.length k <= String.length key)%nat)
    /\ key <> "|prev_action_listen"
    /\ (truthy_name (active_loop_name (tracker chitchat_world)) = None ->
        predict_from_rules demo_domain (_default_predictions demo_domain)
          (active_loop_name (tracker chitchat_world)) chitchat_world
        = finish (_default_predictions demo_domain) (Some action)
            chitchat_world).
Proof.
  apply (longest_match_precedence demo_domain chitchat_world
           [Some []; chitchat_turn]
           "|prev_action_listen" "|intent_chitchat prev_action_listen").
  - reflexivity.
  - vm_compute. tauto.
  - vm_compute. tauto.
  - vm_compute. lia.
Defined.

(** ** What a prediction touches *)

Lemma pure_ret {A} (a : A) : pure_comp (ret a).
Proof. intros w. reflexivity. Qed.

Lemma pure_raise {A} (e : PyError) : pure_comp (@raise World A e).
Proof. intros w. reflexivity. Qed.

Lemma pure_gets {A} (f : World -> A) : pure_comp (gets f).
Proof. intros w. reflexivity. Qed.

Lemma pure_or_raise {A} (e : PyError) (o : option A) :
  pure_comp (or_raise e o).
Proof. destruct o; [apply pure_ret|apply pure_raise]. Qed.

Lemma pure_bind {A B} (c : M World A) (k : A -> M World B) :
  pure_comp c -> (forall a, pure_comp (k a)) -> pure_comp (bind c k).
Proof.
  intros Hc Hk w. unfold bind. specialize (Hc w).
  destruct (c w) as [[a|e] w']; simpl in *; subst; [apply Hk|reflexivity].
Qed.

Lemma pure_index_for_action (domain : Domain) (name : string) :
  pure_comp (index_for_action domain name).
Proof.
  unfold index_for_action.
  destruct (list_index name (action_names domain));
    [apply pure_ret|apply pure_raise].
Qed.

Lemma pure_set_one (result : list Z) (i : Z) : pure_comp (set_one result i).
Proof. apply pure_or_raise. Qed.

Lemma pure_finish (result : list Z) (recalled : option Z) :
  pure_comp (finish result recalled).
Proof. destruct recalled; [apply pure_set_one|apply pure_ret]. Qed.

Lemma pure_predict_named (domain : Domain) (result : list Z) (name : string) :
  pure_comp (i <- index_for_action domain name ;; set_one result i).
Proof.
  apply pure_bind; [apply pure_index_for_action|intros; apply pure_set_one].
Qed.

Lemma pure_predicted_listen (domain : Domain) (recalled : option Z)
    (key : option string) (form : string) :
  pure_comp (predicted_listen_from_general_rule domain recalled key form).
Proof.
  unfold predicted_listen_from_general_rule.
  destruct recalled, key; try apply pure_ret.
  apply pure_bind; [apply pure_or_raise|intros; apply pure_ret].
Qed.

Lemma pure_frames {A} (c : M World A) : pure_comp c -> frames c.
Proof. intros H w. rewrite H. auto. Qed.

Lemma frames_bind_pure {A B} (c : M World A) (k : A -> M World B) :
  pure_comp c -> (forall a, frames (k a)) -> frames (bind c k).
Proof.
  intros Hc Hk w. unfold bind. specialize (Hc w).
  destruct (c w) as [[a|e] w']; simpl in *; subst; [apply Hk|auto].
Qed.

Lemma frames_signal {B} (k : M World B) :
  pure_comp k -> frames (update_tracker (FormValidation false) ;;; k).
Proof.
  intros Hk w. unfold bind, update_tracker, modify. rewrite Hk. simpl. auto.
Qed.

Lemma frames_predict_from_rules (domain : Domain) (result : list Z)
    (active_form_name : option string) :
  frames (predict_from_rules domain result active_form_name).
Proof.
  unfold predict_from_rules.
  apply frames_bind_pure; [apply pure_gets|intros policy].
  apply frames_bind_pure; [apply pure_gets|intros t].
  apply frames_bind_pure; [apply pure_ret|intros tracker_as_states].
  apply frames_bind_pure; [apply pure_or_raise|intros states].
  destruct (recall _ _) as [key recalled].
  destruct (truthy_name active_form_name) as [form|];
    [|apply pure_frames, pure_finish].
  apply frames_bind_pure; [apply pure_predicted_listen|intros general].
  destruct (general && negb _); [apply pure_frames, pure_predict_named|].
  destruct (marker_in NO_VALIDATION _).
  - apply frames_signal, pure_finish.
  - apply pure_frames, pure_bind; [apply pure_ret|intros; apply pure_finish].
Qed.

(** C10: a prediction call never changes the policy, so the positive and
    the negative table are afterwards what they were before, whether the
    call returns or raises; the tracker is as before or has the one
    skip-validation event appended. *)
Theorem prediction_keeps_tables (domain : Domain) (w : World) :
  lookup (self (snd (predict_action_probabilities domain w)))
  = lookup (self w)
  /\ negative_lookup (self (snd (predict_action_probabilities domain w)))
     = negative_lookup (self w)
  /\ (tracker (snd (predict_action_probabilities domain w)) = tracker w
      \/ tracker (snd (predict_action_probabilities domain w))
         = tracker_update (FormValidation false) (tracker w)).
Proof.
  assert (H : frames (predict_action_probabilities domain)).
  { unfold predict_action_probabilities.
    apply frames_bind_pure; [apply pure_gets|intros policy].
    apply frames_bind_pure; [apply pure_gets|intros t].
    destruct (negb (is_enabled policy)); [apply pure_frames, pure_ret|].
    destruct (truthy_name (_should_run_rasa_default_action t));
      [apply pure_frames, pure_predict_named|].
    destruct (_ && negb _); [apply pure_frames, pure_predict_named|].
    destruct (_ && _); [apply pure_frames, pure_predict_named|].
    apply frames_predict_from_rules. }
  destruct (H w) as [Hs Ht]. rewrite Hs. auto.
Qed.

(** ** Rule matching inside a form *)

(** Rule matching is reached when no default action is due and no form is
    driving. *)
Lemma predict_reaches_rules (domain : Domain) (w : World) (form : string) :
  is_enabled (self w) = true ->
  truthy_name (_should_run_rasa_default_action (tracker w)) = None ->
  active_loop_name (tracker w) = Some form ->
  active_loop_rejected (tracker w) = true ->
  predict_action_probabilities domain w
  = predict_from_rules domain (_default_predictions domain) (Some form) w.
Proof.
  intros He Hd Hf Hr.
  unfold predict_action_probabilities, bind at 1 2, gets.
  rewrite He. simpl negb. cbv iota. rewrite Hd, Hf, Hr. simpl negb.
  destruct (truthy_name (Some form)); reflexivity.
Qed.

(** The two ways out of lines 360-400 for an active form. *)
Lemma predict_from_rules_form (domain : Domain) (result : list Z) (w : World)
    (form : string) (states : list State) (key : option string)
    (recalled : option Z) (general : bool) :
  Py.truthy form = true ->
  nth_error (prediction_states (featurizer (self w)) [tracker w] domain) 0
  = Some states ->
  recall (lookup (self w)) (surviving (keys (lookup (self w))) states)
  = (key, recalled) ->
  predicted_listen_from_general_rule domain recalled key form w
  = (Ok general, w) ->
  let negative_recalled :=
    negative_recalled_of (negative_lookup (self w))
      (surviving (keys (negative_lookup (self w))) states) in
  predict_from_rules domain result (Some form) w
  = if general && negb (marker_in NO_ACTIVE_FORM negative_recalled)
    then (i <- index_for_action domain form ;; set_one result i) w
    else ((if marker_in NO_VALIDATION negative_recalled
           then update_tracker (FormValidation false)
           else ret tt) ;;;
          finish result (if general then None else recalled)) w.
Proof.
  intros Ht Hst Hrec Hgen negative_recalled.
  unfold predict_from_rules, bind at 1 2 3 4, gets, ret.
  rewrite Hst. simpl or_raise. unfold ret. rewrite Hrec.
  rewrite (truthy_name_some _ Ht).
  unfold bind at 1. rewrite Hgen. subst negative_recalled.
  destruct (general && negb _); reflexivity.
Qed.

Lemma marker_in_survivor (marker nkey : string) (table : Dict string)
    (survivors : list string) :
  In nkey survivors -> dict_get nkey table = Some marker ->
  marker_in marker (negative_recalled_of table survivors) = true.
Proof.
  intros Hin Hget. unfold marker_in, negative_recalled_of.
  apply existsb_exists. exists (Some marker). split.
  - rewrite <- Hget.
    exact (in_map (fun key => dict_get key table) _ _ Hin).
  - simpl. apply String.eqb_refl.
Qed.

(** C9: rule matching with an active form, the chosen key recalling
    listen-for-input without naming the form as active, and a surviving
    negative key marked [NO_ACTIVE_FORM]: the result is the all-zero
    vector. *)
Theorem negative_rule_exclusivity (domain : Domain) (w : World)
    (form : string) (states : list State) (key nkey : string) (action : Z) :
  is_enabled (self w) = true ->
  truthy_name (_should_run_rasa_default_action (tracker w)) = None ->
  active_loop_name (tracker w) = Some form ->
  Py.truthy form = true ->
  active_loop_rejected (tracker w) = true ->
  nth_error (prediction_states (featurizer (self w)) [tracker w] domain) 0
  = Some states ->
  recall (lookup (self w)) (surviving (keys (lookup (self w))) states)
  = (Some key, Some action) ->
  Py.index (action_names domain) action = Some ACTION_LISTEN_NAME ->
  Py.contains (ACTIVE_FORM_PREFIX ++ form) key = false ->
  In nkey (surviving (keys (negative_lookup (self w))) states) ->
  dict_get nkey (negative_lookup (self w)) = Some NO_ACTIVE_FORM ->
  fst (predict_action_probabilities domain w)
  = Ok (repeat 0%Z (List.length (action_names domain))).
Proof.
  intros He Hd Hf Ht Hr Hst Hrec Hact Hkey Hin Hget.
  rewrite (predict_reaches_rules domain w form He Hd Hf Hr).
  rewrite (predict_from_rules_form domain _ w form states (Some key)
             (Some action) true Ht Hst Hrec).
  - rewrite (marker_in_survivor NO_ACTIVE_FORM nkey _ _ Hin Hget). simpl.
    unfold bind. destruct (marker_in NO_VALIDATION _); reflexivity.
  - unfold predicted_listen_from_general_rule, bind.
    rewrite Hact. unfold or_raise, ret.
    rewrite Hkey, String.eqb_refl. reflexivity.
Qed.

Lemma negative_rule_exclusivity_witness :
  fst (predict_action_probabilities demo_domain
         (in_form_world [(in_form_key, NO_ACTIVE_FORM)]))
  = Ok [0; 0; 0; 0; 0; 0; 0]%Z.
Proof.
  apply (negative_rule_exclusivity demo_domain
           (in_form_world [(in_form_key, NO_ACTIVE_FORM)])
           "restaurant_form" [Some []; in_form_turn]
           "|prev_utter_chitchat" in_form_key 0%Z);
    try reflexivity.
  vm_compute. tauto.
Defined.

(** C3, counterexample: the general listen rule is overridden to the form,
    the form action is returned at once and the tracker hears nothing. *)
Lemma signal_skipped_on_form_override :
  ~ signal_always_emitted demo_domain
      (in_form_world [(in_form_key, NO_VALIDATION)]).
Proof.
  intros H.
  specialize (H "restaurant_form" [Some []; in_form_turn] in_form_key
                eq_refl eq_refl eq_refl eq_refl).
  assert (Hin : In in_form_key
                  (surviving
                     (keys (negative_lookup
                              (self (in_form_world
                                       [(in_form_key, NO_VALIDATION)]))))
                     [Some []; in_form_turn])).
  { vm_compute. tauto. }
  specialize (H Hin eq_refl).
  vm_compute in H. discriminate H.
Qed.

(** C3, amended: when rule matching is reached with an active form and a
    surviving negative key is marked [NO_VALIDATION], the tracker receives
    the skip-validation event, once, whatever action is recalled and also
    when the recalled action is suppressed, unless the recalled listen
    action is overridden to the form, in which case the world is left as it
    was. *)
Theorem skip_validation_signal (domain : Domain) (w : World) (form : string)
    (states : list State) (key : option string) (recalled : option Z)
    (general : bool) (nkey : string) :
  is_enabled (self w) = true ->
  truthy_name (_should_run_rasa_default_action (tracker w)) = None ->
  active_loop_name (tracker w) = Some form ->
  Py.truthy form = true ->
  active_loop_rejected (tracker w) = true ->
  nth_error (prediction_states (featurizer (self w)) [tracker w] domain) 0
  = Some states ->
  recall (lookup (self w)) (surviving (keys (lookup (self w))) states)
  = (key, recalled) ->
  predicted_listen_from_general_rule domain recalled key form w
  = (Ok general, w) ->
  In nkey (surviving (keys (negative_lookup (self w))) states) ->
  dict_get nkey (negative_lookup (self w)) = Some NO_VALIDATION ->
  let overridden :=
    general
    && negb (marker_in NO_ACTIVE_FORM
               (negative_recalled_of (negative_lookup (self w))
                  (surviving (keys (negative_lookup (self w))) states))) in
  (overridden = false ->
   tracker (snd (predict_action_probabilities domain w))
   = tracker_update (FormValidation false) (tracker w))
  /\ (overridden = true ->
      snd (predict_action_probabilities domain w) = w).
Proof.
  intros He Hd Hf Ht Hr Hst Hrec Hgen Hin Hget overridden.
  rewrite (predict_reaches_rules domain w form He Hd Hf Hr).
  rewrite (predict_from_rules_form domain _ w form states key recalled
             general Ht Hst Hrec Hgen).
  fold overridden.
  rewrite (marker_in_survivor NO_VALIDATION nkey _ _ Hin Hget).
  split; intros ->.
  - unfold bind, update_tracker, modify. rewrite pure_finish. reflexivity.
  - apply pure_predict_named.
Qed.

Lemma skip_validation_signal_witness :
  tracker (snd (predict_action_probabilities demo_domain
                  (in_form_world suppressing_rules)))
  = tracker_update (FormValidation false)
      (tracker (in_form_world suppressing_rules)).
Proof.
  refine (proj1 (skip_validation_signal demo_domain
                   (in_form_world suppressing_rules) "restaurant_form"
                   [Some []; in_form_turn] (Some "|prev_utter_chitchat")
                   (Some 0%Z) true in_form_key
                   eq_refl eq_refl eq_refl eq_refl eq_refl eq_refl eq_refl
                   eq_refl _ eq_refl) eq_refl).
  vm_compute. tauto.
Defined.

(** ** Loading persisted state *)

Lemma surviving_nil (states : list State) : surviving [] states = [].
Proof.
  unfold surviving.
  generalize (combine (seq 0 (List.length states)) (rev states)) as turns.
  induction turns as [|ist turns IH]; simpl; [reflexivity|exact IH].
Qed.

(** Rule matching over empty tables recalls nothing and signals nothing. *)
Lemma predict_from_rules_empty (domain : Domain) (result : list Z)
    (form : option string) (w : World) (states : list State) :
  lookup (self w) = [] -> negative_lookup (self w) = [] ->
  nth_error (prediction_states (featurizer (self w)) [tracker w] domain) 0
  = Some states ->
  predict_from_rules domain result form w = (Ok result, w).
Proof.
  intros Hl Hn Hst.
  unfold predict_from_rules, bind at 1 2 3 4, gets, ret.
  rewrite Hst, Hl, Hn. unfold or_raise, ret. cbv beta iota.
  unfold keys. simpl map. rewrite !surviving_nil. simpl.
  destruct (truthy_name form); reflexivity.
Qed.

(** C4, counterexample: a file that is present but holds no JSON makes
    [json.loads] raise, and [load] does not catch it. *)
Lemma load_raises_on_malformed_blob :
  ~ load_degrades no_featurizer
      {| stored_featurizer := None; memorized_file := Some NotJson |}.
Proof.
  intros H. destruct H as (p & Hp & _).
  - right. exists NotJson. split; [reflexivity|exact I].
  - discriminate Hp.
Qed.

(** C4, amended: loading from a path where the blob is absent does not
    raise and yields an enabled policy with an empty positive and an empty
    negative table, so that rule matching predicts nothing and prediction
    rests on the two priority overlays alone.  A blob that is present but
    malformed, that is no JSON, no JSON object, or an object lacking one of
    the entries [load] reads, makes [load] raise, whatever else the
    directory holds. *)
Theorem load_absent_or_malformed (standard : Featurizer) (path : Directory) :
  (memorized_file path = None ->
   exists p,
     load standard path = Ok p
     /\ lookup p = [] /\ negative_lookup p = [] /\ is_enabled p = true
     /\ forall domain t result form states,
          nth_error (prediction_states (featurizer p) [t] domain) 0
          = Some states ->
          predict_from_rules domain result form {| self := p; tracker := t |}
          = (Ok result, {| self := p; tracker := t |}))
  /\ (forall c,
        memorized_file path = Some c ->
        malformed c ->
        load standard path = Raise (load_error c)).
Proof.
  split.
  - intros H. unfold load. rewrite H.
    eexists. split; [reflexivity|]. repeat split.
    intros domain t result form states Hst.
    now apply (predict_from_rules_empty domain result form _ states).
  - intros c H Hm. unfold load. rewrite H.
    destruct c as [| |o]; [reflexivity|reflexivity|].
    unfold malformed in Hm. unfold load_error.
    destruct (j_priority o); [|reflexivity].
    destruct (j_lookup o); [|reflexivity].
    destruct (j_negative_lookup o); [|reflexivity].
    destruct Hm as [Hm|[Hm|Hm]]; discriminate Hm.
Qed.

Lemma load_absent_or_malformed_witness :
  (exists p,
     load chitchat_featurizer
       {| stored_featurizer := None; memorized_file := None |} = Ok p
     /\ lookup p = [] /\ negative_lookup p = [] /\ is_enabled p = true
     /\ forall domain t result form states,
          nth_error (prediction_states (featurizer p) [t] domain) 0
          = Some states ->
          predict_from_rules domain result form {| self := p; tracker := t |}
          = (Ok result, {| self := p; tracker := t |}))
  /\ load chitchat_featurizer
       {| stored_featurizer := Some chitchat_featurizer;
          memorized_file :=
            Some (JsonObj {| j_priority := Some 5%Z;
                             j_lookup := Some (Some [("|intent_greet", 1%Z)]);
                             j_negative_lookup := None |}) |}
     = Raise KeyError.
Proof.
  split.
  - apply (proj1 (load_absent_or_malformed chitchat_featurizer
                    {| stored_featurizer := None; memorized_file := None |})).
    reflexivity.
  - apply (proj2 (load_absent_or_malformed chitchat_featurizer
                    {| stored_featurizer := Some chitchat_featurizer;
                       memorized_file :=
                         Some (JsonObj
                                 {| j_priority := Some 5%Z;
                                    j_lookup :=
                                      Some (Some [("|intent_greet", 1%Z)]);
                                    j_negative_lookup := None |}) |})
                 (JsonObj {| j_priority := Some 5%Z;
                             j_lookup := Some (Some [("|intent_greet", 1%Z)]);
                             j_negative_lookup := None |})).
    + reflexivity.
    + right. right. reflexivity.
Defined.

(** ** Training on a window that starts with an absent turn *)

(** C5: [_modified_states] tests [states[0] is None] and then asks the
    [None] it has just stored for its keys.  Training on a story whose
    two-turn window starts with an absent turn raises [AttributeError] and
    leaves the negative table empty; with an empty first turn in its place
    the same story trains and yields its no-validation rule. *)
Theorem train_raises_on_absent_first_turn :
  train [story_tracker] demo_domain (untrained None)
  = (Raise AttributeError, untrained None)
  /\ fst (train [story_tracker] demo_domain (untrained (Some []))) = Ok tt
  /\ negative_lookup
       (snd (train [story_tracker] demo_domain (untrained (Some []))))
     = [("active_form_restaurant_form prev_action_listen", NO_VALIDATION)].
Proof.
  repeat split; vm_compute; reflexivity.
Qed.

(** The must-be-absent markers are the other way for a key to miss its own
    history: a turn that carries [active_form_None] does not have the
    features of its own segment. *)
Lemma absent_marker_rejects_own_turn :
  let turn := Some [("active_form_None", 1%Z); ("prev_action_listen", 1%Z)] in
  _rule_is_good (_create_feature_key [turn]) 0 turn = false.
Proof. reflexivity. Qed.

(** * Further properties of the code *)

(** ** The key builder, continued *)

Lemma rstrip_bar (x : string) : starts_bar (Py.rstrip (String "|" x)).
Proof.
  unfold starts_bar. simpl. destruct (Py.rstrip x); eexists; reflexivity.
Qed.

Lemma feature_key_step_starts_bar (acc : string) (state : State) :
  key_acc acc -> state_truthy state = true ->
  starts_bar (feature_key_step acc state).
Proof.
  intros Hacc Ht. unfold feature_key_step. rewrite Ht, fold_features.
  unfold Py.strip.
  assert (E : exists x,
             (acc ++ "|") ++
             fold_right (fun f r => f ++ " " ++ r) "" (state_keys state)
             = String "|" x).
  { destruct Hacc as [->|[r ->]]; eexists; simpl; reflexivity. }
  destruct E as [x ->]. rewrite lstrip_bar. apply rstrip_bar.
Qed.

Lemma feature_key_step_keeps_bar (acc : string) (state : State) :
  starts_bar acc -> starts_bar (feature_key_step acc state).
Proof.
  intros H. destruct (state_truthy state) eqn:E.
  - apply feature_key_step_starts_bar; [right; exact H|exact E].
  - now rewrite feature_key_step_falsy.
Qed.

Lemma fold_key_keeps_bar (states : list State) : forall acc,
  starts_bar acc -> starts_bar (fold_left feature_key_step states acc).
Proof.
  induction states as [|st states IH]; intros acc H; [exact H|].
  simpl. now apply IH, feature_key_step_keeps_bar.
Qed.

Lemma fold_key_some_truthy (states : list State) : forall acc,
  key_acc acc -> existsb state_truthy states = true ->
  starts_bar (fold_left feature_key_step states acc).
Proof.
  induction states as [|st states IH]; intros acc Hacc H; [discriminate H|].
  simpl in *. destruct (state_truthy st) eqn:E.
  - now apply fold_key_keeps_bar, feature_key_step_starts_bar.
  - rewrite feature_key_step_falsy by exact E. now apply IH.
Qed.

Lemma fold_key_none_truthy (states : list State) : forall acc,
  existsb state_truthy states = false ->
  fold_left feature_key_step states acc = acc.
Proof.
  induction states as [|st states IH]; intros acc H; [reflexivity|].
  simpl in *. apply orb_false_elim in H as [E H].
  rewrite feature_key_step_falsy by exact E. now apply IH.
Qed.

(** X1: whatever the feature names are, a built key is empty when no turn
    has features and begins with the separator as soon as one has. *)
Theorem feature_key_empty_or_separated (states : list State) :
  _create_feature_key states
  = if existsb state_truthy states
    then String "|" (Py.drop 1 (_create_feature_key states))
    else "".
Proof.
  unfold _create_feature_key.
  destruct (existsb state_truthy states) eqn:E.
  - destruct (fold_key_some_truthy states "" (or_introl eq_refl) E) as [r ->].
    reflexivity.
  - now apply fold_key_none_truthy.
Qed.

(** X2: for feature names that are tokens, the key decodes to the history
    it encodes: its segments are an empty one followed by one segment per
    non-empty turn, and splitting those on whitespace gives back the feature
    names of the non-empty turns in order. *)
Theorem feature_key_round_trip (states : list State) :
  Forall tokens_only states ->
  segments (_create_feature_key states)
  = "" :: map body (filter state_truthy states)
  /\ map Py.split (tl (segments (_create_feature_key states)))
     = map state_keys (filter state_truthy states).
Proof.
  intros Htok.
  assert (Hf : Forall tokens_only (filter state_truthy states)).
  { apply Forall_forall. intros st Hin. apply filter_In in Hin as [Hin _].
    rewrite Forall_forall in Htok. now apply Htok. }
  assert (Ht : Forall (fun s => state_truthy s = true)
                 (filter state_truthy states)).
  { apply Forall_forall. intros st Hin. now apply filter_In in Hin as [_ Hin]. }
  assert (Hseg : segments (_create_feature_key states)
                 = "" :: map body (filter state_truthy states)).
  { unfold _create_feature_key. rewrite fold_key_filter.
    change (fold_left feature_key_step (filter state_truthy states) "")
      with (_create_feature_key ([] ++ filter state_truthy states)).
    rewrite (create_feature_key_shape [] _ (Forall_nil _) Ht Hf).
    apply split_on_glue. now apply bodies_bar_free. }
  split; [exact Hseg|].
  rewrite Hseg. simpl tl. rewrite map_map.
  apply map_ext_in. intros st Hin.
  rewrite Forall_forall in Hf. apply split_join_sp. now apply Hf.
Qed.

Lemma feature_key_round_trip_witness :
  segments (_create_feature_key greet_turns)
  = "" :: map body (filter state_truthy greet_turns)
  /\ map Py.split (tl (segments (_create_feature_key greet_turns)))
     = map state_keys (filter state_truthy greet_turns).
Proof.
  apply (feature_key_round_trip greet_turns). repeat constructor.
Defined.

(** ** Feature matching *)

Lemma dict_mem_in_keys {V} (f : string) (d : Dict V) :
  dict_mem f d = true -> In f (keys d).
Proof.
  unfold dict_mem. induction d as [|[k v] d IH]; simpl; [discriminate|].
  destruct (String.eqb_spec k f) as [->|Hne]; [now left|].
  intros H. right. now apply IH.
Qed.

Lemma dict_get_in {V} (k : string) (v : V) (m : Dict V) :
  dict_get k m = Some v -> In (k, v) m.
Proof.
  induction m as [|[a w] m IH]; simpl; [discriminate|].
  destruct (String.eqb_spec a k) as [->|Hne].
  - intros [= ->]. now left.
  - intros H. right. now apply IH.
Qed.

Lemma dict_get_set {V} (k k' : string) (v : V) (m : Dict V) :
  dict_get k' (dict_set k v m)
  = if (k =? k') then Some v else dict_get k' m.
Proof.
  induction m as [|[a w] m IH]; simpl.
  - reflexivity.
  - destruct (String.eqb_spec a k) as [->|Hak]; simpl.
    + destruct (k =? k'); reflexivity.
    + rewrite IH.
      destruct (String.eqb_spec a k') as [->|Hak'];
        destruct (String.eqb_spec k k') as [->|Hkk']; congruence.
Qed.

Lemma in_set_add (x y : string) (xs : list string) :
  In y (set_add x xs) <-> In y xs \/ y = x.
Proof.
  unfold set_add. destruct (existsb (String.eqb x) xs) eqn:E.
  - split; [auto|]. intros [H| ->]; [exact H|].
    apply existsb_exists in E as (z & Hz & Ez).
    apply String.eqb_eq in Ez. now subst.
  - rewrite in_app_iff. simpl. intuition.
Qed.

Lemma in_slot_get_add (k k' x y : string) (m : SlotMap) :
  In y (slot_get k' (slot_add k x m))
  <-> In y (slot_get k' m) \/ (k' = k /\ y = x).
Proof.
  unfold slot_get, slot_add.
  destruct (dict_get k m) as [xs|] eqn:E; rewrite dict_get_set;
    destruct (String.eqb_spec k k') as [<-|Hne].
  - rewrite E, in_set_add. intuition.
  - intuition congruence.
  - rewrite E. simpl. intuition.
  - intuition congruence.
Qed.

Lemma in_slot_get_fold (names : list string) : forall (m : SlotMap) k y,
  In y (slot_get k (slots_fold m names))
  <-> In y (slot_get k m)
      \/ (In y names /\ Py.startswith y "slot" = true /\ base_name y = k).
Proof.
  induction names as [|s names IH]; intros m k y.
  - change (slots_fold m []) with m. simpl. intuition.
  - change (slots_fold m (s :: names))
      with (slots_fold
              (if Py.startswith s "slot" then slot_add (base_name s) s m else m)
              names).
    rewrite IH. simpl In. destruct (Py.startswith s "slot") eqn:Es.
    + rewrite in_slot_get_add. intuition (subst; auto).
    + intuition (subst; auto; congruence).
Qed.

(** What a successful pass over the features has checked and collected. *)
Lemma features_loop_some (fs : list string) (d : Turn) : forall m m',
  features_loop fs d m = Some m' ->
  (forall f, In f fs ->
     if Py.endswith f "_None"
     then existsb (fun key => Py.contains (base_name f) key) (keys d) = false
     else dict_mem f d = true)
  /\ m' = slots_fold m (filter slot_feature fs).
Proof.
  induction fs as [|f fs IH]; intros m m' H.
  - simpl in H. injection H as <-. split; [intros f []|reflexivity].
  - simpl in H. simpl filter.
    destruct (Py.endswith f "_None") eqn:En.
    + assert (Hsf : slot_feature f = false).
      { unfold slot_feature. rewrite En. apply andb_false_r. }
      rewrite Hsf.
      destruct (existsb _ (keys d)) eqn:Ex; [discriminate|].
      apply IH in H as [Hall ->]. split; [|reflexivity].
      intros g [<-|Hg]; [now rewrite En|now apply Hall].
    + assert (Hsf : slot_feature f = Py.startswith f "slot").
      { unfold slot_feature. rewrite En. apply andb_true_r. }
      rewrite Hsf.
      destruct (dict_mem f d) eqn:Em; [|discriminate]. simpl in H.
      destruct (Py.startswith f "slot") eqn:Es;
        apply IH in H as [Hall ->].
      * split; [|unfold slots_fold; simpl; now rewrite Es].
        intros g [<-|Hg]; [now rewrite En|now apply Hall].
      * split; [|reflexivity].
        intros g [<-|Hg]; [now rewrite En|now apply Hall].
Qed.

(** X3: a segment that matches a turn lists only features the turn has, and
    for each of its must-be-absent markers no feature name of the turn
    contains the marker's base name. *)
Theorem features_in_state_sound (features : list string) (state : Turn)
    (f : string) :
  _features_in_state features state = true ->
  In f features ->
  (Py.endswith f "_None" = false -> In f (keys state))
  /\ (Py.endswith f "_None" = true ->
      forall key, In key (keys state) ->
        Py.contains (base_name f) key = false).
Proof.
  unfold _features_in_state. intros H Hin.
  destruct (features_loop features state []) as [f_slots|] eqn:E;
    [|discriminate].
  apply features_loop_some in E as [Hall _]. specialize (Hall f Hin).
  split; intros En; rewrite En in Hall.
  - now apply dict_mem_in_keys.
  - intros key Hkey.
    destruct (Py.contains (base_name f) key) eqn:Ec; [|reflexivity].
    assert (Hex : existsb (fun key => Py.contains (base_name f) key)
                    (keys state) = true).
    { apply existsb_exists. now exists key. }
    congruence.
Qed.

Lemma features_in_state_sound_witness :
  (Py.endswith "slot_cuisine_0" "_None" = false ->
   In "slot_cuisine_0" (keys two_slot_turn))
  /\ (Py.endswith "slot_cuisine_0" "_None" = true ->
      forall key, In key (keys two_slot_turn) ->
        Py.contains (base_name "slot_cuisine_0") key = false).
Proof.
  apply (features_in_state_sound
           ["slot_cuisine_0"; "slot_cuisine_1"; "slot_people_None"]
           two_slot_turn "slot_cuisine_0").
  - reflexivity.
  - left. reflexivity.
Defined.

(** X4: slots match exactly.  When a segment matches a turn and lists a
    slot feature, every slot feature of the turn with the same slot name is
    listed in the segment as well. *)
Theorem features_in_state_slots_exact (features : list string) (state : Turn)
    (f s : string) :
  _features_in_state features state = true ->
  In f features -> slot_feature f = true ->
  In s (keys state) -> Py.startswith s "slot" = true ->
  base_name s = base_name f ->
  In s features.
Proof.
  unfold _features_in_state. intros H Hf Hsf Hs Hss Hbase.
  destruct (features_loop features state []) as [f_slots|] eqn:E;
    [|discriminate].
  apply features_loop_some in E as [_ ->].
  set (F := slots_fold [] (filter slot_feature features)) in *.
  assert (HfF : In f (slot_get (base_name f) F)).
  { apply in_slot_get_fold. right. repeat split.
    - now apply filter_In.
    - unfold slot_feature in Hsf. now apply andb_prop in Hsf as [Hsf _]. }
  unfold slot_get in HfF.
  destruct (dict_get (base_name f) F) as [v|] eqn:Ev; [|destruct HfF].
  rewrite forallb_forall in H.
  specialize (H _ (dict_get_in _ _ _ Ev)). simpl in H.
  unfold set_eqb in H. apply andb_prop in H as [H _].
  rewrite forallb_forall in H.
  assert (HsS : In s (slot_get (base_name f) (state_slots_of (keys state)))).
  { unfold state_slots_of. fold (slots_fold [] (keys state)).
    apply in_slot_get_fold. right. auto. }
  specialize (H s HsS). apply existsb_exists in H as (y & Hy & Ey).
  apply String.eqb_eq in Ey. subst y.
  assert (HsF : In s (slot_get (base_name f) F)).
  { unfold slot_get. now rewrite Ev. }
  apply in_slot_get_fold in HsF as [[]|(HsF & _)].
  now apply filter_In in HsF as [HsF _].
Qed.

Lemma features_in_state_slots_exact_witness :
  In "slot_cuisine_1" ["slot_cuisine_0"; "slot_cuisine_1"].
Proof.
  apply (features_in_state_slots_exact
           ["slot_cuisine_0"; "slot_cuisine_1"] two_slot_turn
           "slot_cuisine_0" "slot_cuisine_1");
    try reflexivity; simpl; tauto.
Defined.

(** ** The filtering loop *)

Lemma in_fold_filter {A B} (p : A -> B -> bool) (xs : list A) :
  forall (ks : list B) (k : B),
  In k (fold_left (fun ks x => filter (p x) ks) xs ks)
  <-> In k ks /\ forall x, In x xs -> p x k = true.
Proof.
  induction xs as [|x xs IH]; intros ks k; simpl.
  - intuition.
  - rewrite IH, filter_In. split.
    + intros [[Hk Hx] Hall]. split; [exact Hk|].
      intros y [<-|Hy]; auto.
    + intros [Hk Hall]. auto.
Qed.

Lemma in_combine_seq {A} (l : list A) : forall (a i : nat) (x : A),
  In (i, x) (combine (seq a (List.length l)) l)
  <-> (a <= i)%nat /\ nth_error l (i - a) = Some x.
Proof.
  induction l as [|y l IH]; intros a i x; simpl.
  - split; [intros []|]. intros [_ H]. destruct (i - a)%nat; discriminate H.
  - rewrite IH. split.
    + intros [E|[Hle Hn]].
      * injection E as <- <-. rewrite Nat.sub_diag. split; [lia|reflexivity].
      * split; [lia|]. replace (i - a)%nat with (S (i - S a)) by lia.
        exact Hn.
    + intros [Hle Hn]. destruct (Nat.eq_dec a i) as [<-|Hne].
      * left. rewrite Nat.sub_diag in Hn. simpl in Hn. congruence.
      * right. split; [lia|].
        replace (i - a)%nat with (S (i - S a)) in Hn by lia. exact Hn.
Qed.

(** The survivors of the loop are the candidates that are good at every
    turn of the history, counted from the most recent one. *)
Lemma in_surviving (candidates : list string) (states : list State)
    (k : string) :
  In k (surviving candidates states)
  <-> In k candidates
      /\ forall i state,
           nth_error (rev states) i = Some state ->
           _rule_is_good k i state = true.
Proof.
  unfold surviving.
  rewrite (in_fold_filter
             (fun (ist : nat * State) _key =>
                _rule_is_good _key (fst ist) (snd ist))).
  rewrite <- (length_rev states).
  split; intros [Hk Hall]; (split; [exact Hk|]).
  - intros i state Hn. apply (Hall (i, state)).
    apply in_combine_seq. rewrite Nat.sub_0_r. split; [lia|exact Hn].
  - intros [i state] Hin. apply in_combine_seq in Hin as [_ Hn].
    rewrite Nat.sub_0_r in Hn. now apply Hall.
Qed.

(** X5: a candidate key survives the filtering loop exactly when it
    satisfies the rule-match predicate at every turn of the history, index 0
    being the most recent turn; in particular every key survives an empty
    history. *)
Theorem surviving_characterised (candidates : list string)
    (states : list State) (k : string) :
  (In k (surviving candidates states)
   <-> In k candidates
       /\ forall i state,
            nth_error (rev states) i = Some state ->
            _rule_is_good k i state = true)
  /\ surviving candidates [] = candidates.
Proof.
  split; [apply in_surviving|reflexivity].
Qed.

Lemma rule_is_good_exhausted (k : string) (i : nat) (state : State) :
  (List.length (segments k) <= i)%nat -> _rule_is_good k i state = true.
Proof.
  intros H. unfold _rule_is_good. unfold segments in H.
  rewrite length_rev.
  replace (List.length (Py.split_on "|" k) <=? i)%nat with true;
    [reflexivity|].
  symmetry. now apply Nat.leb_le.
Qed.

(** X6: turns older than a key is long do not matter.  A key with no more
    segments than the recent history has turns survives the whole history
    exactly when it survives the recent part. *)
Theorem older_history_irrelevant (candidates : list string)
    (older recent : list State) (k : string) :
  (List.length (segments k) <= List.length recent)%nat ->
  (In k (surviving candidates (older ++ recent))
   <-> In k (surviving candidates recent)).
Proof.
  intros Hlen. rewrite !in_surviving, rev_app_distr.
  split; intros [Hk Hall]; (split; [exact Hk|]); intros i state Hn.
  - apply Hall. rewrite nth_error_app1; [exact Hn|].
    apply nth_error_Some. congruence.
  - destruct (Nat.lt_ge_cases i (List.length recent)) as [Hlt|Hge].
    + rewrite nth_error_app1 in Hn by (now rewrite length_rev).
      now apply Hall.
    + apply rule_is_good_exhausted. lia.
Qed.

Lemma older_history_irrelevant_witness :
  In "|prev_action_listen"
    (surviving ["|prev_action_listen"]
       ([Some [("prev_utter_greet", 1%Z)]]
        ++ [Some []; Some [("prev_action_listen", 1%Z)]]))
  <-> In "|prev_action_listen"
        (surviving ["|prev_action_listen"]
           [Some []; Some [("prev_action_listen", 1%Z)]]).
Proof.
  apply (older_history_irrelevant ["|prev_action_listen"]
           [Some [("prev_utter_greet", 1%Z)]]
           [Some []; Some [("prev_action_listen", 1%Z)]]
           "|prev_action_listen").
  vm_compute. lia.
Defined.

(** ** Prediction as a whole *)

Lemma opt_eqb_true (o : option string) (s : string) :
  opt_eqb o s = true -> o = Some s.
Proof.
  destruct o as [x|]; simpl; [|discriminate].
  intros H. apply String.eqb_eq in H. now subst.
Qed.

(** X7: the default overlay fires exactly when the latest action is
    listen-for-input and the latest message carries one of the three
    reserved intents, and then names the action mapped to that intent; it
    can name no other action. *)
Theorem default_action_characterised (t : Tracker) (a : string) :
  _should_run_rasa_default_action t = Some a
  <-> latest_action_name t = Some ACTION_LISTEN_NAME
      /\ exists m intent,
           latest_message t = Some m
           /\ intent_name m = Some intent
           /\ In (intent, a) reserved.
Proof.
  unfold _should_run_rasa_default_action. split.
  - destruct (opt_eqb (latest_action_name t) ACTION_LISTEN_NAME) eqn:El;
      simpl negb; cbv iota; [|discriminate].
    apply opt_eqb_true in El.
    destruct (latest_message t) as [m|]; [|discriminate].
    destruct (intent_name m) as [intent|] eqn:Ei; [|discriminate].
    intros H. split; [exact El|]. exists m, intent. repeat split; auto.
    now apply dict_get_in in H.
  - intros (El & m & intent & Hm & Hi & Hin).
    rewrite El, Hm, Hi. simpl.
    destruct Hin as [E|[E|[E|[]]]]; injection E as <- <-; reflexivity.
Qed.

Lemma set_nth_zeros_inv (n : nat) : forall j r,
  Py.set_nth (repeat 0%Z n) j 1%Z = Some r ->
  (j < n)%nat /\ r = one_hot n j.
Proof.
  unfold one_hot.
  induction n as [|n IH]; intros j r H; simpl in H; [discriminate|].
  destruct j as [|j].
  - injection H as <-. split; [lia|]. simpl. now rewrite Nat.sub_0_r.
  - destruct (Py.set_nth (repeat 0%Z n) j 1%Z) as [r'|] eqn:E;
      [|discriminate].
    injection H as <-. destruct (IH _ _ E) as [Hlt ->].
    split; [lia|reflexivity].
Qed.

Lemma store_zeros_inv (n : nat) (i : Z) (r : list Z) :
  Py.store (repeat 0%Z n) i 1%Z = Some r ->
  exists j, (j < n)%nat /\ r = one_hot n j.
Proof.
  unfold Py.store. intros H.
  destruct (i <? 0)%Z; [destruct (_ <? 0)%Z; [discriminate|]|];
    eexists; eapply set_nth_zeros_inv; exact H.
Qed.

Lemma shaped_ret (domain : Domain) :
  shaped domain (ret (_default_predictions domain)).
Proof. intros w r [= <-]. now left. Qed.

Lemma shaped_set_one (domain : Domain) (i : Z) :
  shaped domain (set_one (_default_predictions domain) i).
Proof.
  intros w r. unfold set_one, _default_predictions.
  destruct (Py.store _ i 1%Z) as [r'|] eqn:E; simpl; [|discriminate].
  intros [= <-]. right. now apply store_zeros_inv in E.
Qed.

Lemma shaped_finish (domain : Domain) (recalled : option Z) :
  shaped domain (finish (_default_predictions domain) recalled).
Proof.
  destruct recalled; [apply shaped_set_one|apply shaped_ret].
Qed.

Lemma shaped_bind {A} (domain : Domain) (c : M World A)
    (k : A -> M World (list Z)) :
  (forall a, shaped domain (k a)) -> shaped domain (bind c k).
Proof.
  intros Hk w r. unfold bind.
  destruct (c w) as [[a|e] w']; [apply Hk|discriminate].
Qed.

Lemma shaped_predict_named (domain : Domain) (name : string) :
  shaped domain
    (i <- index_for_action domain name ;;
     set_one (_default_predictions domain) i).
Proof. apply shaped_bind. intros i. apply shaped_set_one. Qed.

Lemma shaped_predict_from_rules (domain : Domain)
    (active_form_name : option string) :
  shaped domain
    (predict_from_rules domain (_default_predictions domain)
       active_form_name).
Proof.
  unfold predict_from_rules.
  do 4 (apply shaped_bind; intros ?).
  destruct (recall _ _) as [key recalled].
  destruct (truthy_name active_form_name) as [form|];
    [|apply shaped_finish].
  apply shaped_bind. intros general.
  destruct (general && negb _); [apply shaped_predict_named|].
  apply shaped_bind. intros _. apply shaped_finish.
Qed.

(** X8: whenever a prediction call returns, the vector it returns has one
    entry per action of the domain and is all zero or has a single one. *)
Theorem prediction_is_zero_or_one_hot (domain : Domain) (w : World)
    (r : list Z) :
  fst (predict_action_probabilities domain w) = Ok r ->
  List.length r = List.length (action_names domain)
  /\ well_shaped domain r.
Proof.
  intros H.
  assert (Hs : well_shaped domain r).
  { revert w r H. unfold predict_action_probabilities.
    do 2 (apply shaped_bind; intros ?).
    destruct (negb _); [apply shaped_ret|].
    destruct (truthy_name _); [apply shaped_predict_named|].
    destruct (_ && negb _); [apply shaped_predict_named|].
    destruct (_ && _); [apply shaped_predict_named|].
    apply shaped_predict_from_rules. }
  split; [|exact Hs].
  destruct Hs as [->|(j & Hj & ->)].
  - apply repeat_length.
  - unfold one_hot. rewrite length_app. simpl. rewrite !repeat_length. lia.
Qed.

Lemma prediction_is_zero_or_one_hot_witness :
  List.length [0; 1; 0; 0; 0; 0; 0]%Z
  = List.length (action_names demo_domain)
  /\ well_shaped demo_domain [0; 1; 0; 0; 0; 0; 0]%Z.
Proof.
  apply (prediction_is_zero_or_one_hot demo_domain restart_world).
  reflexivity.
Defined.

Lemma index_valid (domain : Domain) (v : Z) :
  valid_index domain v ->
  exists name, Py.index (action_names domain) v = Some name.
Proof.
  unfold valid_index, Py.index. intros [Hlo Hhi].
  destruct (Z.ltb_spec v 0).
  - destruct (Z.ltb_spec (v + Z.of_nat (List.length (action_names domain))) 0);
      [lia|].
    destruct (nth_error (action_names domain) _) as [name|] eqn:E;
      [now exists name|].
    apply nth_error_None in E. lia.
  - destruct (nth_error (action_names domain) _) as [name|] eqn:E;
      [now exists name|].
    apply nth_error_None in E. lia.
Qed.

Lemma set_nth_in_range {A} (xs : list A) (v : A) : forall j,
  (j < List.length xs)%nat -> exists r, Py.set_nth xs j v = Some r.
Proof.
  induction xs as [|x xs IH]; intros j H; simpl in *; [lia|].
  destruct j as [|j]; [eexists; reflexivity|].
  destruct (IH j) as [r ->]; [lia|]. eexists. reflexivity.
Qed.

Lemma finish_valid (domain : Domain) (recalled : option Z) (w : World) :
  (forall v, recalled = Some v -> valid_index domain v) ->
  exists r, finish (_default_predictions domain) recalled w = (Ok r, w).
Proof.
  intros H. destruct recalled as [v|]; [|eexists; reflexivity].
  specialize (H v eq_refl). unfold valid_index in H.
  unfold finish, set_one, _default_predictions, Py.store.
  rewrite repeat_length.
  destruct (Z.ltb_spec v 0).
  - destruct (Z.ltb_spec (v + Z.of_nat (List.length (action_names domain))) 0);
      [lia|].
    destruct (set_nth_in_range
                (repeat 0%Z (List.length (action_names domain))) 1%Z
                (Z.to_nat (v + Z.of_nat (List.length (action_names domain)))))
      as [r ->]; [rewrite repeat_length; lia|].
    eexists. reflexivity.
  - destruct (set_nth_in_range
                (repeat 0%Z (List.length (action_names domain))) 1%Z
                (Z.to_nat v)) as [r ->]; [rewrite repeat_length; lia|].
    eexists. reflexivity.
Qed.

Lemma truthy_name_inv (o : option string) (s : string) :
  truthy_name o = Some s -> o = Some s /\ Py.truthy s = true.
Proof.
  destruct o as [x|]; simpl; [|discriminate].
  destruct (Py.truthy x) eqn:E; [|discriminate].
  intros [= <-]. auto.
Qed.

Lemma predict_known (domain : Domain) (name : string) (w : World) :
  known domain name ->
  exists r,
    (i <- index_for_action domain name ;;
     set_one (_default_predictions domain) i) w = (Ok r, w).
Proof.
  intros [i Hi]. eexists. apply predict_known_action. exact Hi.
Qed.

Lemma dict_get_in_default (t : Tracker) (a : string) :
  _should_run_rasa_default_action t = Some a ->
  a = ACTION_RESTART_NAME \/ a = ACTION_BACK_NAME
  \/ a = ACTION_SESSION_START_NAME.
Proof.
  unfold _should_run_rasa_default_action.
  destruct (negb _); [discriminate|].
  destruct (latest_message t) as [m|]; [|discriminate].
  destruct (intent_name m) as [intent|]; [|discriminate].
  intros H. apply dict_get_in in H.
  destruct H as [E|[E|[E|[]]]]; injection E as _ <-; auto.
Qed.

(** Rule matching does not raise in a consistent world. *)
Lemma predict_from_rules_safe (domain : Domain) (w : World)
    (form : option string) :
  consistent domain w ->
  (forall f, truthy_name form = Some f -> known domain f) ->
  exists r,
    fst (predict_from_rules domain (_default_predictions domain) form w)
    = Ok r.
Proof.
  intros ([states Hst] & Hval & _ & _) Hform.
  destruct (recall (lookup (self w))
              (surviving (keys (lookup (self w))) states))
    as [key recalled] eqn:Hrec.
  assert (Hrv : forall v, recalled = Some v -> valid_index domain v).
  { intros v ->. unfold recall in Hrec.
    destruct (surviving _ _) as [|k ks]; [discriminate|].
    injection Hrec as _ Hget. apply dict_get_in in Hget.
    eapply Hval. exact Hget. }
  destruct (truthy_name form) as [f|] eqn:Ef.
  - apply truthy_name_inv in Ef as [-> Ht].
    assert (Hg : exists general,
               predicted_listen_from_general_rule domain recalled key f w
               = (Ok general, w)).
    { unfold predicted_listen_from_general_rule.
      destruct recalled as [v|]; [|eexists; reflexivity].
      destruct key as [k|]; [|eexists; reflexivity].
      destruct (index_valid domain v (Hrv v eq_refl)) as [name Hn].
      unfold bind. rewrite Hn. eexists. reflexivity. }
    destruct Hg as [general Hg].
    rewrite (predict_from_rules_form domain _ w f states key recalled
               general Ht Hst Hrec Hg).
    destruct (general && negb _).
    + destruct (predict_known domain f w) as [r ->];
        [apply Hform; reflexivity|].
      now exists r.
    + destruct (finish_valid domain (if general then None else recalled)
                  (if marker_in NO_VALIDATION
                        (negative_recalled_of (negative_lookup (self w))
                           (surviving (keys (negative_lookup (self w)))
                              states))
                   then {| self := self w;
                           tracker := tracker_update (FormValidation false)
                                        (tracker w) |}
                   else w)) as [r Hr].
      { intros v Hv. destruct general; [discriminate|]. now apply Hrv. }
      exists r. unfold bind.
      destruct (marker_in NO_VALIDATION _); simpl; now rewrite Hr.
  - unfold predict_from_rules, bind at 1 2 3 4, gets, ret.
    rewrite Hst. unfold or_raise, ret. cbv beta iota.
    rewrite Hrec, Ef.
    destruct (finish_valid domain recalled w Hrv) as [r ->]. now exists r.
Qed.

(** X9: in a consistent world a prediction call does not raise. *)
Theorem prediction_never_raises (domain : Domain) (w : World) :
  consistent domain w ->
  exists r, fst (predict_action_probabilities domain w) = Ok r.
Proof.
  intros Hc. pose proof Hc as (_ & _ & Hdef & Hform).
  unfold predict_action_probabilities, bind at 1 2, gets. cbv zeta.
  destruct (is_enabled (self w)); unfold negb at 1; cbv iota;
    [|eexists; reflexivity].
  destruct (truthy_name (_should_run_rasa_default_action (tracker w)))
    as [a|] eqn:Ed.
  - apply truthy_name_inv in Ed as [Ed _].
    apply dict_get_in_default in Ed.
    destruct (predict_known domain a w) as [r ->]; [|now exists r].
    apply Hdef. destruct Ed as [->|[->| ->]]; simpl; tauto.
  - destruct (truthy_name (active_loop_name (tracker w))) as [f|] eqn:Ef.
    + pose proof (Hform f eq_refl) as Hk.
      apply truthy_name_inv in Ef as [Ef Ht]. rewrite Ef.
      destruct (active_loop_rejected (tracker w)); simpl.
      * apply predict_from_rules_safe; [exact Hc|].
        intros g Hg. rewrite (truthy_name_some _ Ht) in Hg.
        injection Hg as <-. exact Hk.
      * destruct (opt_eqb (latest_action_name (tracker w)) f); simpl.
        -- destruct (predict_known domain ACTION_LISTEN_NAME w) as [r ->];
             [apply Hdef; simpl; tauto|now exists r].
        -- destruct (predict_known domain f w) as [r ->];
             [exact Hk|now exists r].
    + simpl. apply predict_from_rules_safe; [exact Hc|].
      intros g Hg. congruence.
Qed.

Lemma prediction_never_raises_witness :
  exists r, fst (predict_action_probabilities demo_domain chitchat_world) = Ok r.
Proof.
  apply (prediction_never_raises demo_domain chitchat_world).
  repeat split.
  - eexists. reflexivity.
  - destruct H as [E|[E|[]]]; injection E as <- <-; vm_compute;
      discriminate.
  - destruct H as [E|[E|[]]]; injection E as <- <-; vm_compute;
      reflexivity.
  - intros a [<-|[<-|[<-|[<-|[]]]]]; eexists; reflexivity.
  - intros form H. discriminate H.
Defined.

(** Rule matching is also reached when there is no form at all. *)
Lemma predict_reaches_rules_no_form (domain : Domain) (w : World) :
  is_enabled (self w) = true ->
  truthy_name (_should_run_rasa_default_action (tracker w)) = None ->
  truthy_name (active_loop_name (tracker w)) = None ->
  predict_action_probabilities domain w
  = predict_from_rules domain (_default_predictions domain)
      (active_loop_name (tracker w)) w.
Proof.
  intros He Hd Hf.
  unfold predict_action_probabilities, bind at 1 2, gets.
  rewrite He. unfold negb at 1. cbv iota. rewrite Hd, Hf. reflexivity.
Qed.

(** X10: with no default action due and no form active, a conversation that
    no key of the positive table survives gets the all-zero vector, and
    neither the policy nor the tracker is touched. *)
Theorem no_surviving_rule_no_prediction (domain : Domain) (w : World)
    (states : list State) :
  is_enabled (self w) = true ->
  truthy_name (_should_run_rasa_default_action (tracker w)) = None ->
  truthy_name (active_loop_name (tracker w)) = None ->
  nth_error (prediction_states (featurizer (self w)) [tracker w] domain) 0
  = Some states ->
  surviving (keys (lookup (self w))) states = [] ->
  predict_action_probabilities domain w
  = (Ok (repeat 0%Z (List.length (action_names domain))), w).
Proof.
  intros He Hd Hf Hst Hnone.
  rewrite (predict_reaches_rules_no_form domain w He Hd Hf).
  rewrite (predict_from_rules_no_form domain _ w states Hst Hf).
  rewrite Hnone. reflexivity.
Qed.

Lemma no_surviving_rule_no_prediction_witness :
  predict_action_probabilities demo_domain farewell_world
  = (Ok [0; 0; 0; 0; 0; 0; 0]%Z, farewell_world).
Proof.
  apply (no_surviving_rule_no_prediction demo_domain farewell_world
           [Some []; Some [("intent_bye", 1%Z); ("prev_utter_greet", 1%Z)]]);
    reflexivity.
Defined.

(** ** Reading a turn during training *)

Lemma prefix_append (p f : string) : prefix p (p ++ f) = true.
Proof.
  induction p as [|c p IH]; simpl; [now destruct f|].
  destruct (ascii_dec c c); [exact IH|congruence].
Qed.

Lemma contains_append (p f : string) : Py.contains p (p ++ f) = true.
Proof.
  pose proof (prefix_append p f) as H.
  destruct (p ++ f); cbn [Py.contains]; now rewrite H.
Qed.

Lemma drop_append (p f : string) : Py.drop (String.length p) (p ++ f) = f.
Proof. induction p as [|c p IH]; simpl; [now destruct f|exact IH]. Qed.

Lemma append_inj (p a b : string) : p ++ a = p ++ b -> a = b.
Proof.
  induction p as [|c p IH]; simpl; [auto|]. intros [= H]. now apply IH.
Qed.

(** X11: the active form of a turn is read off its first feature that
    contains [active_form_], is not [active_form_None] and has a positive
    weight: the name is what follows the prefix. *)
Theorem active_form_name_found {S} (pre post : Turn) (form : string)
    (weight : Z) (s : S) :
  (0 < weight)%Z ->
  form <> "None" ->
  (forall kv, In kv pre -> Py.contains ACTIVE_FORM_PREFIX (fst kv) = false) ->
  _get_active_form_name
    (Some (pre ++ ((ACTIVE_FORM_PREFIX ++ form)%string, weight) :: post)%list)
    s
  = (Ok (Some form), s).
Proof.
  intros Hw Hform Hpre. unfold _get_active_form_name, ret.
  rewrite filter_app.
  assert (Hnil : filter
                   (fun kv : string * Z =>
                      Py.contains ACTIVE_FORM_PREFIX (fst kv)
                      && negb (fst kv =? ACTIVE_FORM_PREFIX ++ "None")
                      && positive (snd kv)) pre = []).
  { induction pre as [|kv pre IH]; [reflexivity|].
    simpl. rewrite (Hpre kv (or_introl eq_refl)). simpl.
    apply IH. intros kv' H. apply Hpre. now right. }
  rewrite Hnil. cbn [app filter fst snd].
  rewrite contains_append.
  assert (Hne : (ACTIVE_FORM_PREFIX ++ form =? ACTIVE_FORM_PREFIX ++ "None")
                = false).
  { apply String.eqb_neq. intros E. now apply append_inj in E. }
  rewrite Hne.
  assert (Hp : positive weight = true) by (now apply Z.ltb_lt).
  rewrite Hp. cbn [andb negb map hd_error fst].
  now rewrite drop_append.
Qed.

Lemma active_form_name_found_witness :
  _get_active_form_name
    (Some ([("prev_action_listen", 1%Z)]
           ++ ((ACTIVE_FORM_PREFIX ++ "restaurant_form")%string, 1%Z)
              :: [("slot_cuisine_0", 1%Z)])%list) tt
  = (Ok (Some "restaurant_form"), tt).
Proof.
  apply (active_form_name_found [("prev_action_listen", 1%Z)]
           [("slot_cuisine_0", 1%Z)] "restaurant_form" 1%Z tt).
  - reflexivity.
  - discriminate.
  - intros kv [<-|[]]. reflexivity.
Defined.

Lemma index_last_nonempty {A} (x : A) (l : list A) :
  exists y, Py.index (x :: l) (-1)%Z = Some y.
Proof.
  unfold Py.index.
  change (-1 <? 0)%Z with true. cbv iota.
  destruct (Z.ltb_spec (-1 + Z.of_nat (List.length (x :: l))) 0) as [H|H].
  - simpl List.length in H. lia.
  - destruct (nth_error (x :: l)
                (Z.to_nat (-1 + Z.of_nat (List.length (x :: l)))))
      as [y|] eqn:E; [now exists y|].
    apply nth_error_None in E. simpl List.length in *. lia.
Qed.

(** X12: [_modified_states] returns exactly when its window starts with a
    turn that is present.  What it returns has two or three turns, begins
    with a turn that carries the feature [prev_...], and ends with the last
    turn of the window; an empty window raises [IndexError]. *)
Theorem modified_states_window {S} (states : list State) (s : S) :
  (forall out s',
     _modified_states states s = (Ok out, s') ->
     s' = s
     /\ (exists d rest, states = Some d :: rest)
     /\ (exists first rest,
           out = Some first :: rest /\ dict_mem "prev_..." first = true)
     /\ Py.index out (-1)%Z = Py.index states (-1)%Z
     /\ (List.length out = 2 \/ List.length out = 3)%nat)
  /\ (forall d rest,
        states = Some d :: rest ->
        exists out, _modified_states states s = (Ok out, s))
  /\ (states = [] -> _modified_states states s = (Raise IndexError, s)).
Proof.
  split; [|split].
  - intros out s' H. unfold _modified_states, bind in H.
    destruct states as [|[d|] rest];
      [discriminate H|unfold last_state, bind in H|discriminate H].
    simpl nth_error in H. unfold or_raise at 1, ret in H.
    cbv beta iota in H. revert H.
    destruct (Py.index _ (-1)%Z) as [last|];
      unfold or_raise, ret, raise; cbv beta iota; [|discriminate].
    set (before := filter
                     (fun kv : string * Z =>
                        Py.contains PREV_PREFIX (fst kv) && positive (snd kv))
                     d).
    destruct (dict_mem "prev_..." before) eqn:Em; unfold negb;
      cbv beta iota; intros [= <- <-];
      (split; [reflexivity|]); (split; [eauto|]);
      (split; [eexists; eexists; split; [reflexivity|]|]);
      try exact Em; try reflexivity; (split; [reflexivity|auto]).
  - intros d rest ->. unfold _modified_states, bind, last_state.
    simpl nth_error. unfold or_raise at 1, ret. cbv beta iota.
    destruct (index_last_nonempty (Some d) rest) as [last Hl].
    unfold State in *. rewrite Hl.
    unfold or_raise, ret. cbv beta iota.
    destruct (negb _); eexists; reflexivity.
  - intros ->. reflexivity.
Qed.

Lemma modified_states_window_witness :
  exists out,
    _modified_states [Some [("prev_utter_ask", 1%Z)]; unhappy_turn] tt
    = (Ok out, tt).
Proof.
  exact (proj1 (proj2 (modified_states_window
                         [Some [("prev_utter_ask", 1%Z)]; unhappy_turn] tt))
           [("prev_utter_ask", 1%Z)] [unhappy_turn] eq_refl).
Defined.

(** ** Cleaning a table *)

Lemma bind_ok {S A B} (c : M S A) (k : A -> M S B) (s s' : S) (b : B) :
  bind c k s = (Ok b, s') ->
  exists a s1, c s = (Ok a, s1) /\ k a s1 = (Ok b, s').
Proof.
  unfold bind. destruct (c s) as [[a|e] s1]; [eauto|discriminate].
Qed.

Lemma or_raise_ok {S A} (e : PyError) (o : option A) (s s' : S) (a : A) :
  or_raise e o s = (Ok a, s') -> o = Some a /\ s' = s.
Proof.
  destruct o; simpl; unfold ret, raise; intros [= <- <-]; auto.
Qed.

Lemma index_for_action_ok {S} (domain : Domain) (name : string)
    (s s' : S) (z : Z) :
  index_for_action domain name s = (Ok z, s') ->
  s' = s
  /\ exists i, list_index name (action_names domain) = Some i
               /\ z = Z.of_nat i.
Proof.
  unfold index_for_action.
  destruct (list_index name (action_names domain)) as [i|];
    unfold ret, raise; intros [= <- <-]; eauto.
Qed.

Lemma in_dict_set {V} (k k0 : string) (v v0 : V) (m : Dict V) :
  In (k, v) (dict_set k0 v0 m) -> (k = k0 /\ v = v0) \/ In (k, v) m.
Proof.
  induction m as [|[a w] m IH]; simpl.
  - intros [[= <- <-]|[]]. auto.
  - destruct (a =? k0) eqn:E; simpl.
    + apply String.eqb_eq in E. subst a.
      intros [[= <- <-]|H]; auto.
    + intros [H|H]; [auto|]. apply IH in H. tauto.
Qed.

Lemma in_dict_del {V} (k k0 : string) (v : V) (m m' : Dict V) :
  dict_del k0 m = Some m' -> In (k, v) m' -> In (k, v) m.
Proof.
  revert m'. induction m as [|[a w] m IH]; simpl; intros m'; [discriminate|].
  destruct (a =? k0).
  - intros [= <-] H. now right.
  - destruct (dict_del k0 m) as [m1|]; [|discriminate].
    simpl. intros [= <-] [H|H]; [now left|right; now apply (IH m1)].
Qed.

Lemma length_dict_set {V} (k : string) (v : V) (m : Dict V) :
  (List.length (dict_set k v m) <= S (List.length m))%nat.
Proof.
  induction m as [|[a w] m IH]; simpl; [lia|].
  destruct (a =? k); simpl; lia.
Qed.

Lemma length_dict_del {V} (k : string) (m m' : Dict V) :
  dict_del k m = Some m' -> List.length m = S (List.length m').
Proof.
  revert m'. induction m as [|[a w] m IH]; simpl; intros m'; [discriminate|].
  destruct (a =? k).
  - now intros [= <-].
  - destruct (dict_del k m) as [m1|]; [|discriminate].
    simpl. intros [= <-]. simpl. now rewrite (IH m1).
Qed.

Section CleanFacts.
Context {S V : Type}.
Variable is_index : V -> Z -> bool.
Variable P : V -> Prop.

Lemma clean_step_keeps (lookup updated updated' : Dict V) (domain : Domain)
    (key : string) (s s' : S) :
  clean_step is_index lookup domain updated key s = (Ok updated', s') ->
  (forall k v, In (k, v) lookup -> P v) ->
  (forall k v, In (k, v) updated -> P v) ->
  s' = s
  /\ (forall k v, In (k, v) updated' -> P v)
  /\ (List.length updated' <= List.length updated)%nat.
Proof.
  intros H Hl Hu. unfold clean_step in H.
  apply bind_ok in H as (value & s1 & Hget & H).
  apply or_raise_ok in Hget as [Hget ->].
  apply bind_ok in H as (no_prior & s2 & Hnp & H).
  injection Hnp as <- <-.
  apply bind_ok in H as (drop_it & s3 & Hdrop & H).
  assert (Hs3 : s3 = s).
  { destruct (negb (Py.contains PREV_PREFIX key)).
    - now injection Hdrop as _ <-.
    - apply bind_ok in Hdrop as (i & s4 & Hi & Hr).
      apply index_for_action_ok in Hi as [-> _]. now injection Hr as _ <-. }
  subst s3. clear Hdrop.
  destruct drop_it.
  - apply or_raise_ok in H as [Hdel ->]. repeat split.
    + intros k v Hin. eapply Hu, in_dict_del; eassumption.
    + apply length_dict_del in Hdel. lia.
  - destruct (Py.contains RULE_SNIPPET_ACTION_NAME key).
    + apply or_raise_ok in H as [Hdel ->]. repeat split.
      * intros k v Hin. eapply in_dict_del in Hin; [|exact Hdel].
        destruct (Py.truthy (sub_snippet key)); [|now apply (Hu k)].
        apply in_dict_set in Hin as [[_ ->]|Hin]; [|now apply (Hu k)].
        apply (Hl key). now apply dict_get_in.
      * apply length_dict_del in Hdel.
        destruct (Py.truthy (sub_snippet key)); [|lia].
        pose proof (length_dict_set (trim_bars (sub_snippet key)) value
                      updated). lia.
    + injection H as <- <-. repeat split; [exact Hu|lia].
Qed.

Lemma clean_loop_keeps (lookup : Dict V) (domain : Domain)
    (ks : list string) : forall (updated out : Dict V) (s s' : S),
  clean_loop is_index lookup domain ks updated s = (Ok out, s') ->
  (forall k v, In (k, v) lookup -> P v) ->
  (forall k v, In (k, v) updated -> P v) ->
  s' = s
  /\ (forall k v, In (k, v) out -> P v)
  /\ (List.length out <= List.length updated)%nat.
Proof.
  induction ks as [|key ks IH]; intros updated out s s' H Hl Hu; simpl in H.
  - injection H as <- <-. repeat split; [exact Hu|lia].
  - apply bind_ok in H as (updated1 & s1 & Hstep & H).
    apply clean_step_keeps in Hstep as (-> & Hu1 & Hlen1); try assumption.
    apply IH in H as (-> & Hout & Hlen); try assumption.
    repeat split; [exact Hout|lia].
Qed.

End CleanFacts.

(** X14: cleaning a table never invents anything.  When it returns, every
    value of the cleaned table is a value of the table it was given, the
    cleaned table has no more entries than the given one, and the store is
    left as it was. *)
Theorem clean_keeps_values {S V} (is_index : V -> Z -> bool)
    (lookup out : Dict V) (domain : Domain) (s s' : S) :
  _clean_feature_keys is_index lookup domain s = (Ok out, s') ->
  s' = s
  /\ (forall k v, In (k, v) out -> exists k0, In (k0, v) lookup)
  /\ (List.length out <= List.length lookup)%nat.
Proof.
  intros H. unfold _clean_feature_keys in H.
  apply (clean_loop_keeps is_index (fun v => exists k0, In (k0, v) lookup))
    in H; [exact H| |]; intros k v Hin; now exists k.
Qed.

Lemma clean_keeps_values_witness :
  tt = tt
  /\ (forall k v,
        In (k, v) [("prev_utter_ask", 6%Z)] ->
        exists k0,
          In (k0, v)
            [("|intent_greet", 1%Z); ("|prev_...|prev_utter_ask", 6%Z)])
  /\ (List.length [("prev_utter_ask", 6%Z)]
      <= List.length
           [("|intent_greet", 1%Z); ("|prev_...|prev_utter_ask", 6%Z)])%nat.
Proof.
  apply (clean_keeps_values Z.eqb
           [("|intent_greet", 1%Z); ("|prev_...|prev_utter_ask", 6%Z)]
           [("prev_utter_ask", 6%Z)] demo_domain tt tt).
  reflexivity.
Defined.

Lemma dict_del_some {V} (k : string) (m : Dict V) :
  In k (keys m) -> exists m', dict_del k m = Some m'.
Proof.
  induction m as [|[a w] m IH]; simpl; [tauto|].
  intros H. destruct (String.eqb_spec a k) as [->|Hne]; [eauto|].
  destruct IH as [m' ->]; [tauto|]. simpl. eauto.
Qed.

Lemma keys_dict_del {V} (k k' : string) (m m' : Dict V) :
  dict_del k m = Some m' -> k' <> k -> In k' (keys m) -> In k' (keys m').
Proof.
  revert m'. induction m as [|[a w] m IH]; simpl; intros m'; [discriminate|].
  destruct (String.eqb_spec a k) as [->|Hne].
  - intros [= <-] Hk [H|H]; [congruence|exact H].
  - destruct (dict_del k m) as [m1|]; [|discriminate].
    simpl. intros [= <-] Hk [H|H]; simpl; [now left|right; now apply IH].
Qed.

Lemma dict_del_nodup {V} (k : string) (m m' : Dict V) :
  NoDup (keys m) -> dict_del k m = Some m' ->
  NoDup (keys m') /\ ~ In k (keys m')
  /\ forall k', In k' (keys m') -> In k' (keys m).
Proof.
  revert m'. induction m as [|[a w] m IH]; simpl; intros m' Hnd;
    [discriminate|].
  inversion Hnd as [|? ? Hnotin Hnd']; subst.
  destruct (String.eqb_spec a k) as [->|Hne].
  - intros [= <-]. repeat split; auto.
  - destruct (dict_del k m) as [m1|] eqn:E; [|discriminate].
    simpl. intros [= <-]. destruct (IH m1 Hnd' eq_refl) as (Hn1 & Hk1 & Hsub).
    simpl. repeat split.
    + constructor; [|exact Hn1]. intros H. now apply Hnotin, Hsub.
    + intros [H|H]; [congruence|now apply Hk1].
    + intros k' [H|H]; [now left|right; now apply Hsub].
Qed.

Lemma in_keys {V} (k : string) (v : V) (m : Dict V) :
  In (k, v) m -> In k (keys m).
Proof. intros H. unfold keys. apply in_map_iff. now exists (k, v). Qed.

Section CleanMore.
Context {S V : Type}.
Variable is_index : V -> Z -> bool.

(** What one pass of the cleaning loop does to the copy, for a key of the
    table that is still in the copy. *)
Lemma clean_step_cases (lookup updated : Dict V) (domain : Domain)
    (key : string) (value : V) (i : nat) (s : S) :
  dict_get key lookup = Some value ->
  list_index RULE_SNIPPET_ACTION_NAME (action_names domain) = Some i ->
  clean_step is_index lookup domain updated key s
  = (if negb (Py.contains PREV_PREFIX key) || is_index value (Z.of_nat i)
     then or_raise KeyError (dict_del key updated)
     else if Py.contains RULE_SNIPPET_ACTION_NAME key
          then or_raise KeyError
                 (dict_del key
                    (if Py.truthy (sub_snippet key)
                     then dict_set (trim_bars (sub_snippet key)) value updated
                     else updated))
          else ret updated) s.
Proof.
  intros Hget Hi. unfold clean_step, bind at 1 2 3, ret at 1.
  rewrite Hget. unfold or_raise at 1, ret at 1.
  destruct (negb (Py.contains PREV_PREFIX key)); simpl orb.
  - reflexivity.
  - unfold bind at 1, index_for_action. rewrite Hi. unfold ret at 1 2.
    destruct (is_index value (Z.of_nat i)); reflexivity.
Qed.

Lemma clean_loop_total (lookup : Dict V) (domain : Domain) (i : nat)
    (ks : list string) : forall (updated : Dict V) (s : S),
  list_index RULE_SNIPPET_ACTION_NAME (action_names domain) = Some i ->
  NoDup ks ->
  (forall k, In k ks -> In k (keys lookup)) ->
  (forall k, In k ks -> In k (keys updated)) ->
  exists out, clean_loop is_index lookup domain ks updated s = (Ok out, s).
Proof.
  induction ks as [|key ks IH]; intros updated s Hi Hnd Hl Hu.
  - eexists. reflexivity.
  - inversion Hnd as [|? ? Hnotin Hnd']; subst.
    destruct (dict_get_of_key key lookup (Hl key (or_introl eq_refl)))
      as [value Hget].
    assert (Hstep : exists updated',
               clean_step is_index lookup domain updated key s
               = (Ok updated', s)
               /\ forall k, In k ks -> In k (keys updated')).
    { rewrite (clean_step_cases _ _ _ _ _ _ _ Hget Hi).
      assert (Hne : forall k, In k ks -> k <> key) by (intros k H ->; auto).
      destruct (_ || _).
      - destruct (dict_del_some key updated (Hu key (or_introl eq_refl)))
          as [m' Hdel].
        exists m'. rewrite Hdel. split; [reflexivity|].
        intros k Hk. eapply keys_dict_del; eauto. apply Hu. now right.
      - destruct (Py.contains RULE_SNIPPET_ACTION_NAME key).
        + set (u := if Py.truthy (sub_snippet key)
                    then dict_set (trim_bars (sub_snippet key)) value updated
                    else updated).
          assert (Hsub : forall k, In k (keys updated) -> In k (keys u)).
          { intros k Hk. unfold u. destruct (Py.truthy _); [|exact Hk].
            apply in_keys_dict_set. now right. }
          destruct (dict_del_some key u (Hsub _ (Hu key (or_introl eq_refl))))
            as [m' Hdel].
          exists m'. rewrite Hdel. split; [reflexivity|].
          intros k Hk. eapply keys_dict_del; eauto.
          apply Hsub, Hu. now right.
        + exists updated. split; [reflexivity|].
          intros k Hk. apply Hu. now right. }
    destruct Hstep as (updated' & Hstep & Hu').
    destruct (IH updated' s Hi Hnd') as [out Hout]; auto.
    { intros k Hk. apply Hl. now right. }
    exists out. simpl. unfold bind. now rewrite Hstep.
Qed.

End CleanMore.

(** X15: cleaning does not fail on a dictionary.  For a table whose keys
    are distinct and a domain that has the rule-snippet action, the cleaning
    pass returns; no deletion in it misses its key. *)
Theorem clean_never_raises {S V} (is_index : V -> Z -> bool)
    (lookup : Dict V) (domain : Domain) (s : S) :
  NoDup (keys lookup) ->
  known domain RULE_SNIPPET_ACTION_NAME ->
  exists out, _clean_feature_keys is_index lookup domain s = (Ok out, s).
Proof.
  intros Hnd [i Hi]. unfold _clean_feature_keys.
  apply (clean_loop_total is_index lookup domain i); auto.
Qed.

Lemma clean_never_raises_witness :
  exists out,
    _clean_feature_keys Z.eqb
      [("|intent_greet", 1%Z); ("|prev_...|prev_utter_ask", 6%Z);
       ("|prev_action_listen", 4%Z)]
      demo_domain tt
    = (Ok out, tt).
Proof.
  apply (clean_never_raises Z.eqb
           [("|intent_greet", 1%Z); ("|prev_...|prev_utter_ask", 6%Z);
            ("|prev_action_listen", 4%Z)] demo_domain tt).
  - repeat constructor; simpl; intuition discriminate.
  - exists 4%nat. reflexivity.
Defined.

Section CleanGood.
Context {S V : Type}.
Variable is_index : V -> Z -> bool.
Variable lookup : Dict V.
Variable domain : Domain.
Variable i : nat.
Hypothesis snippet_known :
  list_index RULE_SNIPPET_ACTION_NAME (action_names domain) = Some i.

Lemma clean_loop_good (ks : list string) :
  forall (updated out : Dict V) (s s' : S),
  NoDup ks ->
  (forall k, In k ks -> In k (keys lookup)) ->
  NoDup (keys updated) ->
  (forall k v, In (k, v) updated ->
     is_index v (Z.of_nat i) = false
     \/ (In k ks /\ dict_get k lookup = Some v)) ->
  clean_loop is_index lookup domain ks updated s = (Ok out, s') ->
  NoDup (keys out)
  /\ forall k v, In (k, v) out -> is_index v (Z.of_nat i) = false.
Proof.
  induction ks as [|key ks IH]; intros updated out s s' Hnd Hl Hu J H.
  - injection H as <- <-. split; [exact Hu|].
    intros k v Hin. destruct (J k v Hin) as [Hg|[[] _]]. exact Hg.
  - inversion Hnd as [|? ? Hnotin Hnd']; subst.
    destruct (dict_get_of_key key lookup (Hl key (or_introl eq_refl)))
      as [value Hget].
    simpl in H. apply bind_ok in H as (updated' & s1 & Hstep & H).
    rewrite (clean_step_cases _ _ _ _ _ _ _ _ Hget snippet_known) in Hstep.
    assert (Hrest : forall k v, In (k, v) updated -> k <> key ->
               is_index v (Z.of_nat i) = false
               \/ (In k ks /\ dict_get k lookup = Some v)).
    { intros k v Hin Hne. destruct (J k v Hin) as [Hg|[[E|Hk] Hv]]; auto.
      congruence. }
    apply (IH updated' out s1 s'); auto.
    + intros k Hk. apply Hl. now right.
    + destruct (_ || _) eqn:Ed.
      * apply or_raise_ok in Hstep as [Hdel _].
        now apply dict_del_nodup in Hdel as [Hn _].
      * destruct (Py.contains RULE_SNIPPET_ACTION_NAME key).
        -- apply or_raise_ok in Hstep as [Hdel _].
           apply dict_del_nodup in Hdel as [Hn _]; [exact Hn|].
           destruct (Py.truthy _); [now apply dict_set_nodup|exact Hu].
        -- now injection Hstep as <- _.
    + destruct (_ || _) eqn:Ed.
      * apply or_raise_ok in Hstep as [Hdel _].
        intros k v Hin. apply Hrest.
        -- eapply in_dict_del; eassumption.
        -- intros ->. apply dict_del_nodup in Hdel as (_ & Hk & _);
             [|exact Hu].
           apply Hk. eapply in_keys. exact Hin.
      * apply orb_false_elim in Ed as [_ Hgood].
        destruct (Py.contains RULE_SNIPPET_ACTION_NAME key).
        -- apply or_raise_ok in Hstep as [Hdel _].
           intros k v Hin.
           assert (Hne : k <> key).
           { intros ->. apply dict_del_nodup in Hdel as (_ & Hk & _).
             - apply Hk. eapply in_keys. exact Hin.
             - destruct (Py.truthy _); [now apply dict_set_nodup|exact Hu]. }
           eapply in_dict_del in Hin; [|exact Hdel].
           destruct (Py.truthy _); [|now apply Hrest].
           apply in_dict_set in Hin as [[_ ->]|Hin];
             [now left|now apply Hrest].
        -- injection Hstep as <- _. intros k v Hin.
           destruct (J k v Hin) as [Hg|[[E|Hk] Hv]]; auto.
           subst k. left. congruence.
Qed.

Lemma clean_loop_same (ks : list string) : forall (updated : Dict V) (s : S),
  (forall k, In k ks ->
     exists v, dict_get k lookup = Some v
               /\ Py.contains PREV_PREFIX k = true
               /\ Py.contains RULE_SNIPPET_ACTION_NAME k = false
               /\ is_index v (Z.of_nat i) = false) ->
  clean_loop is_index lookup domain ks updated s = (Ok updated, s).
Proof.
  induction ks as [|key ks IH]; intros updated s H; [reflexivity|].
  destruct (H key (or_introl eq_refl)) as (v & Hget & Hp & Hs & Hg).
  simpl. unfold bind.
  rewrite (clean_step_cases _ _ _ _ _ _ _ _ Hget snippet_known).
  rewrite Hp, Hg, Hs. simpl. apply IH.
  intros k Hk. apply H. now right.
Qed.

End CleanGood.

(** X16: a cleaned table never recalls the rule-snippet placeholder.  For a
    table with distinct keys, no value of the cleaned table equals the index
    of the placeholder action, and the keys of the cleaned table are
    distinct again. *)
Theorem clean_drops_placeholder {S V} (is_index : V -> Z -> bool)
    (lookup out : Dict V) (domain : Domain) (i : nat) (s s' : S) :
  NoDup (keys lookup) ->
  list_index RULE_SNIPPET_ACTION_NAME (action_names domain) = Some i ->
  _clean_feature_keys is_index lookup domain s = (Ok out, s') ->
  NoDup (keys out)
  /\ forall k v, In (k, v) out -> is_index v (Z.of_nat i) = false.
Proof.
  intros Hnd Hi H. unfold _clean_feature_keys in H.
  apply (clean_loop_good is_index lookup domain i Hi (keys lookup)
           lookup out s s'); auto.
  intros k v Hin. right. split; [now apply (in_keys k v)|].
  now apply dict_get_in_nodup.
Qed.

Lemma clean_drops_placeholder_witness :
  NoDup (keys [("prev_utter_ask", 6%Z)])
  /\ forall k v,
       In (k, v) [("prev_utter_ask", 6%Z)] ->
       Z.eqb v (Z.of_nat 4) = false.
Proof.
  apply (clean_drops_placeholder Z.eqb
           [("|prev_utter_greet", 4%Z); ("|prev_...|prev_utter_ask", 6%Z)]
           [("prev_utter_ask", 6%Z)] demo_domain 4 tt tt).
  - repeat constructor; simpl; intuition discriminate.
  - reflexivity.
  - reflexivity.
Defined.

(** X17: cleaning leaves a table alone whose every key names a preceding
    action, none through the rule-snippet placeholder, and none of whose
    values is the placeholder's index. *)
Theorem clean_identity {S V} (is_index : V -> Z -> bool) (lookup : Dict V)
    (domain : Domain) (i : nat) (s : S) :
  list_index RULE_SNIPPET_ACTION_NAME (action_names domain) = Some i ->
  (forall k v, In (k, v) lookup ->
     Py.contains PREV_PREFIX k = true
     /\ Py.contains RULE_SNIPPET_ACTION_NAME k = false
     /\ is_index v (Z.of_nat i) = false) ->
  _clean_feature_keys is_index lookup domain s = (Ok lookup, s).
Proof.
  intros Hi H. unfold _clean_feature_keys.
  apply (clean_loop_same is_index lookup domain i Hi).
  intros k Hk. destruct (dict_get_of_key k lookup Hk) as [v Hget].
  exists v. split; [exact Hget|]. apply (H k v). now apply dict_get_in.
Qed.

Lemma clean_identity_witness :
  _clean_feature_keys Z.eqb
    [("|prev_action_listen", 1%Z);
     ("|intent_chitchat prev_action_listen", 6%Z)] demo_domain tt
  = (Ok [("|prev_action_listen", 1%Z);
         ("|intent_chitchat prev_action_listen", 6%Z)], tt).
Proof.
  apply (clean_identity Z.eqb
           [("|prev_action_listen", 1%Z);
            ("|intent_chitchat prev_action_listen", 6%Z)] demo_domain 4 tt).
  - reflexivity.
  - intros k v [E|[E|[]]]; injection E as <- <-; repeat split; reflexivity.
Defined.

(** ** The wildcard rewrite *)

Lemma contains_cons (p : string) (c : ascii) (s : string) :
  Py.contains p (String c s) = prefix p (String c s) || Py.contains p s.
Proof. reflexivity. Qed.

Lemma match_len_cons (c : ascii) (s : string) :
  match_len (String c s)
  = let here :=
      if prefix SNIPPET_MARKER (String c s)
      then Some (8 + span_not_bar (Py.drop 8 (String c s)))%nat
      else None in
    if Ascii.eqb c "010" then here
    else match match_len s with
         | Some n => Some (S n)
         | None => here
         end.
Proof. reflexivity. Qed.

Lemma sub_snippet_from_cons (c : ascii) (s : string) :
  sub_snippet_from 0 (String c s)
  = match match_len (String c s) with
    | Some n => sub_snippet_from (n - 1) s
    | None => String c (sub_snippet_from 0 s)
    end.
Proof. reflexivity. Qed.

Lemma prefix_marker_newline (s : string) :
  prefix SNIPPET_MARKER (String "010" s) = false.
Proof. reflexivity. Qed.

Lemma match_len_none (s : string) :
  Py.contains SNIPPET_MARKER s = false -> match_len s = None.
Proof.
  induction s as [|c s IH]; [reflexivity|].
  rewrite contains_cons, match_len_cons. intros H.
  apply orb_false_elim in H as [Hp Hc].
  rewrite Hp, (IH Hc). cbv zeta. now destruct (Ascii.eqb c "010").
Qed.

(** X18: the wildcard rewrite leaves a key without the snippet marker as it
    is. *)
Theorem sub_snippet_without_marker (key : string) :
  Py.contains SNIPPET_MARKER key = false -> sub_snippet key = key.
Proof.
  unfold sub_snippet. induction key as [|c key IH]; [reflexivity|].
  intros H. rewrite sub_snippet_from_cons, (match_len_none _ H).
  rewrite contains_cons in H. apply orb_false_elim in H as [_ H].
  now rewrite IH.
Qed.

Lemma sub_snippet_without_marker_witness :
  sub_snippet "|intent_chitchat prev_action_listen"
  = "|intent_chitchat prev_action_listen".
Proof.
  apply (sub_snippet_without_marker "|intent_chitchat prev_action_listen").
  reflexivity.
Defined.

Lemma drop_drop (a b : nat) (s : string) :
  Py.drop (a + b) s = Py.drop b (Py.drop a s).
Proof.
  revert s. induction a as [|a IH]; intros s; [reflexivity|].
  destruct s as [|c s]; simpl; [now destruct b|apply IH].
Qed.

Lemma length_drop (n : nat) (s : string) :
  String.length (Py.drop n s) = (String.length s - n)%nat.
Proof.
  revert s. induction n as [|n IH]; intros s; simpl; [lia|].
  destruct s as [|c s]; simpl; [reflexivity|apply IH].
Qed.

Lemma drop_span (s : string) :
  Py.drop (span_not_bar s) s = "" \/ starts_bar (Py.drop (span_not_bar s) s).
Proof.
  induction s as [|c s IH]; simpl; [now left|].
  destruct (Ascii.eqb_spec c "|") as [->|Hne]; simpl.
  - right. now exists s.
  - exact IH.
Qed.

Lemma span_le (s : string) : (span_not_bar s <= String.length s)%nat.
Proof.
  induction s as [|c s IH]; simpl; [lia|].
  destruct (Ascii.eqb c "|"); simpl; lia.
Qed.

Lemma prefix_length (p s : string) :
  prefix p s = true -> (String.length p <= String.length s)%nat.
Proof.
  revert s. induction p as [|a p IH]; intros s; [simpl; lia|].
  destruct s as [|b s]; simpl; [discriminate|].
  destruct (ascii_dec a b); [|discriminate].
  intros H. apply IH in H. lia.
Qed.

(** A match covers at least the marker, lies within the string, and ends
    at the end of the string or in front of a separator. *)
Lemma match_len_some (s : string) : forall n,
  match_len s = Some n ->
  (8 <= n <= String.length s)%nat
  /\ (Py.drop n s = "" \/ starts_bar (Py.drop n s)).
Proof.
  induction s as [|c s IH]; intros n; [discriminate|].
  rewrite match_len_cons. cbv zeta.
  assert (Hhere : forall n,
             (if prefix SNIPPET_MARKER (String c s)
              then Some (8 + span_not_bar (Py.drop 8 (String c s)))%nat
              else None) = Some n ->
             (8 <= n <= String.length (String c s))%nat
             /\ (Py.drop n (String c s) = ""
                 \/ starts_bar (Py.drop n (String c s)))).
  { intros m. destruct (prefix SNIPPET_MARKER (String c s)) eqn:Ep;
      [|discriminate].
    pose proof (span_le (Py.drop 8 (String c s))) as Hs.
    pose proof (drop_span (Py.drop 8 (String c s))) as Hd.
    rewrite length_drop in Hs. rewrite <- drop_drop in Hd.
    apply prefix_length in Ep.
    change (String.length SNIPPET_MARKER) with 8%nat in Ep.
    remember (span_not_bar (Py.drop 8 (String c s))) as sp.
    remember (String c s) as cs.
    intros [= <-]. split; [lia|exact Hd]. }
  destruct (Ascii.eqb c "010"); [apply Hhere|].
  destruct (match_len s) as [m|]; [|apply Hhere].
  intros [= <-]. destruct (IH m eq_refl) as [Hm Hd].
  split; [simpl; lia|exact Hd].
Qed.

Lemma sub_snippet_from_drop (n : nat) : forall s,
  sub_snippet_from n s = sub_snippet_from 0 (Py.drop n s).
Proof.
  induction n as [|n IH]; intros s; [reflexivity|].
  destruct s as [|c s]; [reflexivity|]. simpl Py.drop. rewrite <- IH.
  reflexivity.
Qed.

Lemma sub_snippet_match (c : ascii) (s : string) (n : nat) :
  match_len (String c s) = Some n ->
  sub_snippet_from 0 (String c s)
  = sub_snippet_from 0 (Py.drop n (String c s)).
Proof.
  intros H. rewrite sub_snippet_from_cons, H.
  apply match_len_some in H as [[Hn _] _].
  rewrite sub_snippet_from_drop.
  replace n with (S (n - 1)) at 2 by lia. reflexivity.
Qed.

Lemma prefix_nil (x : string) : prefix "" x = true.
Proof. now destruct x. Qed.

Lemma prefix_cons_iff (a b : ascii) (u x : string) :
  prefix (String a u) (String b x) = true <-> a = b /\ prefix u x = true.
Proof.
  simpl. destruct (ascii_dec a b) as [->|Hne]; intuition congruence.
Qed.

Lemma prefix_iff (p s : string) :
  prefix p s = true <-> exists post, s = p ++ post.
Proof.
  revert s. induction p as [|a p IH]; intros s.
  - rewrite prefix_nil. split; [intros _; now exists s|reflexivity].
  - destruct s as [|b s].
    + simpl. split; [discriminate|]. intros [post H]. discriminate H.
    + rewrite prefix_cons_iff, IH. split.
      * intros [-> [post ->]]. now exists post.
      * intros [post [= -> ->]]. split; [reflexivity|now exists post].
Qed.

Lemma contains_iff (p s : string) :
  Py.contains p s = true <-> exists pre post, s = pre ++ p ++ post.
Proof.
  induction s as [|c s IH].
  - change (Py.contains p "") with (prefix p "" || false).
    rewrite orb_false_r, prefix_iff. split.
    + intros [post H]. now exists "", post.
    + intros (pre & post & H). destruct pre; [now exists post|discriminate].
  - rewrite contains_cons, orb_true_iff, prefix_iff, IH. split.
    + intros [[post H]|(pre & post & ->)].
      * now exists "", post.
      * now exists (String c pre), post.
    + intros (pre & post & H). destruct pre as [|a pre].
      * left. now exists post.
      * right. injection H as -> ->. now exists pre, post.
Qed.

Lemma contains_suffix_part (a b s : string) :
  Py.contains (a ++ b) s = true -> Py.contains b s = true.
Proof.
  rewrite !contains_iff. intros (pre & post & ->).
  exists (pre ++ a), post. now rewrite !append_assoc.
Qed.

Lemma sub_snippet_keeps_bar (n : nat) : forall x,
  (String.length x <= n)%nat ->
  x = "" \/ starts_bar x ->
  sub_snippet_from 0 x = "" \/ starts_bar (sub_snippet_from 0 x).
Proof.
  induction n as [|n IH]; intros x Hlen Hx.
  - destruct x; [now left|simpl in Hlen; lia].
  - destruct x as [|c t]; [now left|].
    destruct (match_len (String c t)) as [m|] eqn:E.
    + rewrite (sub_snippet_match _ _ _ E).
      apply match_len_some in E as [[Hm _] Hd].
      apply IH; [|exact Hd]. rewrite length_drop.
      change (String.length (String c t)) with (S (String.length t)) in *.
      lia.
    + rewrite sub_snippet_from_cons, E. right.
      destruct Hx as [Hx|[r Hx]]; [discriminate|].
      injection Hx as -> _. eexists. reflexivity.
Qed.

(** What the rewrite's result begins with, up to the first separator, the
    key begins with as well. *)
Lemma sub_snippet_prefix (s : string) : forall u,
  bar_free u = true ->
  prefix u (sub_snippet_from 0 s) = true -> prefix u s = true.
Proof.
  induction s as [|c s IH]; intros u Hu H; [exact H|].
  destruct u as [|a u]; [reflexivity|].
  unfold bar_free in Hu. simpl in Hu. apply andb_prop in Hu as [Ha Hu].
  destruct (match_len (String c s)) as [m|] eqn:E.
  - rewrite (sub_snippet_match _ _ _ E) in H.
    apply match_len_some in E as [_ Hd].
    destruct (sub_snippet_keeps_bar _ _ (Nat.le_refl _) Hd) as [Ho|[r Ho]];
      rewrite Ho in H; [discriminate H|].
    apply prefix_cons_iff in H as [-> _]. discriminate Ha.
  - rewrite sub_snippet_from_cons, E in H.
    apply prefix_cons_iff in H as [-> H].
    apply prefix_cons_iff. split; [reflexivity|]. now apply IH.
Qed.

Lemma prefix_marker_match (s : string) :
  prefix SNIPPET_MARKER s = true -> match_len s <> None.
Proof.
  destruct s as [|c s]; [discriminate|].
  intros H. rewrite match_len_cons. cbv zeta. rewrite H.
  destruct (Ascii.eqb c "010"); [discriminate|].
  destruct (match_len s); discriminate.
Qed.

Lemma sub_snippet_no_marker (n : nat) : forall s,
  (String.length s <= n)%nat ->
  Py.contains SNIPPET_MARKER (sub_snippet_from 0 s) = false.
Proof.
  induction n as [|n IH]; intros s Hlen.
  - destruct s; [reflexivity|simpl in Hlen; lia].
  - destruct s as [|c s]; [reflexivity|].
    destruct (match_len (String c s)) as [m|] eqn:E.
    + rewrite (sub_snippet_match _ _ _ E).
      apply match_len_some in E as [[Hm _] _].
      apply IH. rewrite length_drop.
      change (String.length (String c s)) with (S (String.length s)) in *.
      lia.
    + pose proof (sub_snippet_prefix (String c s) SNIPPET_MARKER eq_refl)
        as Hp.
      rewrite sub_snippet_from_cons, E in *.
      rewrite contains_cons, IH by (simpl in Hlen; lia).
      rewrite orb_false_r.
      destruct (prefix SNIPPET_MARKER (String c (sub_snippet_from 0 s)));
        [|reflexivity].
      exfalso. now apply (prefix_marker_match (String c s)); [apply Hp|].
Qed.

Lemma contains_drop (p : string) (n : nat) : forall s,
  Py.contains p s = false -> Py.contains p (Py.drop n s) = false.
Proof.
  induction n as [|n IH]; intros s H; [exact H|].
  destruct s as [|c s]; [exact H|].
  rewrite contains_cons in H. apply orb_false_elim in H as [_ H].
  now apply IH.
Qed.

Lemma take_append (n : nat) (s : string) : exists rest, s = Py.take n s ++ rest.
Proof.
  revert s. induction n as [|n IH]; intros s.
  - exists s. now destruct s.
  - destruct s as [|c s]; [now exists ""|].
    destruct (IH s) as [rest H]. exists rest. simpl. now rewrite <- H.
Qed.

Lemma contains_take (p : string) (n : nat) (s : string) :
  Py.contains p s = false -> Py.contains p (Py.take n s) = false.
Proof.
  intros H. destruct (Py.contains p (Py.take n s)) eqn:E; [|reflexivity].
  apply contains_iff in E as (pre & post & E).
  destruct (take_append n s) as [rest Hs].
  assert (Hc : Py.contains p s = true).
  { apply contains_iff. exists pre, (post ++ rest).
    rewrite Hs, E, !append_assoc. reflexivity. }
  congruence.
Qed.

Lemma trim_bars_no_marker (p x : string) :
  Py.contains p x = false -> Py.contains p (trim_bars x) = false.
Proof.
  intros H. unfold trim_bars.
  set (k1 := if Py.startswith x "|" then Py.drop 1 x else x).
  assert (H1 : Py.contains p k1 = false).
  { unfold k1. destruct (Py.startswith x "|"); [now apply contains_drop|].
    exact H. }
  destruct (Py.endswith k1 "|"); [|exact H1].
  unfold Py.slice_to. destruct (_ <? 0)%Z; now apply contains_take.
Qed.

(** X19: the wildcard rewrite leaves no snippet marker behind.  Whatever
    the key, the rewritten key contains no [prev_...], before and after its
    outer separators are trimmed. *)
Theorem sub_snippet_removes_marker (key : string) :
  Py.contains SNIPPET_MARKER (sub_snippet key) = false
  /\ Py.contains SNIPPET_MARKER (trim_bars (sub_snippet key)) = false.
Proof.
  assert (H : Py.contains SNIPPET_MARKER (sub_snippet key) = false).
  { apply (sub_snippet_no_marker (String.length key)). lia. }
  split; [exact H|now apply trim_bars_no_marker].
Qed.

Lemma marker_needs_snippet (key : string) :
  Py.contains RULE_SNIPPET_ACTION_NAME key = false ->
  Py.contains SNIPPET_MARKER key = false.
Proof.
  intros H. destruct (Py.contains SNIPPET_MARKER key) eqn:E; [|reflexivity].
  apply (contains_suffix_part "prev_" RULE_SNIPPET_ACTION_NAME) in E.
  congruence.
Qed.

Section CleanUnmarked.
Context {S V : Type}.
Variable is_index : V -> Z -> bool.
Variable lookup : Dict V.
Variable domain : Domain.
Variable i : nat.
Hypothesis snippet_known :
  list_index RULE_SNIPPET_ACTION_NAME (action_names domain) = Some i.

Lemma clean_loop_unmarked (ks : list string) :
  forall (updated out : Dict V) (s s' : S),
  NoDup ks ->
  (forall k, In k ks -> In k (keys lookup)) ->
  NoDup (keys updated) ->
  (forall k, In k (keys updated) ->
     Py.contains SNIPPET_MARKER k = false \/ In k ks) ->
  clean_loop is_index lookup domain ks updated s = (Ok out, s') ->
  forall k, In k (keys out) -> Py.contains SNIPPET_MARKER k = false.
Proof.
  induction ks as [|key ks IH]; intros updated out s s' Hnd Hl Hu K H.
  - injection H as <- <-. intros k Hk. destruct (K k Hk) as [Hg|[]].
    exact Hg.
  - inversion Hnd as [|? ? Hnotin Hnd']; subst.
    destruct (dict_get_of_key key lookup (Hl key (or_introl eq_refl)))
      as [value Hget].
    simpl in H. apply bind_ok in H as (updated' & s1 & Hstep & H).
    rewrite (clean_step_cases _ _ _ _ _ _ _ _ Hget snippet_known) in Hstep.
    assert (Hrest : forall k, In k (keys updated) -> k <> key ->
               Py.contains SNIPPET_MARKER k = false \/ In k ks).
    { intros k Hin Hne. destruct (K k Hin) as [Hg|[E|Hk]]; auto.
      congruence. }
    assert (Hdel : forall u,
               NoDup (keys u) ->
               (forall k, In k (keys u) -> k <> key ->
                  Py.contains SNIPPET_MARKER k = false \/ In k ks) ->
               or_raise KeyError (dict_del key u) s = (Ok updated', s1) ->
               NoDup (keys updated')
               /\ forall k, In k (keys updated') ->
                    Py.contains SNIPPET_MARKER k = false \/ In k ks).
    { intros u Hnu Hku Hd. apply or_raise_ok in Hd as [Hd _].
      apply dict_del_nodup in Hd as (Hn & Hk & Hsub); [|exact Hnu].
      split; [exact Hn|]. intros k Hin. apply Hku; [now apply Hsub|].
      intros ->. now apply Hk. }
    assert (Hinv : NoDup (keys updated')
                   /\ forall k, In k (keys updated') ->
                        Py.contains SNIPPET_MARKER k = false \/ In k ks).
    { destruct (_ || _).
      - now apply (Hdel updated).
      - destruct (Py.contains RULE_SNIPPET_ACTION_NAME key) eqn:Es.
        + destruct (Py.truthy (sub_snippet key)).
          * apply (Hdel _ (dict_set_nodup (trim_bars (sub_snippet key))
                               value updated Hu)); [|exact Hstep].
            intros k Hin Hne. apply in_keys_dict_set in Hin as [->|Hin];
              [|now apply Hrest].
            left. apply trim_bars_no_marker.
            apply (sub_snippet_no_marker (String.length key)). lia.
          * now apply (Hdel updated).
        + injection Hstep as <- _. split; [exact Hu|].
          intros k Hin. destruct (K k Hin) as [Hg|[E|Hk]]; auto.
          subst k. left. now apply marker_needs_snippet. }
    destruct Hinv as [Hn' K'].
    apply (IH updated' out s1 s'); auto.
    intros k Hk. apply Hl. now right.
Qed.

End CleanUnmarked.

(** X20: cleaning generalises every snippet rule.  For a table with
    distinct keys and a domain that has the rule-snippet action, no key of
    the cleaned table contains the marker [prev_...]. *)
Theorem clean_leaves_no_marker {S V} (is_index : V -> Z -> bool)
    (lookup out : Dict V) (domain : Domain) (s s' : S) :
  NoDup (keys lookup) ->
  known domain RULE_SNIPPET_ACTION_NAME ->
  _clean_feature_keys is_index lookup domain s = (Ok out, s') ->
  forall k, In k (keys out) -> Py.contains SNIPPET_MARKER k = false.
Proof.
  intros Hnd [i Hi] H. unfold _clean_feature_keys in H.
  apply (clean_loop_unmarked is_index lookup domain i Hi (keys lookup)
           lookup out s s'); auto.
Qed.

Lemma clean_leaves_no_marker_witness :
  Py.contains SNIPPET_MARKER "prev_utter_ask" = false.
Proof.
  apply (clean_leaves_no_marker Z.eqb
           [("|prev_utter_greet", 4%Z); ("|prev_...|prev_utter_ask", 6%Z)]
           [("prev_utter_ask", 6%Z)] demo_domain tt tt).
  - repeat constructor; simpl; intuition discriminate.
  - exists 4%nat. reflexivity.
  - reflexivity.
  - simpl. now left.
Defined.

(** ** Training as a whole *)

Lemma stateless_ok {S A} (c : M S A) (s s' : S) (r : Res A) :
  stateless c -> c s = (r, s') -> s' = s.
Proof. intros H E. specialize (H s). rewrite E in H. exact H. Qed.

Lemma stateless_ret {S A} (a : A) : stateless (@ret S A a).
Proof. intros s. reflexivity. Qed.

Lemma stateless_raise {S A} (e : PyError) : stateless (@raise S A e).
Proof. intros s. reflexivity. Qed.

Lemma stateless_or_raise {S A} (e : PyError) (o : option A) :
  stateless (@or_raise S A e o).
Proof. destruct o; [apply stateless_ret|apply stateless_raise]. Qed.

Lemma stateless_bind {S A B} (c : M S A) (k : A -> M S B) :
  stateless c -> (forall a, stateless (k a)) -> stateless (bind c k).
Proof.
  intros Hc Hk s. unfold bind. specialize (Hc s).
  destruct (c s) as [[a|e] s1]; simpl in *; subst; [apply Hk|reflexivity].
Qed.

Lemma stateless_get_active_form_name {S} (state : State) :
  stateless (@_get_active_form_name S state).
Proof. destruct state; [apply stateless_ret|apply stateless_raise]. Qed.

Lemma stateless_prev_action_listen {S} (state : State) :
  stateless (@_prev_action_listen_in_state S state).
Proof. destruct state; [apply stateless_ret|apply stateless_raise]. Qed.

Lemma stateless_modified_states {S} (states : list State) :
  stateless (@_modified_states S states).
Proof.
  unfold _modified_states.
  apply stateless_bind; [apply stateless_or_raise|intros first].
  destruct first as [d|]; [|apply stateless_raise].
  apply stateless_bind; [apply stateless_or_raise|intros last].
  destruct (negb _); apply stateless_ret.
Qed.

Lemma stateless_index_for_action {S} (domain : Domain) (name : string) :
  stateless (@index_for_action S domain name).
Proof.
  unfold index_for_action. destruct (list_index _ _);
    [apply stateless_ret|apply stateless_raise].
Qed.

Lemma set_negative_lookup_frame (n : Dict string) (s : RulePolicy) :
  set_negative_lookup n s
  = (Ok tt,
     {| featurizer := featurizer s; priority := priority s;
        lookup := lookup s; negative_lookup := n;
        is_enabled := is_enabled s |}).
Proof. reflexivity. Qed.

Lemma set_lookup_frame (l : Dict Z) (s : RulePolicy) :
  set_lookup l s
  = (Ok tt,
     {| featurizer := featurizer s; priority := priority s;
        lookup := l; negative_lookup := negative_lookup s;
        is_enabled := is_enabled s |}).
Proof. reflexivity. Qed.

(** One mined point adds at most one entry, marked with one of the two
    markers. *)
Lemma mine_step_ok (states : list State) (actions : list string)
    (s s' : RulePolicy) :
  mine_step states actions s = (Ok tt, s') ->
  same_frame s s' /\ lookup s' = lookup s
  /\ (negative_lookup s' = negative_lookup s
      \/ exists key marker,
           is_marker marker
           /\ negative_lookup s' = dict_set key marker (negative_lookup s)).
Proof.
  unfold mine_step. intros H.
  apply bind_ok in H as (last & s1 & E & H).
  apply (stateless_ok _ _ _ _ (stateless_or_raise _ _)) in E. subst s1.
  apply bind_ok in H as (active_form & s1 & E & H).
  apply (stateless_ok _ _ _ _ (stateless_get_active_form_name _)) in E.
  subst s1.
  destruct (truthy_name active_form) as [form|].
  - apply bind_ok in H as (states' & s1 & E & H).
    apply (stateless_ok _ _ _ _ (stateless_modified_states _)) in E.
    subst s1.
    apply bind_ok in H as (last' & s1 & E & H).
    apply (stateless_ok _ _ _ _ (stateless_or_raise _ _)) in E. subst s1.
    apply bind_ok in H as (listen & s1 & E & H).
    apply (stateless_ok _ _ _ _ (stateless_prev_action_listen _)) in E.
    subst s1.
    apply bind_ok in H as (action & s1 & E & H).
    apply (stateless_ok _ _ _ _ (stateless_or_raise _ _)) in E. subst s1.
    apply bind_ok in H as (n & s1 & E & H).
    injection E as <- <-.
    destruct (listen && (action =? form)).
    + rewrite set_negative_lookup_frame in H. injection H as <-.
      repeat split. right.
      exists (_create_feature_key states'), NO_VALIDATION.
      split; [now left|reflexivity].
    + destruct (negb listen && _).
      * rewrite set_negative_lookup_frame in H. injection H as <-.
        repeat split. right.
        exists (_create_feature_key states'), NO_ACTIVE_FORM.
        split; [now right|reflexivity].
      * injection H as <-. repeat split. now left.
  - injection H as <-. repeat split. now left.
Qed.

Lemma mine_loop_ok (ss : list (list State)) : forall aa (s s' : RulePolicy),
  mine_loop ss aa s = (Ok tt, s') ->
  NoDup (keys (negative_lookup s)) ->
  (forall k v, In (k, v) (negative_lookup s) -> is_marker v) ->
  same_frame s s' /\ lookup s' = lookup s
  /\ NoDup (keys (negative_lookup s'))
  /\ forall k v, In (k, v) (negative_lookup s') -> is_marker v.
Proof.
  induction ss as [|states ss IH]; intros aa s s' H Hnd Hm.
  - injection H as <-. repeat split; assumption.
  - destruct aa as [|actions aa].
    + injection H as <-. repeat split; assumption.
    + simpl in H. apply bind_ok in H as ([] & s1 & Hstep & H).
      apply mine_step_ok in Hstep as ((F1 & F2 & F3) & Hl & Hn).
      apply IH in H as ((G1 & G2 & G3) & Hl' & Hnd' & Hm').
      * repeat split; try congruence; assumption.
      * destruct Hn as [->|(key & marker & _ & ->)];
          [exact Hnd|now apply dict_set_nodup].
      * destruct Hn as [->|(key & marker & Hmk & ->)]; [exact Hm|].
        intros k v Hin. apply in_dict_set in Hin as [[_ ->]|Hin];
          [exact Hmk|now apply (Hm k)].
Qed.

Lemma add_states_ok (ss : list (list State)) :
  forall aa domain (s s' : RulePolicy),
  _add_states_to_lookup ss aa domain s = (Ok tt, s') ->
  NoDup (keys (lookup s)) ->
  same_frame s s' /\ negative_lookup s' = negative_lookup s
  /\ NoDup (keys (lookup s')).
Proof.
  induction ss as [|states ss IH]; intros aa domain s s' H Hnd.
  - injection H as <-. repeat split; assumption.
  - destruct aa as [|actions aa].
    + injection H as <-. repeat split; assumption.
    + simpl in H. apply bind_ok in H as (action & s1 & E & H).
      apply (stateless_ok _ _ _ _ (stateless_or_raise _ _)) in E. subst s1.
      apply bind_ok in H as (item & s1 & E & H).
      apply (stateless_ok _ _ _ _ (stateless_index_for_action _ _)) in E.
      subst s1.
      apply bind_ok in H as (l & s1 & E & H). injection E as <- <-.
      apply bind_ok in H as ([] & s1 & E & H).
      rewrite set_lookup_frame in E. injection E as <-.
      apply IH in H as ((G1 & G2 & G3) & Hn & Hnd').
      * repeat split; assumption.
      * simpl. now apply dict_set_nodup.
Qed.

Lemma clean_stateless {S V} (is_index : V -> Z -> bool) (lookup out : Dict V)
    (domain : Domain) (s s' : S) :
  _clean_feature_keys is_index lookup domain s = (Ok out, s') -> s' = s.
Proof.
  intros H. unfold _clean_feature_keys in H.
  now apply (clean_loop_keeps is_index (fun _ => True)) in H as [H _].
Qed.

(** What a training run that returns has done: both tables are cleaned
    dictionaries, the negative one mined with the two markers only. *)
Lemma train_ok_inv (training_trackers : list Tracker) (domain : Domain)
    (p p' : RulePolicy) :
  train training_trackers domain p = (Ok tt, p') ->
  exists (l0 l : Dict Z) (n0 n : Dict string) (s1 s2 : RulePolicy),
    NoDup (keys l0)
    /\ _clean_feature_keys Z.eqb l0 domain s1 = (Ok l, s1)
    /\ NoDup (keys n0)
    /\ (forall k v, In (k, v) n0 -> is_marker v)
    /\ _clean_feature_keys (fun _ _ => false) n0 domain s2 = (Ok n, s2)
    /\ same_frame p p' /\ lookup p' = l /\ negative_lookup p' = n.
Proof.
  unfold train. intros H. cbv zeta in H.
  apply bind_ok in H as ([] & s1 & E & H).
  rewrite set_lookup_frame in E. injection E as <-.
  apply bind_ok in H as (fz & s1 & E & H). injection E as <- <-.
  destruct (training_states_and_actions _ _ domain) as [rs ra].
  apply bind_ok in H as ([] & s1 & Eadd & H).
  apply add_states_ok in Eadd as ((F1 & F2 & F3) & Fn & Hnd1);
    [|simpl; constructor].
  simpl in F1, F2, F3, Fn.
  apply bind_ok in H as (l0 & s2 & E & H). injection E as <- <-.
  apply bind_ok in H as (l & s2 & Ecl & H).
  pose proof (clean_stateless _ _ _ _ _ _ Ecl) as ->.
  apply bind_ok in H as ([] & s2 & E & H).
  rewrite set_lookup_frame in E. injection E as <-.
  destruct (training_states_and_actions _ _ domain) as [ss sa].
  apply bind_ok in H as ([] & s2 & E & H).
  rewrite set_negative_lookup_frame in E. injection E as <-.
  apply bind_ok in H as ([] & s2 & Emine & H).
  apply mine_loop_ok in Emine as ((G1 & G2 & G3) & Gl & Hnd2 & Hm);
    [|simpl; constructor|simpl; intros k v []].
  simpl in G1, G2, G3, Gl.
  apply bind_ok in H as (n0 & s3 & E & H). injection E as <- <-.
  apply bind_ok in H as (n & s3 & Ecn & H).
  pose proof (clean_stateless _ _ _ _ _ _ Ecn) as ->.
  rewrite set_negative_lookup_frame in H. injection H as <-.
  exists (lookup s1), l, (negative_lookup s2), n, s1, s2.
  repeat split; simpl; try assumption; congruence.
Qed.

(** X21: the negative table of a training run that returns.  Its values
    are the two markers and nothing else, its keys are distinct, and, the
    domain having the rule-snippet action, none of its keys contains the
    marker [prev_...]: every mined rule has been generalised. *)
Theorem train_negative_table (training_trackers : list Tracker)
    (domain : Domain) (p p' : RulePolicy) :
  train training_trackers domain p = (Ok tt, p') ->
  known domain RULE_SNIPPET_ACTION_NAME ->
  (forall k v, In (k, v) (negative_lookup p') -> is_marker v)
  /\ NoDup (keys (negative_lookup p'))
  /\ forall k, In k (keys (negative_lookup p')) ->
       Py.contains SNIPPET_MARKER k = false.
Proof.
  intros H [i Hi].
  apply train_ok_inv in H
    as (l0 & l & n0 & n & s1 & s2 & _ & _ & Hnd & Hm & Hcl & _ & _ & ->).
  unfold _clean_feature_keys in Hcl.
  assert (Hv : forall k v, In (k, v) n -> is_marker v).
  { pose proof (clean_loop_keeps (fun _ _ => false) is_marker n0 domain
                  (keys n0) n0 n s2 s2 Hcl Hm Hm) as (_ & Hv & _).
    exact Hv. }
  assert (Hn : NoDup (keys n)).
  { apply (clean_loop_good (fun _ _ => false) n0 domain i Hi (keys n0) n0 n
             s2 s2); auto. }
  split; [exact Hv|]. split; [exact Hn|].
  apply (clean_loop_unmarked (fun _ _ => false) n0 domain i Hi
           (keys n0) n0 n s2 s2); auto.
Qed.

Lemma train_negative_table_witness :
  (forall k v,
     In (k, v)
       (negative_lookup
          (snd (train [story_tracker] demo_domain (untrained (Some []))))) ->
     is_marker v)
  /\ NoDup
       (keys (negative_lookup
                (snd (train [story_tracker] demo_domain
                        (untrained (Some []))))))
  /\ forall k,
       In k (keys (negative_lookup
                     (snd (train [story_tracker] demo_domain
                             (untrained (Some [])))))) ->
       Py.contains SNIPPET_MARKER k = false.
Proof.
  apply (train_negative_table [story_tracker] demo_domain
           (untrained (Some []))).
  - vm_compute. reflexivity.
  - exists 4%nat. reflexivity.
Defined.

(** X22: the positive table of a training run that returns.  Training
    changes nothing of the policy but its tables; the keys of the positive
    table are distinct, none contains the marker [prev_...], and no entry
    recalls the rule-snippet action. *)
Theorem train_positive_table (training_trackers : list Tracker)
    (domain : Domain) (p p' : RulePolicy) (i : nat) :
  train training_trackers domain p = (Ok tt, p') ->
  list_index RULE_SNIPPET_ACTION_NAME (action_names domain) = Some i ->
  same_frame p p'
  /\ NoDup (keys (lookup p'))
  /\ (forall k, In k (keys (lookup p')) ->
        Py.contains SNIPPET_MARKER k = false)
  /\ forall k v, In (k, v) (lookup p') -> v <> Z.of_nat i.
Proof.
  intros H Hi.
  apply train_ok_inv in H
    as (l0 & l & n0 & n & s1 & s2 & Hnd & Hcl & _ & _ & _ & Hf & -> & _).
  unfold _clean_feature_keys in Hcl.
  assert (Hgood : NoDup (keys l)
                  /\ forall k v, In (k, v) l -> Z.eqb v (Z.of_nat i) = false).
  { apply (clean_loop_good Z.eqb l0 domain i Hi (keys l0) l0 l s1 s1); auto.
    intros k v Hin. right. split; [now apply (in_keys k v)|].
    now apply dict_get_in_nodup. }
  destruct Hgood as [Hn Hv]. repeat split; try assumption; try apply Hf.
  - apply (clean_loop_unmarked Z.eqb l0 domain i Hi (keys l0) l0 l s1 s1);
      auto.
  - intros k v Hin. apply Z.eqb_neq. now apply (Hv k).
Qed.

Lemma train_positive_table_witness :
  same_frame (untrained (Some []))
    (snd (train [rule_tracker] demo_domain (untrained (Some []))))
  /\ NoDup (keys (lookup (snd (train [rule_tracker] demo_domain
                                 (untrained (Some []))))))
  /\ (forall k,
        In k (keys (lookup (snd (train [rule_tracker] demo_domain
                                   (untrained (Some [])))))) ->
        Py.contains SNIPPET_MARKER k = false)
  /\ forall k v,
       In (k, v) (lookup (snd (train [rule_tracker] demo_domain
                                 (untrained (Some []))))) ->
       v <> Z.of_nat 4.
Proof.
  apply (train_positive_table [rule_tracker] demo_domain
           (untrained (Some []))).
  - vm_compute. reflexivity.
  - reflexivity.
Defined.

Lemma constant_ret {S A} (a : A) : constant (@ret S A a).
Proof. now exists (Ok a). Qed.

Lemma constant_raise {S A} (e : PyError) : constant (@raise S A e).
Proof. now exists (Raise e). Qed.

Lemma constant_or_raise {S A} (e : PyError) (o : option A) :
  constant (@or_raise S A e o).
Proof. destruct o; [apply constant_ret|apply constant_raise]. Qed.

Lemma constant_index_for_action {S} (domain : Domain) (name : string) :
  constant (@index_for_action S domain name).
Proof.
  unfold index_for_action.
  destruct (list_index _ _); [apply constant_ret|apply constant_raise].
Qed.

Lemma constant_bind {S A B} (c : M S A) (k : A -> M S B) :
  constant c -> (forall a, constant (k a)) -> constant (bind c k).
Proof.
  intros [[a|e] Hc] Hk.
  - destruct (Hk a) as [r Hr]. exists r. intros s. unfold bind.
    now rewrite Hc, Hr.
  - exists (Raise e). intros s. unfold bind. now rewrite Hc.
Qed.

Lemma constant_clean_loop {S V} (is_index : V -> Z -> bool)
    (lookup : Dict V) (domain : Domain) (ks : list string) :
  forall updated,
    constant (@clean_loop S V is_index lookup domain ks updated).
Proof.
  induction ks as [|key ks IH]; intros updated; [apply constant_ret|].
  simpl. apply constant_bind; [|intros u; apply IH].
  unfold clean_step.
  apply constant_bind; [apply constant_or_raise|intros value].
  apply constant_bind; [apply constant_ret|intros no_prior].
  apply constant_bind.
  - destruct no_prior; [apply constant_ret|].
    apply constant_bind; [apply constant_index_for_action|].
    intros i. apply constant_ret.
  - intros drop_it. destruct drop_it; [apply constant_or_raise|].
    destruct (Py.contains _ key); [apply constant_or_raise|].
    apply constant_ret.
Qed.

Lemma constant_clean {S V} (is_index : V -> Z -> bool) (lookup : Dict V)
    (domain : Domain) :
  constant (@_clean_feature_keys S V is_index lookup domain).
Proof. apply constant_clean_loop. Qed.

Lemma constant_ignores {A} (c : M RulePolicy A) :
  constant c -> ignores_negative c.
Proof. intros [r Hr] s n. now rewrite !Hr. Qed.

Lemma ignores_bind {A B} (c : M RulePolicy A) (k : A -> M RulePolicy B) :
  ignores_negative c -> (forall a, ignores_negative (k a)) ->
  ignores_negative (bind c k).
Proof.
  intros Hc Hk s n. unfold bind. rewrite Hc.
  destruct (c s) as [[a|e] s1]; simpl; [apply Hk|reflexivity].
Qed.

Lemma ignores_gets_lookup : ignores_negative (gets lookup).
Proof. intros s n. reflexivity. Qed.

Lemma ignores_gets_featurizer : ignores_negative (gets featurizer).
Proof. intros s n. reflexivity. Qed.

Lemma ignores_set_lookup (l : Dict Z) : ignores_negative (set_lookup l).
Proof. intros s n. reflexivity. Qed.

Lemma ignores_add_states (ss : list (list State)) : forall aa domain,
  ignores_negative (_add_states_to_lookup ss aa domain).
Proof.
  induction ss as [|states ss IH]; intros aa domain;
    [apply constant_ignores, constant_ret|].
  destruct aa as [|actions aa]; [apply constant_ignores, constant_ret|].
  simpl.
  apply ignores_bind; [apply constant_ignores, constant_or_raise|intros a].
  apply ignores_bind;
    [apply constant_ignores, constant_index_for_action|intros i].
  apply ignores_bind; [apply ignores_gets_lookup|intros l].
  apply ignores_bind; [apply ignores_set_lookup|intros _]. apply IH.
Qed.

Lemma forgets_bind {A} (c : M RulePolicy A) (k : A -> M RulePolicy unit) :
  ignores_negative c -> (forall a, forgets_negative (k a)) ->
  forgets_negative (bind c k).
Proof.
  intros Hc Hk s n. unfold bind. rewrite Hc.
  destruct (c s) as [[a|e] s1]; simpl; [apply Hk|].
  repeat split. discriminate.
Qed.

Lemma forgets_reset (k : M RulePolicy unit) :
  forgets_negative (set_negative_lookup [] ;;; k).
Proof. intros s n. unfold bind. simpl. auto. Qed.

Lemma train_forgets_negative (training_trackers : list Tracker)
    (domain : Domain) :
  forgets_negative (train training_trackers domain).
Proof.
  unfold train. cbv zeta.
  apply forgets_bind; [apply ignores_set_lookup|intros _].
  apply forgets_bind; [apply ignores_gets_featurizer|intros fz].
  destruct (training_states_and_actions fz _ domain) as [rs ra].
  apply forgets_bind; [apply ignores_add_states|intros _].
  apply forgets_bind; [apply ignores_gets_lookup|intros l].
  apply forgets_bind; [apply constant_ignores, constant_clean|intros l'].
  apply forgets_bind; [apply ignores_set_lookup|intros _].
  destruct (training_states_and_actions fz _ domain) as [ss sa].
  apply forgets_reset.
Qed.

Lemma train_overwrites_lookup (training_trackers : list Tracker)
    (domain : Domain) (p : RulePolicy) (l : Dict Z) :
  train training_trackers domain (with_tables l (negative_lookup p) p)
  = train training_trackers domain p.
Proof. reflexivity. Qed.

(** X23: training starts from scratch.  Whatever tables the policy holds
    before, a training run has the same outcome and builds the same positive
    table, and when it returns it leaves the same policy. *)
Theorem train_from_scratch (training_trackers : list Tracker)
    (domain : Domain) (p : RulePolicy) (l : Dict Z) (n : Dict string) :
  fst (train training_trackers domain (with_tables l n p))
  = fst (train training_trackers domain p)
  /\ lookup (snd (train training_trackers domain (with_tables l n p)))
     = lookup (snd (train training_trackers domain p))
  /\ (fst (train training_trackers domain p) = Ok tt ->
      snd (train training_trackers domain (with_tables l n p))
      = snd (train training_trackers domain p)).
Proof.
  rewrite <- (train_overwrites_lookup training_trackers domain p l).
  apply (train_forgets_negative training_trackers domain
           (with_tables l (negative_lookup p) p) n).
Qed.

(** ** Keys and the start of the conversation *)

(** X24: a key as the builder makes it is anchored at the start of the
    conversation.  Behind the segments of its non-empty turns it has one
    empty segment, and at that index it is good for a turn exactly when the
    turn has no features. *)
Theorem built_key_anchors_at_start (states : list State) (state : State) :
  Forall tokens_only states ->
  _rule_is_good (_create_feature_key states)
    (List.length (filter state_truthy states)) state
  = negb (state_truthy state).
Proof.
  intros Htok.
  assert (Hf : Forall tokens_only (filter state_truthy states)).
  { apply Forall_forall. intros st Hin. apply filter_In in Hin as [Hin _].
    rewrite Forall_forall in Htok. now apply Htok. }
  assert (Ht : Forall (fun s => state_truthy s = true)
                 (filter state_truthy states)).
  { apply Forall_forall. intros st Hin. now apply filter_In in Hin as [_ Hin]. }
  unfold _rule_is_good, _create_feature_key. rewrite fold_key_filter.
  change (fold_left feature_key_step (filter state_truthy states) "")
    with (_create_feature_key ([] ++ filter state_truthy states)).
  rewrite (create_feature_key_shape [] _ (Forall_nil _) Ht Hf).
  rewrite split_on_glue by (now apply bodies_bar_free).
  set (post := filter state_truthy states).
  simpl rev. rewrite length_app, length_rev, length_map. simpl List.length.
  replace (List.length post + 1 <=? List.length post)%nat with false
    by (symmetry; apply Nat.leb_gt; lia).
  rewrite nth_error_app2 by (rewrite length_rev, length_map; lia).
  rewrite length_rev, length_map, Nat.sub_diag. simpl.
  now rewrite orb_false_r.
Qed.

Lemma built_key_anchors_at_start_witness :
  _rule_is_good (_create_feature_key greet_turns)
    (List.length (filter state_truthy greet_turns))
    (Some [("prev_utter_bye", 1%Z)])
  = negb (state_truthy (Some [("prev_utter_bye", 1%Z)])).
Proof.
  apply (built_key_anchors_at_start greet_turns). repeat constructor.
Defined.

Lemma max_by_len_order_free_witness :
  String.length (max_by_len "|b c" ["|a"; "|d e"])
  = String.length (max_by_len "|d e" ["|a"; "|b c"]).
Proof.
  apply (max_by_len_order_free "|b c" "|d e" ["|a"; "|d e"] ["|a"; "|b c"]).
  intros k. simpl. tauto.
Defined.

(** ** Handing control back to the form *)

(** X25: a general rule that recalls listen-for-input inside a form hands
    control back to the form.  With rule matching reached for an active
    form, the chosen key not naming the form as active and no surviving
    negative key marked [NO_ACTIVE_FORM], the prediction is the form's
    action and the world is left as it was. *)
Theorem general_listen_rule_returns_to_form (domain : Domain) (w : World)
    (form : string) (states : list State) (key : string) (action : Z)
    (i : nat) :
  is_enabled (self w) = true ->
  truthy_name (_should_run_rasa_default_action (tracker w)) = None ->
  active_loop_name (tracker w) = Some form ->
  Py.truthy form = true ->
  active_loop_rejected (tracker w) = true ->
  nth_error (prediction_states (featurizer (self w)) [tracker w] domain) 0
  = Some states ->
  recall (lookup (self w)) (surviving (keys (lookup (self w))) states)
  = (Some key, Some action) ->
  Py.index (action_names domain) action = Some ACTION_LISTEN_NAME ->
  Py.contains (ACTIVE_FORM_PREFIX ++ form) key = false ->
  marker_in NO_ACTIVE_FORM
    (negative_recalled_of (negative_lookup (self w))
       (surviving (keys (negative_lookup (self w))) states)) = false ->
  list_index form (action_names domain) = Some i ->
  predict_action_probabilities domain w
  = (Ok (one_hot (List.length (action_names domain)) i), w).
Proof.
  intros He Hd Hf Ht Hr Hst Hrec Hact Hkey Hno Hi.
  rewrite (predict_reaches_rules domain w form He Hd Hf Hr).
  rewrite (predict_from_rules_form domain _ w form states (Some key)
             (Some action) true Ht Hst Hrec).
  - rewrite Hno. simpl. now apply predict_known_action.
  - unfold predicted_listen_from_general_rule, bind.
    rewrite Hact. unfold or_raise, ret.
    rewrite Hkey, String.eqb_refl. reflexivity.
Qed.

Lemma general_listen_rule_returns_to_form_witness :
  predict_action_probabilities demo_domain
    (in_form_world [(in_form_key, NO_VALIDATION)])
  = (Ok [0; 0; 0; 0; 0; 1; 0]%Z,
     in_form_world [(in_form_key, NO_VALIDATION)]).
Proof.
  apply (general_listen_rule_returns_to_form demo_domain
           (in_form_world [(in_form_key, NO_VALIDATION)])
           "restaurant_form" [Some []; in_form_turn]
           "|prev_utter_chitchat" 0%Z 5%nat);
    reflexivity.
Defined.

(** ** Feature matching, the other way round *)

Lemma features_loop_complete (fs : list string) (d : Turn) : forall m,
  (forall f, In f fs ->
     if Py.endswith f "_None"
     then existsb (fun key => Py.contains (base_name f) key) (keys d) = false
     else dict_mem f d = true) ->
  features_loop fs d m = Some (slots_fold m (filter slot_feature fs)).
Proof.
  induction fs as [|f fs IH]; intros m H; [reflexivity|].
  pose proof (H f (or_introl eq_refl)) as Hf.
  assert (Hrest : forall g, In g fs ->
            if Py.endswith g "_None"
            then existsb (fun key => Py.contains (base_name g) key) (keys d)
                 = false
            else dict_mem g d = true).
  { intros g Hg. apply H. now right. }
  simpl features_loop. simpl filter. unfold slot_feature at 1.
  destruct (Py.endswith f "_None").
  - rewrite Hf, andb_false_r. now apply IH.
  - rewrite Hf, andb_true_r. simpl negb. cbv iota.
    destruct (Py.startswith f "slot") eqn:Es; rewrite IH by exact Hrest.
    + unfold slots_fold. simpl. now rewrite Es.
    + reflexivity.
Qed.

Lemma in_keys_slots_fold (names : list string) : forall (m : SlotMap) k,
  In k (keys (slots_fold m names)) ->
  In k (keys m)
  \/ exists f, In f names /\ Py.startswith f "slot" = true
               /\ base_name f = k.
Proof.
  induction names as [|s names IH]; intros m k H; [now left|].
  change (slots_fold m (s :: names))
    with (slots_fold
            (if Py.startswith s "slot" then slot_add (base_name s) s m else m)
            names) in H.
  apply IH in H as [H|(f & Hf & Hs & Hb)].
  - destruct (Py.startswith s "slot") eqn:Es; [|now left].
    unfold slot_add in H.
    destruct (dict_get (base_name s) m);
      apply in_keys_dict_set in H as [->|H]; auto;
      right; exists s; repeat split; auto; now left.
  - right. exists f. repeat split; auto. now right.
Qed.

Lemma base_name_contained (x : string) : Py.contains (base_name x) x = true.
Proof.
  apply contains_iff. unfold base_name, Py.slice_to.
  destruct (_ <? 0)%Z;
    match goal with
    | |- context [Py.take ?n x] =>
        destruct (take_append n x) as [rest H]; exists "", rest; exact H
    end.
Qed.

(** X13: a segment that fits a turn matches it.  When every feature of the
    segment that is no must-be-absent marker is a feature of the turn, the
    base name of every marker occurs in no feature name of the turn, and the
    segment lists every slot feature the turn has for a slot it names, the
    match succeeds. *)
Theorem features_in_state_complete (features : list string) (state : Turn) :
  segment_fits features state ->
  _features_in_state features state = true.
Proof.
  intros [H1 H2]. unfold _features_in_state.
  rewrite (features_loop_complete features state []).
  2:{ intros f Hf. destruct (H1 f Hf) as [Hn Hp].
      destruct (Py.endswith f "_None").
      - destruct (existsb _ (keys state)) eqn:E; [|reflexivity].
        apply existsb_exists in E as (key & Hk & Hc).
        rewrite (Hn eq_refl key Hk) in Hc. discriminate Hc.
      - apply dict_mem_keys. now apply Hp. }
  set (F := slots_fold [] (filter slot_feature features)).
  unfold state_slots_of. fold (slots_fold [] (keys state)).
  set (SS := slots_fold [] (keys state)).
  assert (HF : forall k x,
             In x (slot_get k F)
             <-> In x features /\ slot_feature x = true /\ base_name x = k).
  { intros k x. unfold F. rewrite in_slot_get_fold, filter_In.
    unfold slot_feature. split.
    - intros [[]|((Hx & Hsf) & _ & Hb)]. auto.
    - intros (Hx & Hsf & Hb). right. repeat split; auto.
      now apply andb_prop in Hsf as [Hs _]. }
  assert (HS : forall k x,
             In x (slot_get k SS)
             <-> In x (keys state) /\ Py.startswith x "slot" = true
                 /\ base_name x = k).
  { intros k x. unfold SS. rewrite in_slot_get_fold. split.
    - intros [[]|H]. exact H.
    - intros H. now right. }
  apply forallb_forall. intros [k v] Hin. simpl.
  assert (Hv : slot_get k F = v).
  { unfold slot_get.
    rewrite (dict_get_in_nodup k v F); [reflexivity| |exact Hin].
    apply slots_fold_nodup. constructor. }
  assert (Hk : exists f, In f features /\ slot_feature f = true
                         /\ base_name f = k).
  { apply in_keys, in_keys_slots_fold in Hin as [[]|(f & Hf & Hs & Hb)].
    apply filter_In in Hf as [Hf Hsf]. now exists f. }
  destruct Hk as (f & Hf & Hsf & Hb).
  unfold set_eqb. apply andb_true_intro. split; apply forallb_forall.
  - intros x Hx. apply existsb_exists. exists x.
    split; [|apply String.eqb_refl].
    rewrite <- Hv. apply HF. apply HS in Hx as (Hxd & Hxs & Hxb).
    assert (Hxf : In x features).
    { apply (H2 f x); auto. congruence. }
    repeat split; auto. unfold slot_feature. rewrite Hxs. simpl.
    destruct (Py.endswith x "_None") eqn:En; [|reflexivity].
    destruct (H1 x Hxf) as [Hn _].
    pose proof (Hn En x Hxd) as Hc.
    rewrite base_name_contained in Hc. discriminate Hc.
  - intros y Hy. apply existsb_exists. exists y.
    split; [|apply String.eqb_refl].
    rewrite <- Hv in Hy. apply HF in Hy as (Hyf & Hys & Hyb).
    apply HS. unfold slot_feature in Hys. apply andb_prop in Hys as [Hs Hn].
    apply negb_true_iff in Hn.
    destruct (H1 y Hyf) as [_ Hp]. auto.
Qed.

Lemma features_in_state_complete_witness :
  _features_in_state
    ["slot_cuisine_0"; "slot_cuisine_1"; "slot_people_None"]
    two_slot_turn = true.
Proof.
  apply (features_in_state_complete
           ["slot_cuisine_0"; "slot_cuisine_1"; "slot_people_None"]
           two_slot_turn).
  split.
  - intros f [<-|[<-|[<-|[]]]]; split; intros H; try discriminate H;
      try (simpl; tauto);
      intros key [<-|[<-|[<-|[]]]]; reflexivity.
  - intros f s [<-|[<-|[<-|[]]]] Hsf [<-|[<-|[<-|[]]]] Hs Hb;
      try discriminate; simpl; tauto.
Defined.
